(** * Repo_Metrics_AI: the metric, trend and scoring core

    A shallow embedding of [analytics/metrics.py], [analytics/trends.py]
    and [analytics/scoring.py].

    Conventions of the embedding.
    - Python [float] and [int] quantities are exact rationals ([Q]);
      integer counts are [Z].  [round(x, n)] is rounding of the exact
      value to [n] decimals, ties to the even neighbour.
    - Python exceptions are values of [exn]; a function that can raise
      returns in the [res] monad.
    - [datetime.now()] is the clock reading [now], an explicit argument. *)

From Stdlib Require Import ZArith QArith Qround Qabs Qminmax Lia Lqa.
From Stdlib Require Import List String Ascii Bool Permutation Sorted.
Import ListNotations.

Local Open Scope Z_scope.

(** ** Numbers *)

Module Num.

(** Nearest integer, ties to even: the integer part of Python's [round]. *)
Definition round_half_even (q : Q) : Z :=
  let f := Qfloor q in
  match Qcompare (q - inject_Z f) (1 # 2) with
  | Lt => f
  | Gt => f + 1
  | Eq => if Z.even f then f else f + 1
  end.

(** [round(x, ndigits)] *)
Definition py_round (x : Q) (ndigits : nat) : Q :=
  Qmake (round_half_even (x * inject_Z (Z.pow 10 (Z.of_nat ndigits))))
        (Z.to_pos (Z.pow 10 (Z.of_nat ndigits))).

Definition Qltb (x y : Q) : bool := negb (Qle_bool y x).

(** Python's two-argument [min] and [max] keep the first argument unless
    the second is strictly smaller (larger). *)
Definition py_min (a b : Q) : Q := if Qltb b a then b else a.
Definition py_max (a b : Q) : Q := if Qltb a b then b else a.

End Num.
Import Num.

(** ** metrics.py: the normalizer *)

Definition _normalize_score (value min_val max_val : Q) (inverse : bool) : Q :=
  if Qeq_bool max_val min_val then 50%Q
  else
    let normalized := ((value - min_val) / (max_val - min_val))%Q in
    let normalized := py_max 0 (py_min 1 normalized) in
    let normalized := if inverse then (1 - normalized)%Q else normalized in
    py_round (normalized * 100) 2.

(** The clamp of the normalizer, [max(0.0, min(1.0, x))]. *)
Definition clamp01 (x : Q) : Q := py_max 0 (py_min 1 x).

(** ** Python dictionaries with string keys

    A [dict] is the list of its items in insertion order, as the loops
    of the source iterate them; [dict_get] is [d.get(k)]. *)

Definition dict (V : Type) : Type := list (string * V).

Fixpoint dict_get {V : Type} (d : dict V) (k : string) : option V :=
  match d with
  | [] => None
  | (k', v) :: d' => if String.eqb k' k then Some v else dict_get d' k
  end.

Definition dict_mem {V : Type} (d : dict V) (k : string) : bool :=
  match dict_get d k with Some _ => true | None => false end.

(** ** scoring.py *)

Definition DEFAULT_WEIGHTS : dict Q :=
  [ ("commit_frequency"%string, 0.25%Q);
    ("issue_resolution"%string, 0.25%Q);
    ("pr_rejection"%string, 0.25%Q);
    ("test_ratio"%string, 0.25%Q) ].

(** The weight the loop of [calculate_weighted_score] gives to one metric:
    [weights.get(metric_name, 0.0)], replaced by [1.0 / len(scores)] when
    it is zero and the name is not a key of [weights]. *)
Definition metric_weight (weights : dict Q) (len_scores : nat)
    (metric_name : string) : Q :=
  let weight := match dict_get weights metric_name with
                | Some w => w
                | None => 0%Q
                end in
  if Qeq_bool weight 0 && negb (dict_mem weights metric_name)
  then (1 / inject_Z (Z.of_nat len_scores))%Q
  else weight.

(** The loop: the pair [(total_weight, weighted_sum)] after all items. *)
Definition weighted_loop (weights : dict Q) (len_scores : nat)
    (items : dict Q) (acc : Q * Q) : Q * Q :=
  fold_left
    (fun '(total_weight, weighted_sum) '(metric_name, score) =>
       let weight := metric_weight weights len_scores metric_name in
       ((total_weight + weight)%Q, (weighted_sum + score * weight)%Q))
    items acc.

Definition calculate_weighted_score (scores : dict Q)
    (weights : option (dict Q)) : Q :=
  match scores with
  | [] => 0%Q
  | _ =>
    let weights := match weights with
                   | None => DEFAULT_WEIGHTS
                   | Some w => w
                   end in
    let '(total_weight, weighted_sum) :=
      weighted_loop weights (List.length scores) scores (0%Q, 0%Q) in
    if Qeq_bool total_weight 0 then 0%Q
    else (weighted_sum / total_weight
          * (if Qle_bool total_weight 1 then total_weight else 1))%Q
  end.

Definition weights_or_default (weights : option (dict Q)) : dict Q :=
  match weights with None => DEFAULT_WEIGHTS | Some w => w end.

(** The total weight and the weighted sum of a score mapping, written as
    sums over its items. *)
Fixpoint total_weight_of (weights : dict Q) (n : nat) (items : dict Q) : Q :=
  match items with
  | [] => 0%Q
  | (name, _) :: rest => (metric_weight weights n name + total_weight_of weights n rest)%Q
  end.

Fixpoint weighted_sum_of (weights : dict Q) (n : nat) (items : dict Q) : Q :=
  match items with
  | [] => 0%Q
  | (name, score) :: rest =>
      (score * metric_weight weights n name + weighted_sum_of weights n rest)%Q
  end.


(** The sum of a list of numbers, from the left as [sum] adds them. *)
Definition Qsum (l : list Q) : Q := fold_left Qplus l 0%Q.

(** *** The weighted sum in the words of the specification

    The weight of a metric under a weights mapping is its entry in the
    mapping, or the equal share [1 / len(scores)] when the mapping has
    no entry for it; the total weight and the weighted sum are the sums
    over the items of the score mapping. *)
Definition spec_weight (weights : dict Q) (len_scores : nat) (metric_name : string) : Q :=
  match dict_get weights metric_name with
  | Some weight => weight
  | None => (1 / inject_Z (Z.of_nat len_scores))%Q
  end.

Definition spec_total_weight (weights : dict Q) (scores : dict Q) : Q :=
  Qsum (map (fun item => spec_weight weights (List.length scores) (fst item)) scores).

Definition spec_weighted_sum (weights : dict Q) (scores : dict Q) : Q :=
  Qsum (map (fun item => (snd item * spec_weight weights (List.length scores) (fst item))%Q)
            scores).

(** The score mapping of the worked example: 80, 60, 40, 20. *)
Definition four_scores : dict Q :=
  [ ("commit_frequency"%string, 80%Q); ("issue_resolution"%string, 60%Q);
    ("pr_rejection"%string, 40%Q); ("test_ratio"%string, 20%Q) ].


(** Two metrics, and two weight mappings that differ only in how they
    silence ["a"]: an explicit zero, or no entry at all. *)
Definition two_scores : dict Q := [ ("a"%string, 80%Q); ("b"%string, 20%Q) ].
Definition weights_zero_a : dict Q := [ ("a"%string, 0%Q); ("b"%string, 1%Q) ].
Definition weights_without_a : dict Q := [ ("b"%string, 1%Q) ].

(** Weights for [two_scores]: three to one, summing to 1, to 4 and
    to 0.4. *)
Definition weights_three_to_one : dict Q := [ ("a"%string, 0.75%Q); ("b"%string, 0.25%Q) ].
Definition weights_heavy : dict Q := [ ("a"%string, 3%Q); ("b"%string, 1%Q) ].
Definition weights_light : dict Q := [ ("a"%string, 0.3%Q); ("b"%string, 0.1%Q) ].

(** ** Exceptions *)

Inductive exn : Type :=
| AttributeError
| TypeError
| ValueError
| OverflowError.

Inductive res (A : Type) : Type :=
| Ok (a : A)
| Raise (e : exn).
Arguments Ok {A} a.
Arguments Raise {A} e.

Definition bind {A B : Type} (m : res A) (k : A -> res B) : res B :=
  match m with
  | Ok a => k a
  | Raise e => Raise e
  end.

Notation "x <- m ;; k" := (bind m (fun x => k))
  (at level 61, m at next level, right associativity).

(** ** datetime

    A [datetime] is kept as the proleptic Gregorian ordinal of its
    calendar day ([date.toordinal()]), the microseconds since its local
    midnight, and its UTC offset in microseconds ([None] for a naive
    value).  Dates and offsets are local: two aware values may denote the
    same instant and differ in all three fields. *)

Record datetime : Type := mkdatetime {
  dt_day : Z;
  dt_us : Z;
  dt_offset : option Z
}.

Definition US_PER_SECOND : Z := 1000000.
Definition US_PER_DAY : Z := 86400 * US_PER_SECOND.
Definition MAXORDINAL : Z := 3652059.

Definition is_aware (d : datetime) : bool :=
  match dt_offset d with Some _ => true | None => false end.

(** Microseconds since the epoch of the ordinal, in UTC for an aware
    value and in local fields for a naive one: the quantity Python
    compares and subtracts. *)
Definition dt_key (d : datetime) : Z :=
  dt_day d * US_PER_DAY + dt_us d
  - match dt_offset d with Some o => o | None => 0 end.

(** [a < b]; comparing a naive with an aware value raises [TypeError]. *)
Definition datetime_lt (a b : datetime) : res bool :=
  if Bool.eqb (is_aware a) (is_aware b) then Ok (dt_key a <? dt_key b)
  else Raise TypeError.

(** [(a - b)] in microseconds; mixing naive and aware raises [TypeError]. *)
Definition datetime_sub (a b : datetime) : res Z :=
  if Bool.eqb (is_aware a) (is_aware b) then Ok (dt_key a - dt_key b)
  else Raise TypeError.

(** [timedelta.days] and [timedelta.total_seconds()] of a difference. *)
Definition timedelta_days (us : Z) : Z := us / US_PER_DAY.
Definition timedelta_total_seconds (us : Z) : Q := inject_Z us / inject_Z US_PER_SECOND.

(** *** The calendar of [datetime.py] *)

Definition _is_leap (year : Z) : bool :=
  (year mod 4 =? 0) && (negb (year mod 100 =? 0) || (year mod 400 =? 0)).

Definition _days_before_year (year : Z) : Z :=
  let y := year - 1 in
  y * 365 + y / 4 - y / 100 + y / 400.

Definition _days_in_month (year month : Z) : Z :=
  if (month =? 2) && _is_leap year then 29
  else nth (Z.to_nat month) [0; 31; 28; 31; 30; 31; 30; 31; 31; 30; 31; 30; 31] 0.

Definition _DAYS_BEFORE_MONTH : list Z :=
  [0; 0; 31; 59; 90; 120; 151; 181; 212; 243; 273; 304; 334].

Definition _days_before_month (year month : Z) : Z :=
  nth (Z.to_nat month) _DAYS_BEFORE_MONTH 0
  + (if (2 <? month) && _is_leap year then 1 else 0).

Definition _ymd2ord (year month day : Z) : Z :=
  _days_before_year year + _days_before_month year month + day.

Definition _DI400Y : Z := 146097.
Definition _DI100Y : Z := 36524.
Definition _DI4Y : Z := 1461.

Definition _ord2ymd (ordinal : Z) : Z * Z * Z :=
  let n := ordinal - 1 in
  let n400 := n / _DI400Y in
  let n := n mod _DI400Y in
  let year := n400 * 400 + 1 in
  let n100 := n / _DI100Y in
  let n := n mod _DI100Y in
  let n4 := n / _DI4Y in
  let n := n mod _DI4Y in
  let n1 := n / 365 in
  let n := n mod 365 in
  let year := year + n100 * 100 + n4 * 4 + n1 in
  if (n1 =? 4) || (n100 =? 4) then (year - 1, 12, 31)
  else
    let leapyear := (n1 =? 3) && (negb (n4 =? 24) || (n100 =? 3)) in
    let month := Z.shiftr (n + 50) 5 in
    let preceding := nth (Z.to_nat month) _DAYS_BEFORE_MONTH 0
                     + (if (2 <? month) && leapyear then 1 else 0) in
    if n <? preceding then
      let month := month - 1 in
      let preceding := preceding
                       - (nth (Z.to_nat month)
                            [0; 31; 28; 31; 30; 31; 30; 31; 31; 30; 31; 30; 31] 0
                          + (if (month =? 2) && leapyear then 1 else 0)) in
      (year, month, n - preceding + 1)
    else (year, month, n - preceding + 1).

(** *** Decimal text *)

Definition digit_of (c : ascii) : option Z :=
  let n := Z.of_nat (nat_of_ascii c) in
  if (48 <=? n) && (n <=? 57) then Some (n - 48) else None.

Definition ascii_of_digit (d : Z) : ascii := ascii_of_nat (Z.to_nat (48 + d)).

(** Exactly [n] decimal digits at the head of [s]: their value and the
    rest ([parse_digits] of [_datetimemodule.c]). *)
Fixpoint parse_digits (n : nat) (acc : Z) (s : list ascii) : option (Z * list ascii) :=
  match n with
  | O => Some (acc, s)
  | S n' =>
    match s with
    | c :: s' =>
      match digit_of c with
      | Some d => parse_digits n' (acc * 10 + d) s'
      | None => None
      end
    | [] => None
    end
  end.

(** The last [n] decimal digits of [z], most significant first. *)
Fixpoint digits_of (n : nat) (z : Z) : list ascii :=
  match n with
  | O => []
  | S n' => digits_of n' (z / 10) ++ [ascii_of_digit (z mod 10)]
  end.

(** [d.strftime("%Y-%m-%d")]; the year is written with four digits, as it
    is for every year from 1000 on. *)
Definition strftime_ymd (d : datetime) : string :=
  let '(y, m, dd) := _ord2ymd (dt_day d) in
  string_of_list_ascii
    (digits_of 4 y ++ ["-"%char] ++ digits_of 2 m ++ ["-"%char] ++ digits_of 2 dd).

(** *** Strings

    A Python [str] is kept as the bytes of its UTF-8 encoding; case
    mapping is that of the ASCII letters. *)

Definition lower_ascii (c : ascii) : ascii :=
  let n := nat_of_ascii c in
  if (65 <=? n)%nat && (n <=? 90)%nat then ascii_of_nat (n + 32) else c.

Definition str_lower (s : string) : string :=
  string_of_list_ascii (map lower_ascii (list_ascii_of_string s)).

(** [s.replace('Z', '+00:00')] *)
Fixpoint replace_Z (s : list ascii) : list ascii :=
  match s with
  | [] => []
  | c :: s' =>
    if Ascii.eqb c "Z" then list_ascii_of_string "+00:00" ++ replace_Z s'
    else c :: replace_Z s'
  end.

(** [s.split('+')[0]] *)
Fixpoint before_plus (s : list ascii) : list ascii :=
  match s with
  | [] => []
  | c :: s' => if Ascii.eqb c "+" then [] else c :: before_plus s'
  end.

(** *** [datetime.fromisoformat], after [_datetimemodule.c] of
    CPython 3.7 to 3.10:
    [YYYY-MM-DD[*HH[:MM[:SS[.fff[fff]]]][+HH:MM[:SS[.ffffff]]]]]. *)

Definition expect (c : ascii) (s : list ascii) : option (list ascii) :=
  match s with
  | c' :: s' => if Ascii.eqb c' c then Some s' else None
  | [] => None
  end.

Definition parse_isoformat_date (s : list ascii) : option (Z * Z * Z * list ascii) :=
  match parse_digits 4 0 s with
  | None => None
  | Some (year, s) =>
    match expect "-" s with
    | None => None
    | Some s =>
      match parse_digits 2 0 s with
      | None => None
      | Some (month, s) =>
        match expect "-" s with
        | None => None
        | Some s =>
          match parse_digits 2 0 s with
          | None => None
          | Some (day, s) => Some (year, month, day, s)
          end
        end
      end
    end
  end.

(** The fraction [.fff[fff]]: three or six digits filling the segment. *)
Definition parse_fraction (s : list ascii) : option Z :=
  match List.length s with
  | 3%nat => match parse_digits 3 0 s with
             | Some (us, _) => Some (us * 1000)
             | None => None
             end
  | 6%nat => match parse_digits 6 0 s with
             | Some (us, _) => Some us
             | None => None
             end
  | _ => None
  end.

(** [parse_hh_mm_ss_ff] on the segment [seg]; [more] tells whether a
    character (a UTC-offset sign) follows the segment.  The result is the
    fields read and the flag the C function returns as 1. *)
Fixpoint parse_hh_mm_ss_ff (fields : nat) (vals : list Z) (seg : list ascii)
    (more : bool) : option (list Z * Z * bool) :=
  match fields with
  | O =>
    match parse_fraction seg with
    | Some us => Some (vals, us, more)
    | None => None
    end
  | S fields' =>
    match parse_digits 2 0 seg with
    | None => None
    | Some (v, rest) =>
      let vals := vals ++ [v] in
      match rest with
      | [] => Some (vals, 0, more)
      | [c] => Some (vals, 0, negb (Ascii.eqb c zero))
      | c :: rest' =>
        if Ascii.eqb c ":" then parse_hh_mm_ss_ff fields' vals rest' more
        else if Ascii.eqb c "." then
          match parse_fraction rest' with
          | Some us => Some (vals, us, more)
          | None => None
          end
        else None
      end
    end
  end.

Definition is_sign (c : ascii) : bool := Ascii.eqb c "+" || Ascii.eqb c "-".

(** The time string split at its first sign character. *)
Fixpoint split_at_sign (s : list ascii) : list ascii * list ascii :=
  match s with
  | [] => ([], [])
  | c :: s' =>
    if is_sign c then ([], s)
    else let '(a, b) := split_at_sign s' in (c :: a, b)
  end.

(** Time fields [(hour, minute, second, microsecond)] and the UTC offset
    in microseconds, if any. *)
Definition parse_isoformat_time (s : list ascii)
    : option (Z * Z * Z * Z * option Z) :=
  let '(tseg, tz) := split_at_sign s in
  match parse_hh_mm_ss_ff 3 [] tseg (negb (Nat.eqb (List.length tz) 0)) with
  | None => None
  | Some (vals, us, rv) =>
    let hour := nth 0 vals 0 in
    let minute := nth 1 vals 0 in
    let second := nth 2 vals 0 in
    match tz with
    | [] => if rv then None else Some (hour, minute, second, us, None)
    | sign :: tzseg =>
      let tzlen := List.length tz in
      if negb (Nat.eqb tzlen 6 || Nat.eqb tzlen 9 || Nat.eqb tzlen 16) then None
      else
        match parse_hh_mm_ss_ff 3 [] tzseg false with
        | Some (tzvals, tzus, false) =>
          let tzsign := if Ascii.eqb sign "-" then -1 else 1 in
          let tzoffset := tzsign * (nth 0 tzvals 0 * 3600 + nth 1 tzvals 0 * 60
                                    + nth 2 tzvals 0) in
          Some (hour, minute, second, us,
                Some (tzoffset * US_PER_SECOND + tzsign * tzus))
        | _ => None
        end
    end
  end.

(** The constructor [datetime(year, ..., tzinfo)] with its range checks. *)
Definition new_datetime (year month day hour minute second us : Z)
    (offset : option Z) : option datetime :=
  if (1 <=? year) && (year <=? 9999) && (1 <=? month) && (month <=? 12)
     && (1 <=? day) && (day <=? _days_in_month year month)
     && (0 <=? hour) && (hour <=? 23) && (0 <=? minute) && (minute <=? 59)
     && (0 <=? second) && (second <=? 59) && (0 <=? us) && (us <=? 999999)
     && match offset with
        | Some o => (- US_PER_DAY <? o) && (o <? US_PER_DAY)
        | None => true
        end
  then Some (mkdatetime (_ymd2ord year month day)
               ((hour * 3600 + minute * 60 + second) * US_PER_SECOND + us)
               offset)
  else None.

(** The separator after the date is one character: one to four bytes. *)
Definition skip_separator (s : list ascii) : list ascii :=
  match s with
  | [] => []
  | c :: _ =>
    let b := nat_of_ascii c in
    if (b <? 128)%nat then skipn 1 s
    else if (224 <=? b)%nat && (b <? 240)%nat then skipn 3 s
    else if (240 <=? b)%nat then skipn 4 s
    else skipn 2 s
  end.

(** [None] stands for [ValueError]. *)
Definition fromisoformat (s : list ascii) : option datetime :=
  match parse_isoformat_date s with
  | None => None
  | Some (year, month, day, rest) =>
    match rest with
    | [] => new_datetime year month day 0 0 0 0 None
    | _ =>
      match parse_isoformat_time (skip_separator rest) with
      | None => None
      | Some (hour, minute, second, us, offset) =>
        new_datetime year month day hour minute second us offset
      end
    end
  end.

(** *** [datetime.strptime] for the two formats of [_parse_datetime]

    [_strptime] turns a format into a regular expression, matched
    case-insensitively at the start of the text; each directive is an
    ordered alternation, tried in order with backtracking.  A character
    class is a predicate, a pattern a list of classes, a directive a
    list of patterns. *)

Definition cclass : Type := ascii -> bool.

Definition in_range (lo hi : string) : cclass :=
  fun c =>
    match lo, hi with
    | String l EmptyString, String h EmptyString =>
      (nat_of_ascii l <=? nat_of_ascii c)%nat && (nat_of_ascii c <=? nat_of_ascii h)%nat
    | _, _ => false
    end.

Definition is_char (x : string) : cclass := in_range x x.

Definition directive_Y : list (list cclass) :=
  [ [in_range "0" "9"; in_range "0" "9"; in_range "0" "9"; in_range "0" "9"] ].
Definition directive_m : list (list cclass) :=
  [ [is_char "1"; in_range "0" "2"]; [is_char "0"; in_range "1" "9"]; [in_range "1" "9"] ].
Definition directive_d : list (list cclass) :=
  [ [is_char "3"; in_range "0" "1"]; [in_range "1" "2"; in_range "0" "9"];
    [is_char "0"; in_range "1" "9"]; [in_range "1" "9"]; [is_char " "; in_range "1" "9"] ].
Definition directive_H : list (list cclass) :=
  [ [is_char "2"; in_range "0" "3"]; [in_range "0" "1"; in_range "0" "9"]; [in_range "0" "9"] ].
Definition directive_M : list (list cclass) :=
  [ [in_range "0" "5"; in_range "0" "9"]; [in_range "0" "9"] ].
Definition directive_S : list (list cclass) :=
  [ [is_char "6"; in_range "0" "1"]; [in_range "0" "5"; in_range "0" "9"]; [in_range "0" "9"] ].

(** One element of a format: a directive or a literal character. *)
Inductive fmt_item : Type :=
| Directive (alts : list (list cclass))
| Literal (c : ascii).

Fixpoint match_pattern (p : list cclass) (acc : Z) (s : list ascii)
    : option (Z * list ascii) :=
  match p with
  | [] => Some (acc, s)
  | cl :: p' =>
    match s with
    | c :: s' =>
      if cl c then
        match_pattern p'
          (match digit_of c with Some d => acc * 10 + d | None => acc end) s'
      else None
    | [] => None
    end
  end.

(** The first way, in the order of the alternations, to match the whole
    format at the start of [s]: the directive values and the text left. *)
Fixpoint match_format (f : list fmt_item) (s : list ascii)
    : option (list Z * list ascii) :=
  match f with
  | [] => Some ([], s)
  | Literal c :: f' =>
    match s with
    | c' :: s' =>
      if Ascii.eqb (lower_ascii c') (lower_ascii c) then match_format f' s' else None
    | [] => None
    end
  | Directive alts :: f' =>
    (fix try (alts : list (list cclass)) : option (list Z * list ascii) :=
       match alts with
       | [] => None
       | p :: alts' =>
         match match_pattern p 0 s with
         | Some (v, s') =>
           match match_format f' s' with
           | Some (vs, rest) => Some (v :: vs, rest)
           | None => try alts'
           end
         | None => try alts'
         end
       end) alts
  end.

(** ['%Y-%m-%dT%H:%M:%S'] *)
Definition FORMAT_DATETIME : list fmt_item :=
  [ Directive directive_Y; Literal "-"; Directive directive_m; Literal "-";
    Directive directive_d; Literal "T"; Directive directive_H; Literal ":";
    Directive directive_M; Literal ":"; Directive directive_S ].

(** ['%Y-%m-%d'] *)
Definition FORMAT_DATE : list fmt_item :=
  [ Directive directive_Y; Literal "-"; Directive directive_m; Literal "-";
    Directive directive_d ].

(** [datetime.strptime(s, fmt)]; [None] stands for [ValueError] (no match,
    unconverted data, or a field out of range). *)
Definition strptime (s : list ascii) (fmt : list fmt_item) : option datetime :=
  match match_format fmt s with
  | Some (vals, []) =>
    new_datetime (nth 0 vals 0) (nth 1 vals 0) (nth 2 vals 0)
                 (nth 3 vals 0) (nth 4 vals 0) (nth 5 vals 0) 0 None
  | _ => None
  end.

(** ** Python values: the records of the input lists *)

Set Warnings "-register-all".

Inductive value : Type :=
| VNone
| VBool (b : bool)
| VInt (n : Z)
| VFloat (q : Q)
| VStr (s : string)
| VList (l : list value)
| VDict (d : list (string * value))
| VDatetime (d : datetime).

(** Truth value of an object in a condition. *)
Definition truthy (v : value) : bool :=
  match v with
  | VNone => false
  | VBool b => b
  | VInt n => negb (n =? 0)
  | VFloat q => negb (Qeq_bool q 0)
  | VStr s => negb (String.eqb s "")
  | VList l => match l with [] => false | _ => true end
  | VDict d => match d with [] => false | _ => true end
  | VDatetime _ => true
  end.

(** [v.get(key)] and [v.get(key, default)]: only a dict has [get]. *)
Definition py_get (v : value) (key : string) (default : value) : res value :=
  match v with
  | VDict d => Ok (match dict_get d key with Some x => x | None => default end)
  | _ => Raise AttributeError
  end.

(** [v.lower()]: only a str has [lower]. *)
Definition py_lower (v : value) : res string :=
  match v with
  | VStr s => Ok (str_lower s)
  | _ => Raise AttributeError
  end.

(** The clock: what [datetime.now()] returns, a naive local time. *)
Record clock : Type := mkclock { clock_day : Z; clock_us : Z }.

Definition datetime_now (now : clock) : datetime :=
  mkdatetime (clock_day now) (clock_us now) None.

(** ** metrics.py and trends.py: [_parse_datetime] (the same in both) *)

Definition _parse_datetime (now : clock) (date_str : value) : res datetime :=
  match date_str with
  | VDatetime d => Ok d
  | VStr s =>
    let date_str := replace_Z (list_ascii_of_string s) in
    match fromisoformat date_str with
    | Some d => Ok d
    | None =>
      match strptime (before_plus date_str) FORMAT_DATETIME with
      | Some d => Ok d
      | None =>
        match strptime (before_plus date_str) FORMAT_DATE with
        | Some d => Ok d
        | None => Ok (datetime_now now)
        end
      end
    end
  | _ => Raise AttributeError
  end.

(** ** metrics.py *)

(** The value bound to [date] after the shape tests on one commit. *)
Definition commit_date (commit : value) : res value :=
  match commit with
  | VDict c =>
    match dict_get c "commit" with
    | Some (VDict inner) =>
      author_info <- py_get (VDict inner) "author" (VDict []) ;;
      py_get author_info "date" VNone
    | _ =>
      match dict_get c "date" with
      | Some d => Ok d
      | None =>
        match dict_get c "created_at" with
        | Some d => Ok d
        | None => Ok VNone
        end
      end
    end
  | _ => Ok VNone
  end.

(** A loop [for a in l: ... result.append(b)] whose body may raise, skip
    the element, or append one value. *)
Fixpoint collect {A B : Type} (body : A -> res (option B)) (l : list A)
    : res (list B) :=
  match l with
  | [] => Ok []
  | a :: rest =>
    r <- body a ;;
    rs <- collect body rest ;;
    Ok (match r with Some b => b :: rs | None => rs end)
  end.

(** One turn of the loop that collects [dates]. *)
Definition commit_datetime (now : clock) (commit : value) : res (option datetime) :=
  date <- commit_date commit ;;
  if truthy date then
    d <- _parse_datetime now date ;;
    Ok (Some d)
  else Ok None.

Definition commit_dates (now : clock) (commits : list value) : res (list datetime) :=
  collect (commit_datetime now) commits.

(** [list.sort()]: a stable sort that uses only [<]; written as insertion
    sort, the comparisons in the [res] monad. *)
Fixpoint insert_by {A : Type} (lt : A -> A -> res bool) (x : A) (l : list A)
    : res (list A) :=
  match l with
  | [] => Ok [x]
  | y :: l' =>
    b <- lt y x ;;
    if b then
      r <- insert_by lt x l' ;;
      Ok (y :: r)
    else Ok (x :: l)
  end.

Fixpoint sort_by {A : Type} (lt : A -> A -> res bool) (l : list A) : res (list A) :=
  match l with
  | [] => Ok []
  | x :: l' =>
    s <- sort_by lt l' ;;
    insert_by lt x s
  end.

Definition sort_datetimes : list datetime -> res (list datetime) :=
  sort_by datetime_lt.

Record commit_frequency_result : Type := mk_commit_frequency {
  cf_raw : Q;
  cf_score : Q;
  cf_total_commits : Z;
  cf_time_span_days : option Z
}.

Definition len {A : Type} (l : list A) : Z := Z.of_nat (List.length l).

Definition compute_commit_frequency (now : clock) (commits : list value)
    : res commit_frequency_result :=
  match commits with
  | [] => Ok (mk_commit_frequency 0 0 0 None)
  | _ =>
    dates <- commit_dates now commits ;;
    if len dates <? 2 then
      Ok (mk_commit_frequency 1 25 (len commits) None)
    else
      dates <- sort_datetimes dates ;;
      let first := hd (datetime_now now) dates in
      let last := List.last dates (datetime_now now) in
      delta <- datetime_sub last first ;;
      let time_span := timedelta_days delta in
      let time_span := if time_span =? 0 then 1 else time_span in
      let frequency := (inject_Z (len commits) / inject_Z time_span)%Q in
      let min_freq := 0%Q in
      let max_freq := 5%Q in
      let score := _normalize_score frequency min_freq max_freq false in
      Ok (mk_commit_frequency (py_round frequency 4) score (len commits)
            (Some time_span))
  end.

Record issue_resolution_result : Type := mk_issue_resolution {
  ir_raw : Q;
  ir_score : Q;
  ir_resolved_count : Z;
  ir_total_issues : Z
}.

(** One turn of the loop over [issues]: the resolution time in days to
    append, if any. *)
Definition issue_resolution_days (now : clock) (issue : value) : res (option (datetime * Q)) :=
  match issue with
  | VDict _ =>
    state_v <- py_get issue "state" (VStr "") ;;
    state <- py_lower state_v ;;
    if negb (String.eqb state "closed") then Ok None
    else
      created_at <- py_get issue "created_at" VNone ;;
      closed_at <- py_get issue "closed_at" VNone ;;
      if truthy created_at && truthy closed_at then
        created <- _parse_datetime now created_at ;;
        closed <- _parse_datetime now closed_at ;;
        delta <- datetime_sub closed created ;;
        Ok (Some (closed, (timedelta_total_seconds delta / inject_Z (24 * 3600))%Q))
      else Ok None
  | _ => Ok None
  end.

Definition resolution_time (now : clock) (issue : value) : res (option Q) :=
  r <- issue_resolution_days now issue ;;
  Ok (match r with
      | Some (_, resolution_days) => Some (py_max 0 resolution_days)
      | None => None
      end).

Definition resolution_times (now : clock) (issues : list value) : res (list Q) :=
  collect (resolution_time now) issues.


Definition compute_issue_resolution (now : clock) (issues : list value)
    : res issue_resolution_result :=
  match issues with
  | [] => Ok (mk_issue_resolution 0 50 0 0)
  | _ =>
    times <- resolution_times now issues ;;
    match times with
    | [] => Ok (mk_issue_resolution 0 50 0 (len issues))
    | _ =>
      let avg_resolution := (Qsum times / inject_Z (len times))%Q in
      let min_days := 0%Q in
      let max_days := 30%Q in
      let score := _normalize_score avg_resolution min_days max_days true in
      Ok (mk_issue_resolution (py_round avg_resolution 2) score
            (len times) (len issues))
    end
  end.

Record pr_rejection_result : Type := mk_pr_rejection {
  pr_raw : Q;
  pr_score : Q;
  pr_rejected : Z;
  pr_merged : Z;
  pr_open : option Z;
  pr_total : Z
}.

Inductive pr_class : Type := PrOpen | PrMerged | PrRejected | PrOther.

(** One turn of the loop over [prs]. *)
Definition classify_pr (pr : value) : res pr_class :=
  match pr with
  | VDict _ =>
    state_v <- py_get pr "state" (VStr "") ;;
    state <- py_lower state_v ;;
    merged_flag <- py_get pr "merged" (VBool false) ;;
    merged_at <- py_get pr "merged_at" VNone ;;
    let merged := truthy merged_flag
                  || match merged_at with VNone => false | _ => true end in
    if String.eqb state "open" then Ok PrOpen
    else if merged then Ok PrMerged
    else if String.eqb state "closed" then Ok PrRejected
    else Ok PrOther
  | _ => Ok PrOther
  end.

(** The counters [(merged_count, rejected_count, open_count)]. *)
Fixpoint count_prs (prs : list value) (acc : Z * Z * Z) : res (Z * Z * Z) :=
  match prs with
  | [] => Ok acc
  | pr :: rest =>
    c <- classify_pr pr ;;
    let '(merged_count, rejected_count, open_count) := acc in
    count_prs rest
      match c with
      | PrOpen => (merged_count, rejected_count, open_count + 1)
      | PrMerged => (merged_count + 1, rejected_count, open_count)
      | PrRejected => (merged_count, rejected_count + 1, open_count)
      | PrOther => acc
      end
  end.

Definition compute_pr_rejection (prs : list value) : res pr_rejection_result :=
  match prs with
  | [] => Ok (mk_pr_rejection 0 50 0 0 None 0)
  | _ =>
    counts <- count_prs prs (0, 0, 0) ;;
    let '(merged_count, rejected_count, open_count) := counts in
    let total_closed := merged_count + rejected_count in
    if total_closed =? 0 then
      Ok (mk_pr_rejection 0 50 0 0 (Some open_count) (len prs))
    else
      let rejection_rate := (inject_Z rejected_count / inject_Z total_closed)%Q in
      let min_rate := 0%Q in
      let max_rate := 0.5%Q in
      let score := _normalize_score rejection_rate min_rate max_rate true in
      Ok (mk_pr_rejection (py_round rejection_rate 4) score rejected_count
            merged_count (Some open_count) (len prs))
  end.

(** *** Regular expressions of [re], as far as [test_patterns] uses them

    Matching is by derivatives.  [Dot] is any character but a newline;
    [Eol] is [$]: the end of the text, or just before a final newline.
    Under [re.IGNORECASE] a literal matches both cases of a letter. *)

Inductive regex : Type :=
| Empty
| Eps
| Chr (c : ascii)
| Cls (cs : list ascii)
| Dot
| Eol
| Seq (r1 r2 : regex)
| Alt (r1 r2 : regex)
| Star (r : regex).

Definition Opt (r : regex) : regex := Alt r Eps.

(** A literal text. *)
Fixpoint Lit (s : string) : regex :=
  match s with
  | EmptyString => Eps
  | String c s' => Seq (Chr c) (Lit s')
  end.

Definition newline : ascii := ascii_of_nat 10.

Definition at_eol (rest : list ascii) : bool :=
  match rest with
  | [] => true
  | [c] => Ascii.eqb c newline
  | _ => false
  end.

(** Does [r] match the empty text in front of [rest]? *)
Fixpoint nullable (r : regex) (rest : list ascii) : bool :=
  match r with
  | Empty => false
  | Eps => true
  | Chr _ => false
  | Cls _ => false
  | Dot => false
  | Eol => at_eol rest
  | Seq r1 r2 => nullable r1 rest && nullable r2 rest
  | Alt r1 r2 => nullable r1 rest || nullable r2 rest
  | Star _ => true
  end.

Definition same_letter (a b : ascii) : bool :=
  Ascii.eqb (lower_ascii a) (lower_ascii b).

(** What is left of [r] after it has read [c], the text continuing with [rest]. *)
Fixpoint deriv (r : regex) (c : ascii) (rest : list ascii) : regex :=
  match r with
  | Empty => Empty
  | Eps => Empty
  | Chr a => if same_letter a c then Eps else Empty
  | Cls cs => if existsb (fun a => same_letter a c) cs then Eps else Empty
  | Dot => if Ascii.eqb c newline then Empty else Eps
  | Eol => Empty
  | Seq r1 r2 =>
    if nullable r1 (c :: rest)
    then Alt (Seq (deriv r1 c rest) r2) (deriv r2 c rest)
    else Seq (deriv r1 c rest) r2
  | Alt r1 r2 => Alt (deriv r1 c rest) (deriv r2 c rest)
  | Star r1 => Seq (deriv r1 c rest) (Star r1)
  end.

(** [re.match]: does [r] match some prefix of [s]? *)
Fixpoint re_match (r : regex) (s : list ascii) : bool :=
  nullable r s ||
  match s with
  | [] => false
  | c :: s' => re_match (deriv r c s') s'
  end.

(** [re.search]: does [r] match at some position of [s]? *)
Fixpoint re_search (r : regex) (s : list ascii) : bool :=
  re_match r s ||
  match s with
  | [] => false
  | _ :: s' => re_search r s'
  end.

Definition any : regex := Star Dot.
Definition jt_sx : regex := Seq (Cls ["j"; "t"]%char) (Seq (Chr "s") (Opt (Chr "x"))).

Definition test_patterns : list regex :=
  [ Seq (Lit "test_") (Seq any (Seq (Lit ".py") Eol));
    Seq any (Seq (Lit "_test.py") Eol);
    Seq any (Seq (Lit "_spec.py") Eol);
    Seq any (Seq (Lit ".test.") (Seq jt_sx Eol));
    Seq any (Seq (Lit ".spec.") (Seq jt_sx Eol));
    Seq (Lit "test") (Seq (Opt (Chr "s")) (Seq (Chr "/") any));
    Seq (Lit "__tests__/") any;
    Seq any (Seq (Lit "Test.") (Seq (Alt (Lit "java") (Lit "kt")) Eol));
    Seq any (Seq (Lit "_test.go") Eol);
    Seq any (Seq (Lit "_test.rb") Eol);
    Seq any (Seq (Lit "_spec.rb") Eol) ].

(** ['|'.join(f'({p})' for p in test_patterns)] *)
Definition combined_pattern : regex := fold_right Alt Empty test_patterns.

Definition code_extensions : list string :=
  [ ".py"; ".js"; ".ts"; ".jsx"; ".tsx"; ".java"; ".kt"; ".go";
    ".rb"; ".rs"; ".c"; ".cpp"; ".h"; ".hpp"; ".cs"; ".php";
    ".swift"; ".scala"; ".clj"; ".ex"; ".exs"; ".vue"; ".svelte" ]%string.

Fixpoint is_prefix (p s : list ascii) : bool :=
  match p, s with
  | [], _ => true
  | a :: p', b :: s' => Ascii.eqb a b && is_prefix p' s'
  | _ :: _, [] => false
  end.

(** [s.endswith(suffix)] *)
Definition endswith (s suffix : string) : bool :=
  is_prefix (rev (list_ascii_of_string suffix)) (rev (list_ascii_of_string s)).

Definition has_code_extension (file_path : string) : bool :=
  existsb (fun ext => endswith (str_lower file_path) ext) code_extensions.

Definition is_test_file (file_path : string) : bool :=
  re_search combined_pattern (list_ascii_of_string file_path).

(** An entry of [files]: a path, or a record with a [path] or [name]. *)
Inductive file_entry : Type :=
| FPath (s : string)
| FDict (d : list (string * value)).

(** The path of an entry: [None] when the entry is skipped as falsy. *)
Definition entry_path (file_entry : file_entry) : res (option string) :=
  match file_entry with
  | FPath s => Ok (if String.eqb s "" then None else Some s)
  | FDict d =>
    let file_path :=
      match dict_get d "path" with
      | Some p => p
      | None => match dict_get d "name" with Some n => n | None => VStr "" end
      end in
    if truthy file_path then
      match file_path with
      | VStr s => Ok (Some s)
      | _ => Raise AttributeError
      end
    else Ok None
  end.

(** The counters [(test_file_count, total_file_count)]. *)
Fixpoint count_files (files : list file_entry) (acc : Z * Z) : res (Z * Z) :=
  match files with
  | [] => Ok acc
  | file_entry :: rest =>
    p <- entry_path file_entry ;;
    let '(test_file_count, total_file_count) := acc in
    count_files rest
      match p with
      | Some file_path =>
        if has_code_extension file_path then
          (if is_test_file file_path then test_file_count + 1 else test_file_count,
           total_file_count + 1)
        else acc
      | None => acc
      end
  end.

Record test_ratio_result : Type := mk_test_ratio {
  tr_raw : Q;
  tr_score : Q;
  tr_test_files : Z;
  tr_total_files : Z
}.

Definition compute_test_ratio (files : list file_entry) : res test_ratio_result :=
  match files with
  | [] => Ok (mk_test_ratio 0 0 0 0)
  | _ =>
    counts <- count_files files (0, 0) ;;
    let '(test_file_count, total_file_count) := counts in
    if total_file_count =? 0 then Ok (mk_test_ratio 0 0 0 0)
    else
      let test_ratio := (inject_Z test_file_count / inject_Z total_file_count)%Q in
      let min_ratio := 0%Q in
      let max_ratio := 0.3%Q in
      let score := _normalize_score test_ratio min_ratio max_ratio false in
      Ok (mk_test_ratio (py_round test_ratio 4) score test_file_count
            total_file_count)
  end.

(** ** trends.py *)

(** The running averages [cumsum / (i + 1)]. *)
Fixpoint cumulative_average (values : list Q) (cumsum : Q) (i : Z) : list Q :=
  match values with
  | [] => []
  | val :: rest =>
    let cumsum := (cumsum + val)%Q in
    (cumsum / inject_Z (i + 1))%Q :: cumulative_average rest cumsum (i + 1)
  end.

(** The sliding loop: [leaving] are the values from index 0 on,
    [entering] those from index [window] on. *)
Fixpoint sliding_average (leaving entering : list Q) (window_sum : Q) (window : Z)
    : list Q :=
  match leaving, entering with
  | old :: leaving', new :: entering' =>
    let window_sum := (window_sum - old + new)%Q in
    (window_sum / inject_Z window)%Q
      :: sliding_average leaving' entering' window_sum window
  | _, _ => []
  end.

Definition _calculate_moving_average (values : list Q) (window : Z) : list Q :=
  match values with
  | [] => []
  | _ =>
    if window <=? 0 then []
    else if len values <? window then cumulative_average values 0 0
    else
      let w := Z.to_nat window in
      let window_sum := Qsum (firstn w values) in
      let result := (window_sum / inject_Z window)%Q
                    :: sliding_average values (skipn w values) window_sum window in
      let prefix :=
        cumulative_average
          (firstn (Z.to_nat (Z.min (window - 1) (len values))) values) 0 0 in
      prefix ++ result
  end.

Record regression : Type := mk_regression {
  slope : Q;
  intercept : Q;
  r_squared : Q
}.

Definition Qsq (x : Q) : Q := (x * x)%Q.

Definition _calculate_linear_regression (x y : list Q) : regression :=
  let n := len x in
  if n <? 2 then mk_regression 0 0 0
  else
    let mean_x := (Qsum x / inject_Z n)%Q in
    let mean_y := (Qsum y / inject_Z n)%Q in
    let ss_xx := Qsum (map (fun xi => Qsq (xi - mean_x)) x) in
    let ss_yy := Qsum (map (fun yi => Qsq (yi - mean_y)) y) in
    let ss_xy := Qsum (map (fun '(xi, yi) => ((xi - mean_x) * (yi - mean_y))%Q)
                           (combine x y)) in
    let '(slope, intercept) :=
      if Qeq_bool ss_xx 0 then (0%Q, mean_y)
      else let slope := (ss_xy / ss_xx)%Q in
           (slope, (mean_y - slope * mean_x)%Q) in
    let r_squared :=
      if Qeq_bool ss_yy 0 then (if Qeq_bool ss_xy 0 then 1%Q else 0%Q)
      else if Qltb 0 ss_xx then (Qsq ss_xy / (ss_xx * ss_yy))%Q else 0%Q in
    mk_regression (py_round slope 6) (py_round intercept 4) (py_round r_squared 4).

Definition _get_trend_direction (slope threshold : Q) : string :=
  if Qltb threshold slope then "artan"
  else if Qltb slope (- threshold) then "azalan"
  else "sabit".

Definition _get_trend_strength (r_squared : Q) : string :=
  if Qle_bool 0.7 r_squared then "güçlü"
  else if Qle_bool 0.4 r_squared then "orta"
  else if Qle_bool 0.2 r_squared then "zayıf"
  else "belirsiz".

(** An entry of [moving_average]: a bare number in the short result, a
    dated point otherwise. *)
Inductive ma_entry : Type :=
| MaValue (v : Q)
| MaPoint (date : string) (ma : option Q).

(** The [summary] text: a fixed sentence, or an f-string kept as the
    values it interpolates, each rounded as its format displays it. *)
Inductive summary : Type :=
| SummaryText (s : string)
| SummaryCommits (avg_commits : Q) (trend_strength direction_text : string)
    (slope r_squared : Q)
| SummaryIssues (avg_resolution : Q) (trend_strength direction_text : string)
    (min_resolution max_resolution : Q).

Record commit_trend_result : Type := mk_commit_trend {
  ct_time_series : list (string * Z);
  ct_moving_average : list ma_entry;
  ct_daily_values : option (list Z);
  ct_ma7_values : option (list Q);
  ct_regression : regression;
  ct_trend_direction : string;
  ct_trend_strength : string;
  ct_average_daily_commits : option Q;
  ct_total_days : option Z;
  ct_summary : summary
}.

(** [daily_counts[day_key] += 1] on a [defaultdict(int)]. *)
Fixpoint dict_incr (d : dict Z) (k : string) : dict Z :=
  match d with
  | [] => [(k, 1)]
  | (k', n) :: d' =>
    if String.eqb k' k then (k', n + 1) :: d' else (k', n) :: dict_incr d' k
  end.

Definition count_days (dates : list datetime) : dict Z :=
  fold_left (fun daily_counts date => dict_incr daily_counts (strftime_ymd date))
            dates [].

(** [min(dates)] and [max(dates)]: the first extremal element. *)
Fixpoint best_by {A : Type} (better : A -> A -> res bool) (best : A) (l : list A)
    : res A :=
  match l with
  | [] => Ok best
  | x :: l' =>
    b <- better x best ;;
    best_by better (if b then x else best) l'
  end.

Definition min_datetime (default : datetime) (dates : list datetime) : res datetime :=
  match dates with
  | [] => Ok default
  | d :: rest => best_by datetime_lt d rest
  end.

Definition max_datetime (default : datetime) (dates : list datetime) : res datetime :=
  match dates with
  | [] => Ok default
  | d :: rest => best_by (fun x best => datetime_lt best x) d rest
  end.

Definition date_of_ordinal (n : Z) : datetime := mkdatetime n 0 None.

(** The [while current_date <= end_date] loop; [fuel] bounds its turns.
    Stepping past the last representable day raises [OverflowError]. *)
Fixpoint fill_days (fuel : nat) (daily_counts : dict Z) (current_date end_date : Z)
    : res (list (string * Z)) :=
  match fuel with
  | O => Ok []
  | S fuel' =>
    if current_date <=? end_date then
      let day_key := strftime_ymd (date_of_ordinal current_date) in
      let count := match dict_get daily_counts day_key with
                   | Some n => n
                   | None => 0
                   end in
      if current_date =? MAXORDINAL then Raise OverflowError
      else
        rest <- fill_days fuel' daily_counts (current_date + 1) end_date ;;
        Ok ((day_key, count) :: rest)
    else Ok []
  end.

Definition no_regression : regression := mk_regression 0 0 0.

Definition direction_text_commits (trend_direction : string) : string :=
  if String.eqb trend_direction "artan" then "artış gösteriyor"
  else if String.eqb trend_direction "azalan" then "düşüş gösteriyor"
  else "sabit seyrediyor".

Definition index_list {A : Type} (l : list A) : list (nat * A) :=
  combine (seq 0 (List.length l)) l.

Definition compute_commit_trend (now : clock) (commits : list value)
    : res commit_trend_result :=
  match commits with
  | [] =>
    Ok (mk_commit_trend [] [] None None no_regression "sabit" "belirsiz"
          None None (SummaryText "Yeterli commit verisi yok."))
  | _ =>
    dates <- commit_dates now commits ;;
    if len dates <? 2 then
      Ok (mk_commit_trend
            (match dates with d :: _ => [(strftime_ymd d, 1)] | [] => [] end)
            (match dates with _ :: _ => [MaValue 1] | [] => [] end)
            None None no_regression "sabit" "belirsiz" None None
            (SummaryText "Trend analizi için yeterli veri yok."))
    else
      dates <- sort_datetimes dates ;;
      let daily_counts := count_days dates in
      first <- min_datetime (datetime_now now) dates ;;
      last <- max_datetime (datetime_now now) dates ;;
      let start_date := dt_day first in
      let end_date := dt_day last in
      time_series <- fill_days (Z.to_nat (end_date - start_date + 1))
                       daily_counts start_date end_date ;;
      let values := map snd time_series in
      let qvalues := map inject_Z values in
      let ma7 := _calculate_moving_average qvalues 7 in
      let x := map (fun i => inject_Z (Z.of_nat i)) (seq 0 (List.length values)) in
      let regression := _calculate_linear_regression x qvalues in
      let trend_direction := _get_trend_direction (slope regression) 0.01 in
      let trend_strength := _get_trend_strength (r_squared regression) in
      let avg_commits := match values with
                         | [] => 0%Q
                         | _ => (Qsum qvalues / inject_Z (len values))%Q
                         end in
      let summary :=
        SummaryCommits (py_round avg_commits 1) trend_strength
          (direction_text_commits trend_direction)
          (py_round (slope regression) 4) (py_round (r_squared regression) 2) in
      let ma7_series :=
        map (fun '(i, entry) =>
               MaPoint (fst entry)
                 (match nth_error ma7 i with
                  | Some v => Some (py_round v 2)
                  | None => None
                  end))
            (index_list time_series) in
      Ok (mk_commit_trend time_series ma7_series (Some values)
            (Some (map (fun v => py_round v 2) ma7)) regression
            trend_direction trend_strength (Some (py_round avg_commits 2))
            (Some (len time_series)) summary)
  end.

Record resolved_issue : Type := mk_resolved {
  closed_date : datetime;
  resolution_days : Q;
  resolution_hours : Q
}.

(** An entry of [resolution_series]: the collected record itself in the
    short result, a dated point otherwise. *)
Inductive series_entry : Type :=
| RawIssue (r : resolved_issue)
| SeriesPoint (date : string) (days hours : Q).

Record issue_statistics : Type := mk_statistics {
  average_days : Q;
  min_days : Q;
  max_days : Q;
  total_resolved : Z
}.

Record issue_trend_result : Type := mk_issue_trend {
  it_resolution_series : list series_entry;
  it_moving_average : list ma_entry;
  it_resolution_values : option (list Q);
  it_ma_values : option (list Q);
  it_regression : regression;
  it_trend_direction : string;
  it_trend_strength : string;
  it_statistics : option issue_statistics;
  it_summary : summary
}.

(** One turn of the loop over [issues]. *)
Definition resolved_issue_of (now : clock) (issue : value) : res (option resolved_issue) :=
  match issue with
  | VDict _ =>
    state_v <- py_get issue "state" (VStr "") ;;
    state <- py_lower state_v ;;
    if negb (String.eqb state "closed") then Ok None
    else
      created_at <- py_get issue "created_at" VNone ;;
      closed_at <- py_get issue "closed_at" VNone ;;
      if truthy created_at && truthy closed_at then
        created <- _parse_datetime now created_at ;;
        closed <- _parse_datetime now closed_at ;;
        delta <- datetime_sub closed created ;;
        let resolution_hours := (timedelta_total_seconds delta / 3600)%Q in
        let resolution_days := (resolution_hours / 24)%Q in
        Ok (Some (mk_resolved closed (py_max 0 resolution_days)
                    (py_max 0 resolution_hours)))
      else Ok None
  | _ => Ok None
  end.

Definition resolved_issues_of (now : clock) (issues : list value)
    : res (list resolved_issue) :=
  collect (resolved_issue_of now) issues.

(** [min(values)] and [max(values)] of a non-empty list of numbers. *)
Definition Qlist_min (values : list Q) : Q :=
  match values with
  | [] => 0%Q
  | v :: rest => fold_left (fun best x => if Qltb x best then x else best) rest v
  end.

Definition Qlist_max (values : list Q) : Q :=
  match values with
  | [] => 0%Q
  | v :: rest => fold_left (fun best x => if Qltb best x then x else best) rest v
  end.

Definition direction_text_issues (trend_direction : string) : string :=
  if String.eqb trend_direction "iyileşiyor" then "azalma eğiliminde (iyileşiyor)"
  else if String.eqb trend_direction "kötüleşiyor" then "artma eğiliminde (kötüleşiyor)"
  else "sabit seyrediyor".

Definition compute_issue_trend (now : clock) (issues : list value)
    : res issue_trend_result :=
  match issues with
  | [] =>
    Ok (mk_issue_trend [] [] None None no_regression "sabit" "belirsiz" None
          (SummaryText "Yeterli issue verisi yok."))
  | _ =>
    resolved_issues <- resolved_issues_of now issues ;;
    if len resolved_issues <? 2 then
      Ok (mk_issue_trend (map RawIssue resolved_issues) [] None None
            no_regression "sabit" "belirsiz" None
            (SummaryText "Trend analizi için yeterli çözülmüş issue yok."))
    else
      resolved_issues <-
        sort_by (fun a b => datetime_lt (closed_date a) (closed_date b))
                resolved_issues ;;
      let resolution_series :=
        map (fun issue =>
               SeriesPoint (strftime_ymd (closed_date issue))
                 (py_round (resolution_days issue) 2)
                 (py_round (resolution_hours issue) 1))
            resolved_issues in
      let values := map resolution_days resolved_issues in
      let window := Z.min 7 (len values) in
      let ma := _calculate_moving_average values window in
      let x := map (fun i => inject_Z (Z.of_nat i)) (seq 0 (List.length values)) in
      let regression := _calculate_linear_regression x values in
      let slope := slope regression in
      let trend_direction :=
        if Qltb slope (-0.01) then "iyileşiyor"%string
        else if Qltb 0.01 slope then "kötüleşiyor"%string
        else "sabit"%string in
      let trend_strength := _get_trend_strength (r_squared regression) in
      let avg_resolution := match values with
                            | [] => 0%Q
                            | _ => (Qsum values / inject_Z (len values))%Q
                            end in
      let min_resolution := Qlist_min values in
      let max_resolution := Qlist_max values in
      let summary :=
        SummaryIssues (py_round avg_resolution 1) trend_strength
          (direction_text_issues trend_direction)
          (py_round min_resolution 1) (py_round max_resolution 1) in
      let ma_series :=
        map (fun '(i, entry) =>
               MaPoint (match entry with
                        | SeriesPoint date _ _ => date
                        | RawIssue issue => strftime_ymd (closed_date issue)
                        end)
                 (match nth_error ma i with
                  | Some v => Some (py_round v 2)
                  | None => None
                  end))
            (index_list resolution_series) in
      Ok (mk_issue_trend resolution_series ma_series
            (Some (map (fun v => py_round v 2) values))
            (Some (map (fun v => py_round v 2) ma)) regression
            trend_direction trend_strength
            (Some (mk_statistics (py_round avg_resolution 2)
                     (py_round min_resolution 2) (py_round max_resolution 2)
                     (len resolved_issues)))
            summary)
  end.

(** ** Sample inputs *)

Definition dated (s : string) : value := VDict [("date"%string, VStr s)].

Definition closed_issue (created_at closed_at : string) : value :=
  VDict [ ("state"%string, VStr "closed");
          ("created_at"%string, VStr created_at);
          ("closed_at"%string, VStr closed_at) ].

(** A UTC timestamp next to text that is no timestamp. *)
Definition commits_utc_and_garbage : list value :=
  [ dated "2024-01-01T10:00:00Z"; dated "not-a-date" ].

(** A UTC timestamp next to a bare date. *)
Definition commits_utc_and_date : list value :=
  [ dated "2024-01-01T10:00:00Z"; dated "2024-01-05" ].

Definition commits_number_date : list value :=
  [ VDict [("date"%string, VInt 20240101)] ].

Definition commits_null_author : list value :=
  [ VDict [("commit"%string, VDict [("author"%string, VNone)])] ].

Definition issues_utc_and_date : list value :=
  [ closed_issue "2024-01-01T00:00:00Z" "2024-01-03" ].

Definition issues_null_state : list value :=
  [ VDict [("state"%string, VNone)] ].

Definition prs_null_state : list value :=
  [ VDict [("state"%string, VNone); ("merged"%string, VBool true)] ].

Definition files_number_path : list file_entry :=
  [ FDict [("path"%string, VInt 7)] ].

(** Two commits whose local dates and instants are ordered oppositely:
    23:00 UTC on 1 January, and 00:30 at UTC+5 on 2 January (19:30 UTC
    on 1 January). *)
Definition commits_two_offsets : list value :=
  [ dated "2024-01-01T23:00:00+00:00"; dated "2024-01-02T00:30:00+05:00" ].

(** ** The classification of test files in the words of the source's
    comments: file names [test_*.py], [*_test.py], [*_spec.py],
    [*.test.{js,ts,jsx,tsx}], [*.spec.{js,ts,jsx,tsx}], [*Test.{java,kt}],
    [*_test.go], [*_test.rb], [*_spec.rb], or a directory [tests/],
    [test/] or [__tests__/] on the path; letters compared without case. *)

(** The segments of a path between its slashes. *)
Fixpoint split_slash (s : list ascii) (cur : list ascii) : list (list ascii) :=
  match s with
  | [] => [rev cur]
  | c :: s' =>
    if Ascii.eqb c "/" then rev cur :: split_slash s' [] else split_slash s' (c :: cur)
  end.

Definition starts_with (s : list ascii) (p : string) : bool :=
  is_prefix (list_ascii_of_string p) s.

Definition ends_with (s : list ascii) (p : string) : bool :=
  is_prefix (rev (list_ascii_of_string p)) (rev s).

Definition named_like_test (filename : list ascii) : bool :=
  (starts_with filename "test_" && ends_with filename ".py"
     && (8 <=? List.length filename)%nat)
  || existsb (ends_with filename)
       [ "_test.py"; "_spec.py";
         ".test.js"; ".test.ts"; ".test.jsx"; ".test.tsx";
         ".spec.js"; ".spec.ts"; ".spec.jsx"; ".spec.tsx";
         "test.java"; "test.kt"; "_test.go"; "_test.rb"; "_spec.rb" ]%string.

Definition in_test_directory (directories : list (list ascii)) : bool :=
  existsb (fun d => existsb (fun n => String.eqb (string_of_list_ascii d) n)
                      [ "tests"; "test"; "__tests__" ]%string)
          directories.

Definition documented_test_file (file_path : string) : bool :=
  let segments := split_slash (map lower_ascii (list_ascii_of_string file_path)) [] in
  named_like_test (List.last segments [])
  || in_test_directory (removelast segments).

(** The sample data of [metrics.py]. *)
Definition github_commit (s : string) : value :=
  VDict [("commit"%string,
          VDict [("author"%string, VDict [("date"%string, VStr s)])])].

Definition sample_commits : list value :=
  [ github_commit "2024-01-01T10:00:00Z"; github_commit "2024-01-05T10:00:00Z";
    github_commit "2024-01-10T10:00:00Z" ].

Definition sample_issues : list value :=
  [ closed_issue "2024-01-01T10:00:00Z" "2024-01-03T10:00:00Z";
    closed_issue "2024-01-05T10:00:00Z" "2024-01-06T10:00:00Z";
    VDict [("state"%string, VStr "open"); ("created_at"%string, VStr "2024-01-10T10:00:00Z")] ].

Definition sample_prs : list value :=
  [ VDict [("state"%string, VStr "closed"); ("merged_at"%string, VStr "2024-01-02T10:00:00Z")];
    VDict [("state"%string, VStr "closed"); ("merged_at"%string, VNone)];
    VDict [("state"%string, VStr "closed"); ("merged_at"%string, VStr "2024-01-05T10:00:00Z")] ].

Definition sample_files : list file_entry :=
  [ FPath "src/main.py"; FPath "src/utils.py";
    FPath "tests/test_main.py"; FPath "tests/test_utils.py" ].

(** A clock reading: noon on 1 June 2024. *)
Definition sample_clock : clock := mkclock (_ymd2ord 2024 6 1) (12 * 3600 * US_PER_SECOND).

(** ** Ordering by a key

    [datetime_lt] is a guarded comparison of keys: it raises when the two
    values differ in awareness.  [sort_key] is the sort it yields when no
    comparison raises. *)

Definition guarded_lt {A : Type} (aw : A -> bool) (key : A -> Z) (a b : A)
    : res bool :=
  if Bool.eqb (aw a) (aw b) then Ok (key a <? key b) else Raise TypeError.

Fixpoint insert_key {A : Type} (key : A -> Z) (x : A) (l : list A) : list A :=
  match l with
  | [] => [x]
  | y :: l' => if key y <? key x then y :: insert_key key x l' else x :: l
  end.

Fixpoint sort_key {A : Type} (key : A -> Z) (l : list A) : list A :=
  match l with
  | [] => []
  | x :: l' => insert_key key x (sort_key key l')
  end.

(** All elements agree on [aw]. *)
Definition uniform {A : Type} (aw : A -> bool) (l : list A) : Prop :=
  forall a b, In a l -> In b l -> aw a = aw b.

Definition Zmin_list (l : list Z) : Z :=
  match l with
  | [] => 0
  | z :: l' => fold_right Z.min z l'
  end.

Definition Zmax_list (l : list Z) : Z :=
  match l with
  | [] => 0
  | z :: l' => fold_right Z.max z l'
  end.

(** The time span of a list of dates as [compute_commit_frequency] uses
    it: whole days between the earliest and the latest instant, one day
    at least. *)
Definition span_days (dates : list datetime) : Z :=
  let keys := map dt_key dates in
  let days := (Zmax_list keys - Zmin_list keys) / US_PER_DAY in
  if days =? 0 then 1 else days.

(** A record from which the loop of [compute_commit_frequency] takes no
    date: a non-dict, a dict without a timestamp key, a falsy timestamp. *)
Definition has_no_timestamp (commit : value) : bool :=
  match commit_date commit with
  | Ok date => negb (truthy date)
  | Raise _ => false
  end.

(** Two commits a century apart. *)
Definition commits_century : list value :=
  [ dated "1900-01-01"; dated "2000-01-01" ].

(** The main path of [compute_commit_frequency], in closed form. *)
Definition commit_frequency_of (commits : list value) (dates : list datetime)
    : commit_frequency_result :=
  let time_span := span_days dates in
  let frequency := (inject_Z (len commits) / inject_Z time_span)%Q in
  mk_commit_frequency (py_round frequency 4) (_normalize_score frequency 0 5 false)
    (len commits) (Some time_span).


(** The result of [compute_issue_resolution] for the resolution times
    collected, in closed form. *)
Definition issue_resolution_of (issues : list value) (times : list Q)
    : issue_resolution_result :=
  match times with
  | [] => mk_issue_resolution 0 50 0 (len issues)
  | _ =>
    let avg_resolution := (Qsum times / inject_Z (len times))%Q in
    mk_issue_resolution (py_round avg_resolution 2)
      (_normalize_score avg_resolution 0 30 true) (len times) (len issues)
  end.


(** ** Least squares

    The sum of squared residuals of the line [a * x + b], and the
    unrounded quantities of [_calculate_linear_regression]. *)

Definition sumf {A : Type} (f : A -> Q) (l : list A) : Q := Qsum (map f l).

Definition sse (x y : list Q) (a b : Q) : Q :=
  sumf (fun p => Qsq (snd p - (a * fst p + b))) (combine x y).

Definition mean_of (n : Z) (l : list Q) : Q := (Qsum l / inject_Z n)%Q.

Definition ss_xx_of (x : list Q) : Q :=
  Qsum (map (fun xi => Qsq (xi - mean_of (len x) x)) x).

Definition ss_yy_of (x y : list Q) : Q :=
  Qsum (map (fun yi => Qsq (yi - mean_of (len x) y)) y).

Definition ss_xy_of (x y : list Q) : Q :=
  Qsum (map (fun '(xi, yi) =>
               ((xi - mean_of (len x) x) * (yi - mean_of (len x) y))%Q)
            (combine x y)).

Definition ols_slope (x y : list Q) : Q := (ss_xy_of x y / ss_xx_of x)%Q.

Definition ols_intercept (x y : list Q) : Q :=
  (mean_of (len x) y - ols_slope x y * mean_of (len x) x)%Q.

Definition all_equal (x : list Q) : Prop :=
  forall a b, In a x -> In b x -> (a == b)%Q.

(** Three points that do not lie on a line. *)
Definition xs_three : list Q := [0; 1; 2]%Q.
Definition ys_three : list Q := [0; 0; 1]%Q.

(** ** Conditions on the collected dates *)

(** The time of day lies within the day, as for every value the
    [datetime] constructor accepts. *)
Definition wf_datetime (d : datetime) : Prop := 0 <= dt_us d < US_PER_DAY.

(** All dates carry the same UTC offset, or all are naive. *)
Definition same_offset (dates : list datetime) : Prop :=
  forall a b, In a dates -> In b dates -> dt_offset a = dt_offset b.

(** Two dates that denote the same instant fall on the same calendar
    day. *)
Definition same_instant_same_day (dates : list datetime) : Prop :=
  forall a b, In a dates -> In b dates -> dt_key a = dt_key b -> dt_day a = dt_day b.

(** The instant at which a resolved issue was closed. *)
Definition closing_instant (r : resolved_issue) : Z := dt_key (closed_date r).

(** Two issues closed at the same instant, after one and after three days. *)
Definition issue_one_day : value :=
  closed_issue "2024-01-09T00:00:00Z" "2024-01-10T00:00:00Z".
Definition issue_three_days : value :=
  closed_issue "2024-01-07T00:00:00Z" "2024-01-10T00:00:00Z".

(** The same instant written with two UTC offsets, on two calendar days,
    followed by a later commit. *)
Definition commits_same_instant : list value :=
  [ dated "2024-01-01T23:00:00+00:00"; dated "2024-01-02T01:00:00+02:00" ].
Definition commits_same_instant_swapped : list value :=
  [ dated "2024-01-02T01:00:00+02:00"; dated "2024-01-01T23:00:00+00:00" ].

(** A date and text that is no timestamp; two clock readings. *)
Definition commits_date_and_garbage : list value :=
  [ dated "2024-01-01"; dated "not-a-date" ].
Definition clock_jan_2 : clock := mkclock (_ymd2ord 2024 1 2) 0.
Definition clock_jan_11 : clock := mkclock (_ymd2ord 2024 1 11) 0.

(** ** Timestamps that do not fall back to the clock *)

(** [_parse_datetime] does not reach [datetime.now()] on [v]. *)
Definition parses (v : value) : bool :=
  match v with
  | VStr s =>
    let date_str := replace_Z (list_ascii_of_string s) in
    match fromisoformat date_str with
    | Some _ => true
    | None =>
      match strptime (before_plus date_str) FORMAT_DATETIME with
      | Some _ => true
      | None =>
        match strptime (before_plus date_str) FORMAT_DATE with
        | Some _ => true
        | None => false
        end
      end
    end
  | _ => true
  end.

Definition parses_if_used (v : value) : bool := negb (truthy v) || parses v.

Definition commit_parses (commit : value) : bool :=
  match commit_date commit with
  | Ok date => parses_if_used date
  | Raise _ => true
  end.

(** Every timestamp that is read from [issue] can be parsed: those of a
    closed issue that has both. *)
Definition issue_parses (issue : value) : bool :=
  match issue with
  | VDict d =>
    match match dict_get d "state" with Some v => v | None => VStr "" end with
    | VStr state =>
      if String.eqb (str_lower state) "closed" then
        let created_at := match dict_get d "created_at" with Some v => v | None => VNone end in
        let closed_at := match dict_get d "closed_at" with Some v => v | None => VNone end in
        if truthy created_at && truthy closed_at
        then parses created_at && parses closed_at
        else true
      else true
    | _ => true
    end
  | _ => true
  end.

(** The sample issues and an open issue whose timestamp is no date. *)
Definition issues_open_unparsed : list value :=
  sample_issues
  ++ [ VDict [("state"%string, VStr "open"); ("created_at"%string, VStr "not-a-date")] ].

(** ** The daily series in closed form *)

(** The days [lo], [lo + 1], ..., [hi]. *)
Definition zrange (lo hi : Z) : list Z :=
  map (fun i => lo + Z.of_nat i) (seq 0 (Z.to_nat (hi - lo + 1))).

(** How many of [dates] fall on the calendar day [n]. *)
Definition count_on (dates : list datetime) (n : Z) : Z :=
  len (filter (fun d => dt_day d =? n) dates).

(** The calendar day is one the [date] type can hold. *)
Definition valid_day (d : datetime) : Prop := 1 <= dt_day d <= MAXORDINAL.

Definition Zsum (l : list Z) : Z := fold_right Z.add 0 l.

(** [P] holds of [start], [start + 1], ..., for [fuel] integers. *)
Fixpoint forall_from (fuel : nat) (start : Z) (P : Z -> bool) : bool :=
  match fuel with
  | O => true
  | S fuel' => P start && forall_from fuel' (start + 1) P
  end.

(** The year of a calendar triple moved by [k] years. *)
Definition shift_year (k : Z) (ymd : Z * Z * Z) : Z * Z * Z :=
  let '(y, m, d) := ymd in (y + k, m, d).

(** A day of the first 400-year cycle converts to a date within range,
    and back to itself. *)
Definition cycle_day_ok (n : Z) : bool :=
  let '(y, m, d) := _ord2ymd n in
  (1 <=? y) && (y <=? 400) && (1 <=? m) && (m <=? 12) && (1 <=? d) && (d <=? 31)
  && (_ymd2ord y m d =? n) && ((_DI400Y - 366 <? n) || (y <=? 399)).

(** [daily_counts.get(day_key, 0)] *)
Definition dict_count (d : dict Z) (k : string) : Z :=
  match dict_get d k with
  | Some n => n
  | None => 0
  end.

(** ** scoring.py: grades *)

Definition GRADE_THRESHOLDS : list (string * Q) :=
  [ ("A+", 95); ("A", 90); ("A-", 85); ("B+", 80); ("B", 75); ("B-", 70);
    ("C+", 65); ("C", 60); ("C-", 55); ("D+", 50); ("D", 45); ("D-", 40);
    ("F", 0) ]%string%Q.

(** The scan [for grade, threshold in ....items(): if score >= threshold]. *)
Fixpoint first_grade (thresholds : list (string * Q)) (score : Q) : option string :=
  match thresholds with
  | [] => None
  | (grade, threshold) :: rest =>
    if Qle_bool threshold score then Some grade else first_grade rest score
  end.

Definition get_grade (score : Q) : string :=
  match first_grade GRADE_THRESHOLDS score with
  | Some grade => grade
  | None => "F"
  end.

(** ** scoring.py: weights *)

Definition adjust_weights (custom_weights : dict Q) : dict Q :=
  match custom_weights with
  | [] => DEFAULT_WEIGHTS
  | _ =>
    let total := Qsum (map snd custom_weights) in
    if Qeq_bool total 0 then DEFAULT_WEIGHTS
    else map (fun '(k, v) => (k, (v / total)%Q)) custom_weights
  end.

(** ** scoring.py: improvement potential *)

Definition _get_priority (score weight : Q) : string :=
  let impact := ((100 - score) * weight)%Q in
  if Qltb 15 impact then "Yüksek"
  else if Qltb 8 impact then "Orta"
  else "Düşük".

(** The three texts [low], [medium], [high] of a metric. *)
Definition recommendations (metric_name : string) : string * string * string :=
  if String.eqb metric_name "commit_frequency" then
    ("Daha sık commit yapın. Küçük, atomik commitler tercih edin.",
     "Commit sıklığı kabul edilebilir. Düzenli geliştirme sürdürün.",
     "Mükemmel commit sıklığı! Bu tempoyu koruyun.")%string
  else if String.eqb metric_name "issue_resolution" then
    ("Issue'ları daha hızlı çözün. Önceliklendirme yapın.",
     "Issue çözüm süresi kabul edilebilir. SLA tanımlayın.",
     "Harika issue yönetimi! Hızlı yanıt veriyorsunuz.")%string
  else if String.eqb metric_name "pr_rejection" then
    ("PR kalitesini artırın. Code review süreçlerini iyileştirin.",
     "PR kalitesi kabul edilebilir. Standartları belirleyin.",
     "Yüksek PR kalitesi! İyi code review pratikleri uyguluyorsunuz.")%string
  else if String.eqb metric_name "test_ratio" then
    ("Test coverage'ı artırın. Unit testler ekleyin.",
     "Test oranı kabul edilebilir. Kritik alanları test edin.",
     "Mükemmel test coverage! TDD pratiklerini sürdürün.")%string
  else
    ("Bu metriği iyileştirin.", "Kabul edilebilir seviye.",
     "Mükemmel performans!")%string.

Definition _get_recommendation (metric_name : string) (score : Q) : string :=
  let '(low, medium, high) := recommendations metric_name in
  if Qltb score 40 then low
  else if Qltb score 70 then medium
  else high.

Record improvement : Type := mk_improvement {
  current_score : Q;
  potential_gain : Q;
  priority : string;
  recommendation : string
}.

(** [d[k] = v]: the value of an existing key is replaced in place, a new
    key is appended. *)
Fixpoint dict_set {V : Type} (d : dict V) (k : string) (v : V) : dict V :=
  match d with
  | [] => [(k, v)]
  | (k', v') :: d' =>
    if String.eqb k' k then (k', v) :: d' else (k', v') :: dict_set d' k v
  end.

Definition improvement_of (weights : dict Q) (metric_name : string) (score : Q)
    : improvement :=
  let weight := match dict_get weights metric_name with
                | Some w => w
                | None => 0.25%Q
                end in
  let potential := ((100 - score) * weight)%Q in
  mk_improvement score (py_round potential 2) (_get_priority score weight)
    (_get_recommendation metric_name score).

(** The loop that fills [improvements]. *)
Definition improvements_of (weights : dict Q) (scores : dict Q) : dict improvement :=
  fold_left
    (fun improvements '(metric_name, score) =>
       dict_set improvements metric_name (improvement_of weights metric_name score))
    scores [].

(** [sorted(items, key=..., reverse=True)]: a stable sort by decreasing
    key, items of equal key keeping their order. *)
Fixpoint insert_desc {A : Type} (key : A -> Q) (x : A) (l : list A) : list A :=
  match l with
  | [] => [x]
  | y :: l' => if Qltb (key x) (key y) then y :: insert_desc key x l' else x :: l
  end.

Fixpoint sort_desc {A : Type} (key : A -> Q) (l : list A) : list A :=
  match l with
  | [] => []
  | x :: l' => insert_desc key x (sort_desc key l')
  end.

Definition calculate_improvement_potential (scores : dict Q)
    (weights : option (dict Q)) : dict improvement :=
  let weights := match weights with
                 | None => DEFAULT_WEIGHTS
                 | Some w => w
                 end in
  sort_desc (fun item => potential_gain (snd item)) (improvements_of weights scores).

(** The sample scores of [scoring.py]. *)
Definition sample_scores : dict Q :=
  [ ("commit_frequency", 75); ("issue_resolution", 60); ("pr_rejection", 85);
    ("test_ratio", 45) ]%string%Q.

(** The dates collected from [sample_commits]. *)
Definition sample_dates : list datetime :=
  Eval vm_compute in
    match commit_dates sample_clock sample_commits with
    | Ok dates => dates
    | Raise _ => []
    end.

(** A commit dated without a UTC offset between two dated with one. *)
Definition commits_naive_and_aware : list value :=
  [ dated "2024-01-01T10:00:00Z"; dated "2024-01-02T10:00:00";
    dated "2024-01-03T10:00:00Z" ].

Definition dates_naive_and_aware : list datetime :=
  Eval vm_compute in
    match commit_dates sample_clock commits_naive_and_aware with
    | Ok dates => dates
    | Raise _ => []
    end.

(** The values of the window that ends at index [i]: the [window] values
    up to [values[i]], or all values up to it when there are fewer. *)
Definition trailing_window (values : list Q) (window i : nat) : list Q :=
  let start := (S i - window)%nat in
  firstn (S i - start) (skipn start values).


(** ** Records whose [state] can be lower-cased *)


(** ** trends.py: the health indicator *)

Record health_indicator : Type := mk_health {
  hi_score : Z;
  hi_status : string;
  hi_emoji : string;
  hi_commit_trend : string;
  hi_issue_trend : string
}.

(** The two arguments are results of [compute_commit_trend] and
    [compute_issue_trend]; every such result carries [trend_direction]
    and [trend_strength], so the defaults of [.get] are never taken. *)
Definition _calculate_health_indicator (commit_trend : commit_trend_result)
    (issue_trend : issue_trend_result) : health_indicator :=
  let commit_direction := ct_trend_direction commit_trend in
  let issue_direction := it_trend_direction issue_trend in
  let score := 50 in
  let score :=
    if String.eqb commit_direction "artan" then score + 15
    else if String.eqb commit_direction "azalan" then score - 10
    else score in
  let score :=
    if String.eqb issue_direction "iyileşiyor" then score + 15
    else if String.eqb issue_direction "kötüleşiyor" then score - 15
    else score in
  let commit_strength := ct_trend_strength commit_trend in
  let issue_strength := it_trend_strength issue_trend in
  let score :=
    if String.eqb commit_strength "güçlü" && String.eqb commit_direction "artan"
    then score + 10 else score in
  let score :=
    if String.eqb issue_strength "güçlü" && String.eqb issue_direction "iyileşiyor"
    then score + 10 else score in
  let score := Z.max 0 (Z.min 100 score) in
  let '(status, emoji) :=
    if 70 <=? score then ("sağlıklı", "✅")%string
    else if 50 <=? score then ("stabil", "➖")%string
    else if 30 <=? score then ("dikkat", "⚠️")%string
    else ("kritik", "🚨")%string in
  mk_health score status emoji commit_direction issue_direction.

(** ** Days of the month

    A day of the first 400-year cycle is a day of its month. *)
Definition cycle_month_ok (n : Z) : bool :=
  let '(y, m, d) := _ord2ymd n in d <=? _days_in_month y m.

(** The first day of the year 1000: from it on [%Y] writes four digits on
    every platform. *)
Definition FIRST_FOUR_DIGIT_DAY : Z := _ymd2ord 1000 1 1.

(** ** metrics.py: [compute_overall_score] *)









(** ** scoring.py: the description of a grade *)

Definition descriptions : dict string :=
  [ ("A+", "Mükemmel - Örnek alınacak kalitede proje");
    ("A", "Çok İyi - Yüksek kalite standartlarına sahip");
    ("A-", "İyi - Kalite standartlarının üzerinde");
    ("B+", "Ortanın Üstü - Sağlam bir proje");
    ("B", "Orta - Kabul edilebilir kalite seviyesi");
    ("B-", "Ortanın Altı - İyileştirme alanları mevcut");
    ("C+", "Zayıf - Önemli iyileştirmeler gerekli");
    ("C", "Yetersiz - Ciddi kalite sorunları var");
    ("C-", "Kötü - Acil müdahale gerekli");
    ("D+", "Çok Kötü - Kritik sorunlar mevcut");
    ("D", "Tehlikeli - Proje risk altında");
    ("D-", "Kritik - Acil aksiyon gerekli");
    ("F", "Başarısız - Temel kalite kriterlerini karşılamıyor") ]%string.

Definition get_grade_description (grade : string) : string :=
  match dict_get descriptions grade with
  | Some description => description
  | None => "Bilinmeyen not"
  end.

(** ** trends.py: [compute_weekly_summary] *)

(** [d.weekday()]: Monday is 0. *)
Definition weekday (ordinal : Z) : Z := (ordinal + 6) mod 7.

(** [%W]: the week of the year, weeks starting on Monday; the days
    before the first Monday of the year are in week 0. *)
Definition week_of_year (ordinal : Z) : Z :=
  let '(year, _, _) := _ord2ymd ordinal in
  let yday := ordinal - _ymd2ord year 1 1 in
  (yday + 7 - weekday ordinal) / 7.

(** [d.strftime("%Y-W%W")] *)
Definition strftime_week (d : datetime) : string :=
  let '(year, _, _) := _ord2ymd (dt_day d) in
  string_of_list_ascii
    (digits_of 4 year ++ ["-"; "W"]%char ++ digits_of 2 (week_of_year (dt_day d))).

(** [weekly_commits[week_key] += count] on a [defaultdict(int)]. *)
Fixpoint dict_add (d : dict Z) (k : string) (n : Z) : dict Z :=
  match d with
  | [] => [(k, 0 + n)]
  | (k', m) :: d' =>
    if String.eqb k' k then (k', m + n) :: d' else (k', m) :: dict_add d' k n
  end.

(** The loop over [time_series]; [strptime] raises [ValueError] on a
    text that is no date. *)
Fixpoint weekly_counts (time_series : list (string * Z)) (weekly_commits : dict Z)
    : res (dict Z) :=
  match time_series with
  | [] => Ok weekly_commits
  | (date, count) :: rest =>
    match strptime (list_ascii_of_string date) FORMAT_DATE with
    | Some d => weekly_counts rest (dict_add weekly_commits (strftime_week d) count)
    | None => Raise ValueError
    end
  end.

(** [a < b] on items [(week, count)], compared as tuples. *)
Definition item_lt (a b : string * Z) : bool :=
  match String.compare (fst a) (fst b) with
  | Lt => true
  | Eq => snd a <? snd b
  | Gt => false
  end.

(** [sorted(l)]: a stable sort by [<], written as insertion sort. *)
Fixpoint insert_lt {A : Type} (lt : A -> A -> bool) (x : A) (l : list A) : list A :=
  match l with
  | [] => [x]
  | y :: l' => if lt y x then y :: insert_lt lt x l' else x :: l
  end.

Fixpoint sort_lt {A : Type} (lt : A -> A -> bool) (l : list A) : list A :=
  match l with
  | [] => []
  | x :: l' => insert_lt lt x (sort_lt lt l')
  end.

Record weekly_summary_result : Type := mk_weekly_summary {
  ws_commit_trend : commit_trend_result;
  ws_issue_trend : issue_trend_result;
  ws_weekly_commits : list (string * Z);
  ws_overall_health : health_indicator
}.

(** The two trend computations read the clock one after the other:
    [now] and [now']. *)
Definition compute_weekly_summary (now now' : clock) (commits issues : list value)
    : res weekly_summary_result :=
  commit_trend <- compute_commit_trend now commits ;;
  issue_trend <- compute_issue_trend now' issues ;;
  weekly_commits <- weekly_counts (ct_time_series commit_trend) [] ;;
  let weekly_summary := sort_lt item_lt weekly_commits in
  Ok (mk_weekly_summary commit_trend issue_trend weekly_summary
        (_calculate_health_indicator commit_trend issue_trend)).

(** The text [-MM-DD] of a month and a day is read back as that month
    and day by the directives [%m] and [%d]. *)
Definition month_day_text_ok (m d : Z) : bool :=
  match match_format
          [Literal "-"; Directive directive_m; Literal "-"; Directive directive_d]
          (["-"%char] ++ digits_of 2 m ++ ["-"%char] ++ digits_of 2 d) with
  | Some ([m'; d'], []) => (m' =? m) && (d' =? d)
  | _ => false
  end.

(** ** utils.py: the computations of [analyze_repository]

    What [analyze_repository] computes from the data of a repository
    once they are fetched: the four metrics, the two trends and the
    overall score.  The results of the metric functions are the dicts
    they return.  The repository information, the contributors and the
    languages, which are passed through unchanged, are left out. *)







(** ** Timestamps of the GitHub API

    The text [YYYY-MM-DDTHH:MM:SSZ] of a second of a day, in UTC. *)
Definition time_text (hour minute second : Z) : list ascii :=
  digits_of 2 hour ++ [":"%char] ++ digits_of 2 minute ++ [":"%char]
  ++ digits_of 2 second.

Definition github_timestamp (ordinal hour minute second : Z) : string :=
  let '(y, m, d) := _ord2ymd ordinal in
  string_of_list_ascii
    (digits_of 4 y ++ ["-"%char] ++ digits_of 2 m ++ ["-"%char] ++ digits_of 2 d
     ++ ["T"%char] ++ time_text hour minute second ++ ["Z"%char]).

(** The time [HH:MM:SS+00:00] is read as that time, in UTC. *)
Definition time_text_ok (hour minute second : Z) : bool :=
  match parse_isoformat_time
          (time_text hour minute second ++ list_ascii_of_string "+00:00") with
  | Some (h, m, s, us, Some offset) =>
    (h =? hour) && (m =? minute) && (s =? second) && (us =? 0) && (offset =? 0)
  | _ => false
  end.

(** Scores of which one leaves much to gain and one little. *)
Definition scores_far_and_near : dict Q :=
  [ ("test_ratio", 95); ("commit_frequency", 10) ]%string%Q.

(** * Properties *)

(** ** Rounding *)

Section Rounding.
Local Open Scope Q_scope.

Ltac qcmp :=
  repeat match goal with
  | H : Qcompare _ _ = Eq |- _ => apply Qeq_alt in H
  | H : Qcompare _ _ = Lt |- _ => apply Qlt_alt in H
  | H : Qcompare _ _ = Gt |- _ => apply Qgt_alt in H
  end.

Lemma round_half_even_Z (k : Z) : round_half_even (inject_Z k) = k.
Proof.
  unfold round_half_even. rewrite Qfloor_Z.
  assert (H : inject_Z k - inject_Z k == 0) by ring.
  rewrite (Qcompare_comp _ _ H (1#2) (1#2) (Qeq_refl _)). reflexivity.
Qed.

Lemma round_half_even_bounds (q : Q) :
  (Qfloor q <= round_half_even q <= Qfloor q + 1)%Z.
Proof.
  unfold round_half_even.
  destruct (Qcompare _ _); [destruct (Z.even _)| |]; lia.
Qed.

Lemma round_half_even_mono (x y : Q) :
  x <= y -> (round_half_even x <= round_half_even y)%Z.
Proof.
  intros Hxy.
  pose proof (Qfloor_resp_le _ _ Hxy) as Hf.
  destruct (Z.eq_dec (Qfloor x) (Qfloor y)) as [He|Hne].
  - unfold round_half_even. rewrite He.
    destruct (Qcompare (x - inject_Z (Qfloor y)) (1#2)) eqn:Cx;
    destruct (Qcompare (y - inject_Z (Qfloor y)) (1#2)) eqn:Cy;
    try (destruct (Z.even (Qfloor y))); try lia; exfalso.
    all: qcmp; lra.
  - pose proof (round_half_even_bounds x). pose proof (round_half_even_bounds y). lia.
Qed.

Lemma round_half_even_comp (x y : Q) :
  x == y -> round_half_even x = round_half_even y.
Proof.
  intros E. unfold round_half_even. rewrite (Qfloor_comp _ _ E).
  assert (E' : x - inject_Z (Qfloor y) == y - inject_Z (Qfloor y)) by (rewrite E; reflexivity).
  rewrite (Qcompare_comp _ _ E' (1#2) (1#2) (Qeq_refl _)). reflexivity.
Qed.

Lemma pow10_pos (n : nat) : (0 < 10 ^ Z.of_nat n)%Z.
Proof. apply Z.pow_pos_nonneg; lia. Qed.

Lemma py_round_comp (x y : Q) (n : nat) : x == y -> py_round x n = py_round y n.
Proof.
  intros E. unfold py_round. f_equal. apply round_half_even_comp.
  rewrite E. reflexivity.
Qed.

Lemma py_round_mono (x y : Q) (n : nat) : x <= y -> py_round x n <= py_round y n.
Proof.
  intros H. unfold py_round, Qle. cbn [Qnum Qden].
  apply Z.mul_le_mono_nonneg_r; [lia|].
  apply round_half_even_mono.
  apply Qmult_le_compat_r; [assumption|].
  change 0 with (inject_Z 0). rewrite <- Zle_Qle. pose proof (pow10_pos n). lia.
Qed.

Lemma py_round_Z (k : Z) (n : nat) : py_round (inject_Z k) n == inject_Z k.
Proof.
  unfold py_round.
  rewrite (round_half_even_comp _ (inject_Z (k * 10 ^ Z.of_nat n))).
  2:{ rewrite inject_Z_mult. reflexivity. }
  rewrite round_half_even_Z.
  pose proof (pow10_pos n) as Hp.
  unfold Qeq. cbn [Qnum Qden inject_Z]. rewrite Z2Pos.id by assumption. lia.
Qed.

Lemma py_round_range (x : Q) (n : nat) (a b : Z) :
  inject_Z a <= x <= inject_Z b -> inject_Z a <= py_round x n <= inject_Z b.
Proof.
  intros [Ha Hb]. split.
  - rewrite <- (py_round_Z a n). now apply py_round_mono.
  - rewrite <- (py_round_Z b n). now apply py_round_mono.
Qed.

Lemma round_half_even_strict (x y : Q) :
  x + 1 < y -> (round_half_even x < round_half_even y)%Z.
Proof.
  intros Hxy.
  assert (Hf : (Qfloor x + 1 <= Qfloor y)%Z).
  { rewrite <- (Qfloor_Z (Qfloor x + 1)). apply Qfloor_resp_le.
    rewrite inject_Z_plus. pose proof (Qfloor_le x). change (inject_Z 1) with 1. lra. }
  destruct (Z.eq_dec (Qfloor y) (Qfloor x + 1)) as [He|Hne].
  - assert (Hq : inject_Z (Qfloor y) == inject_Z (Qfloor x) + 1).
    { rewrite He, inject_Z_plus. reflexivity. }
    unfold round_half_even.
    destruct (Qcompare (x - inject_Z (Qfloor x)) (1#2)) eqn:Cx;
    destruct (Qcompare (y - inject_Z (Qfloor y)) (1#2)) eqn:Cy;
    try (destruct (Z.even (Qfloor x))); try (destruct (Z.even (Qfloor y)));
    try lia; exfalso; qcmp; lra.
  - pose proof (round_half_even_bounds x). pose proof (round_half_even_bounds y). lia.
Qed.

Lemma py_round_strict (x y : Q) (n : nat) :
  x * inject_Z (10 ^ Z.of_nat n) + 1 < y * inject_Z (10 ^ Z.of_nat n) ->
  py_round x n < py_round y n.
Proof.
  intros H. unfold py_round, Qlt. cbn [Qnum Qden].
  apply Z.mul_lt_mono_pos_r; [lia|].
  now apply round_half_even_strict.
Qed.

End Rounding.

(** ** The normalizer *)

Section Normalizer.
Local Open Scope Q_scope.

Lemma Qltb_true (x y : Q) : Qltb x y = true <-> x < y.
Proof.
  unfold Qltb. rewrite negb_true_iff. split; intros H.
  - apply Qnot_le_lt. intros L. apply Qle_bool_iff in L. congruence.
  - destruct (Qle_bool y x) eqn:E; [|reflexivity].
    apply Qle_bool_iff in E. lra.
Qed.

Lemma Qltb_false (x y : Q) : Qltb x y = false <-> y <= x.
Proof.
  unfold Qltb. rewrite negb_false_iff. apply Qle_bool_iff.
Qed.

Lemma py_min_spec (a b : Q) :
  (b < a /\ py_min a b = b) \/ (a <= b /\ py_min a b = a).
Proof.
  unfold py_min. destruct (Qltb b a) eqn:E.
  - left. apply Qltb_true in E. auto.
  - right. apply Qltb_false in E. auto.
Qed.

Lemma py_max_spec (a b : Q) :
  (a < b /\ py_max a b = b) \/ (b <= a /\ py_max a b = a).
Proof.
  unfold py_max. destruct (Qltb a b) eqn:E.
  - left. apply Qltb_true in E. auto.
  - right. apply Qltb_false in E. auto.
Qed.

Lemma clamp01_range (x : Q) : 0 <= clamp01 x <= 1.
Proof.
  unfold clamp01.
  destruct (py_min_spec 1 x) as [[A ->]|[A ->]];
  destruct (py_max_spec 0 x) as [[B E]|[B E]];
  destruct (py_max_spec 0 1) as [[C F]|[C F]];
  try rewrite E; try rewrite F; lra.
Qed.

Lemma clamp01_mono (x y : Q) : x <= y -> clamp01 x <= clamp01 y.
Proof.
  intros H. unfold clamp01.
  destruct (py_min_spec 1 x) as [[A ->]|[A ->]];
  destruct (py_min_spec 1 y) as [[A' ->]|[A' ->]];
  destruct (py_max_spec 0 x) as [[B E]|[B E]];
  destruct (py_max_spec 0 y) as [[B' E']|[B' E']];
  destruct (py_max_spec 0 1) as [[C F]|[C F]];
  try rewrite E; try rewrite E'; try rewrite F; lra.
Qed.

Lemma clamp01_comp (x y : Q) : x == y -> clamp01 x == clamp01 y.
Proof.
  intros E. apply Qle_antisym; apply clamp01_mono; lra.
Qed.

Lemma normalize_range (v lo hi : Q) (inv : bool) :
  0 <= _normalize_score v lo hi inv <= 100.
Proof.
  unfold _normalize_score. destruct (Qeq_bool hi lo); [lra|].
  fold (clamp01 ((v - lo) / (hi - lo))).
  pose proof (clamp01_range ((v - lo) / (hi - lo))) as Hc.
  change 0 with (inject_Z 0). change 100 with (inject_Z 100).
  apply py_round_range.
  change (inject_Z 0) with 0. change (inject_Z 100) with 100.
  generalize dependent (clamp01 ((v - lo) / (hi - lo))). intros c Hc.
  destruct inv; lra.
Qed.

Lemma normalize_unfold (v lo hi : Q) (inv : bool) :
  ~ hi == lo ->
  _normalize_score v lo hi inv =
  py_round ((if inv then 1 - clamp01 ((v - lo) / (hi - lo))
             else clamp01 ((v - lo) / (hi - lo))) * 100) 2.
Proof.
  intros H. unfold _normalize_score.
  destruct (Qeq_bool hi lo) eqn:E; [apply Qeq_bool_iff in E; contradiction|].
  reflexivity.
Qed.

Lemma normalize_mono (v1 v2 lo hi : Q) :
  lo < hi -> v1 <= v2 ->
  _normalize_score v1 lo hi false <= _normalize_score v2 lo hi false /\
  _normalize_score v2 lo hi true <= _normalize_score v1 lo hi true.
Proof.
  intros Hr Hv.
  rewrite !normalize_unfold by lra.
  assert (Hq : (v1 - lo) / (hi - lo) <= (v2 - lo) / (hi - lo)).
  { unfold Qdiv. apply Qmult_le_compat_r; [lra|].
    apply Qinv_le_0_compat. lra. }
  apply clamp01_mono in Hq.
  split; apply py_round_mono; lra.
Qed.

(** C3, as stated, fails: with [min_val = 1 > max_val = 0] the
    non-inverted normalizer maps 0 to 100 and 1 to 0, so it is not
    non-decreasing although [min_val <> max_val]. *)
Lemma normalize_monotone_counterexample :
  ~ (1 == 0) /\ 0 <= 1 /\
  _normalize_score 0 1 0 false == 100 /\
  _normalize_score 1 1 0 false == 0 /\
  ~ (_normalize_score 0 1 0 false <= _normalize_score 1 1 0 false).
Proof.
  repeat split; try (vm_compute; congruence).
Qed.

(** C3 (amended): for [min_val < max_val] the normalizer is monotonic
    non-decreasing in [value] when [inverse] is false and non-increasing
    when it is true; for all arguments the result lies in [0, 100]; and
    [_normalize_score x a a inverse] is 50 for every [x], [a] and flag. *)
Theorem normalize_score_properties (min_val max_val : Q) :
  min_val < max_val ->
  (forall v1 v2, v1 <= v2 ->
     _normalize_score v1 min_val max_val false
       <= _normalize_score v2 min_val max_val false) /\
  (forall v1 v2, v1 <= v2 ->
     _normalize_score v2 min_val max_val true
       <= _normalize_score v1 min_val max_val true) /\
  (forall v lo hi inv, 0 <= _normalize_score v lo hi inv <= 100) /\
  (forall x a inv, _normalize_score x a a inv = 50).
Proof.
  intros Hr. repeat split.
  - intros. now apply normalize_mono.
  - intros. now apply normalize_mono.
  - apply normalize_range.
  - apply normalize_range.
  - intros x a inv. unfold _normalize_score.
    rewrite (proj2 (Qeq_bool_iff a a)); reflexivity.
Qed.

Lemma normalize_score_properties_witness :
  0 < 5 /\
  _normalize_score 1 0 5 false <= _normalize_score 2 0 5 false /\
  _normalize_score 2 0 5 true <= _normalize_score 1 0 5 true /\
  0 <= _normalize_score 7 0 5 false <= 100 /\
  _normalize_score 7 3 3 true = 50.
Proof.
  assert (H : 0 < 5) by reflexivity.
  destruct (normalize_score_properties 0 5 H) as (M1 & M2 & R & E).
  split; [exact H|].
  split; [apply M1; discriminate|].
  split; [apply M2; discriminate|].
  split; [apply R | apply E].
Defined.

End Normalizer.

(** ** The scoring aggregator *)

Section Scoring.
Local Open Scope Q_scope.

Lemma weighted_loop_sums (weights : dict Q) (n : nat) (items : dict Q) (tw ws : Q) :
  fst (weighted_loop weights n items (tw, ws)) == tw + total_weight_of weights n items /\
  snd (weighted_loop weights n items (tw, ws)) == ws + weighted_sum_of weights n items.
Proof.
  revert tw ws. induction items as [|[name score] rest IH]; intros tw ws.
  - cbn. split; ring.
  - cbn [weighted_loop fold_left total_weight_of weighted_sum_of].
    fold (weighted_loop weights n rest).
    destruct (IH (tw + metric_weight weights n name)
                 (ws + score * metric_weight weights n name)) as [A B].
    rewrite A, B. split; ring.
Qed.

Lemma calculate_weighted_score_closed (scores : dict Q) (weights : option (dict Q)) :
  scores <> [] ->
  let w := weights_or_default weights in
  let tw := total_weight_of w (List.length scores) scores in
  let ws := weighted_sum_of w (List.length scores) scores in
  (tw == 0 -> calculate_weighted_score scores weights = 0) /\
  (~ tw == 0 -> tw <= 1 -> calculate_weighted_score scores weights == ws) /\
  (1 < tw -> calculate_weighted_score scores weights == ws / tw).
Proof.
  intros Hne w tw ws.
  unfold calculate_weighted_score.
  destruct scores as [|item rest]; [congruence|].
  fold (weights_or_default weights). fold w.
  set (scores := item :: rest) in *.
  destruct (weighted_loop_sums w (List.length scores) scores 0 0) as [A B].
  fold tw in A. fold ws in B.
  destruct (weighted_loop w (List.length scores) scores (0, 0)) as [t s].
  cbn [fst snd] in A, B.
  assert (At : t == tw) by (rewrite A; ring).
  assert (Bs : s == ws) by (rewrite B; ring).
  repeat split.
  - intros Z. rewrite (proj2 (Qeq_bool_iff t 0)); [reflexivity|]. now rewrite At.
  - intros NZ L.
    destruct (Qeq_bool t 0) eqn:E;
      [apply Qeq_bool_iff in E; rewrite At in E; contradiction|].
    rewrite (proj2 (Qle_bool_iff t 1)) by (rewrite At; assumption).
    rewrite At, Bs. field. assumption.
  - intros G.
    destruct (Qeq_bool t 0) eqn:E;
      [apply Qeq_bool_iff in E; rewrite At in E; lra|].
    destruct (Qle_bool t 1) eqn:L;
      [apply Qle_bool_iff in L; rewrite At in L; lra|].
    rewrite At, Bs. field. lra.
Qed.

Lemma fold_Qplus_acc (l : list Q) (a : Q) :
  fold_left Qplus l a == a + fold_left Qplus l 0.
Proof.
  revert a. induction l as [|b l IH]; intros a; cbn.
  - ring.
  - rewrite (IH (a + b)), (IH (0 + b)). ring.
Qed.

Lemma Qsum_cons (a : Q) (l : list Q) : Qsum (a :: l) == a + Qsum l.
Proof.
  unfold Qsum. cbn. rewrite fold_Qplus_acc. ring.
Qed.

Lemma metric_weight_spec (weights : dict Q) (n : nat) (name : string) :
  metric_weight weights n name = spec_weight weights n name.
Proof.
  unfold metric_weight, spec_weight, dict_mem.
  destruct (dict_get weights name) as [w|]; [|reflexivity].
  rewrite andb_false_r. reflexivity.
Qed.

Lemma spec_sums (weights : dict Q) (n : nat) (items : dict Q) :
  total_weight_of weights n items
    == Qsum (map (fun item => spec_weight weights n (fst item)) items) /\
  weighted_sum_of weights n items
    == Qsum (map (fun item => snd item * spec_weight weights n (fst item)) items).
Proof.
  induction items as [|[name score] rest [A B]].
  - unfold Qsum. cbn. split; reflexivity.
  - cbn [total_weight_of weighted_sum_of map fst snd].
    rewrite !Qsum_cons, A, B, metric_weight_spec. split; reflexivity.
Qed.

(** C4: for a non-empty score mapping and any weights mapping, the
    weight of a metric being its entry in the mapping, or the equal
    share [1 / len(scores)] when it has none, the result is the weighted
    sum divided by the total weight clamped from below at 1, so the
    division only ever scales the weighted sum down (total weight above
    1) and never amplifies it (total weight at most 1); a zero total
    weight gives 0.  With the default weights, the scores 80, 60, 40, 20
    give exactly 50. *)
Theorem calculate_weighted_score_spec (scores : dict Q) (weights : option (dict Q)) :
  scores <> [] ->
  let w := weights_or_default weights in
  let tw := spec_total_weight w scores in
  let ws := spec_weighted_sum w scores in
  (~ tw == 0 -> calculate_weighted_score scores weights == ws / Qmax 1 tw) /\
  (1 < tw -> calculate_weighted_score scores weights == ws / tw) /\
  (tw == 0 -> calculate_weighted_score scores weights == 0) /\
  Qabs (calculate_weighted_score scores weights) <= Qabs ws /\
  calculate_weighted_score four_scores None == 50.
Proof.
  intros Hne w tw ws.
  destruct (calculate_weighted_score_closed scores weights Hne) as (Z & L & G).
  fold w in Z, L, G.
  destruct (spec_sums w (List.length scores) scores) as [Et Es].
  fold (spec_total_weight w scores) in Et. fold (spec_weighted_sum w scores) in Es.
  fold tw in Et. fold ws in Es.
  cbv zeta in Z, L, G.
  rewrite Et in Z, L, G. rewrite Es in L, G.
  repeat split.
  - intros NZ. destruct (Qlt_le_dec 1 tw) as [H|H].
    + rewrite (G H). rewrite (Q.max_r 1 tw) by lra. reflexivity.
    + rewrite (L NZ H). rewrite (Q.max_l 1 tw) by lra. field.
  - exact G.
  - intros E. rewrite (Z E). reflexivity.
  - destruct (Qeq_dec tw 0) as [E|NZ].
    + rewrite (Z E). apply Qabs_nonneg.
    + destruct (Qlt_le_dec 1 tw) as [H|H].
      * rewrite (G H). unfold Qdiv. rewrite Qabs_Qmult.
        rewrite (Qabs_pos (/ tw)) by (apply Qinv_le_0_compat; lra).
        assert (Hi : / tw <= 1) by (apply Qle_shift_inv_r; lra).
        assert (Hp : 0 <= / tw) by (apply Qinv_le_0_compat; lra).
        pose proof (Qabs_nonneg ws) as Ha.
        generalize dependent (Qabs ws). generalize dependent (/ tw).
        intros. nra.
      * rewrite (L NZ H). lra.
Qed.

Lemma calculate_weighted_score_spec_witness :
  calculate_weighted_score four_scores None == 50 /\
  calculate_weighted_score two_scores (Some weights_three_to_one) == 65 /\
  calculate_weighted_score two_scores (Some weights_heavy) == 65 /\
  calculate_weighted_score two_scores (Some weights_light) == 26.
Proof.
  assert (H4 : four_scores <> []) by discriminate.
  assert (H2 : two_scores <> []) by discriminate.
  split; [exact (proj2 (proj2 (proj2 (proj2
                   (calculate_weighted_score_spec four_scores None H4)))))|].
  destruct (calculate_weighted_score_spec two_scores (Some weights_three_to_one) H2)
    as (A & _).
  destruct (calculate_weighted_score_spec two_scores (Some weights_heavy) H2)
    as (_ & B & _).
  destruct (calculate_weighted_score_spec two_scores (Some weights_light) H2)
    as (C & _).
  split; [rewrite A; [vm_compute; reflexivity|vm_compute; discriminate]|].
  split; [rewrite B; [vm_compute; reflexivity|vm_compute; reflexivity]|].
  rewrite C; [vm_compute; reflexivity|vm_compute; discriminate].
Defined.

Lemma metric_weight_missing (weights : dict Q) (n : nat) (name : string) :
  dict_get weights name = None ->
  metric_weight weights n name = 1 / inject_Z (Z.of_nat n).
Proof.
  intros H. unfold metric_weight, dict_mem. rewrite H. reflexivity.
Qed.

Lemma metric_weight_present (weights : dict Q) (n : nat) (name : string) (w : Q) :
  dict_get weights name = Some w ->
  metric_weight weights n name = w.
Proof.
  intros H. unfold metric_weight, dict_mem. rewrite H.
  rewrite andb_false_r. reflexivity.
Qed.

(** C5: a metric whose name is not a key of the weights mapping gets the
    equal share [1 / len(scores)]; a metric mapped explicitly to 0 gets
    weight 0; and the two cases give different overall scores on the
    mapping [{a: 80, b: 20}] (20 with the explicit zero, 40 without the
    entry). *)
Theorem missing_weight_differs_from_zero_weight :
  (forall weights n name,
     dict_get weights name = None ->
     metric_weight weights n name = 1 / inject_Z (Z.of_nat n)) /\
  (forall weights n name,
     dict_get weights name = Some 0 ->
     metric_weight weights n name = 0) /\
  dict_get weights_zero_a "a" = Some 0 /\
  dict_get weights_without_a "a" = None /\
  calculate_weighted_score two_scores (Some weights_zero_a) == 20 /\
  calculate_weighted_score two_scores (Some weights_without_a) == 40 /\
  ~ calculate_weighted_score two_scores (Some weights_zero_a)
    == calculate_weighted_score two_scores (Some weights_without_a).
Proof.
  split; [exact metric_weight_missing|].
  split; [intros; now apply metric_weight_present|].
  repeat split; vm_compute; congruence.
Qed.

Lemma missing_weight_differs_from_zero_weight_witness :
  metric_weight weights_without_a 2 "a" = 1 / inject_Z (Z.of_nat 2) /\
  metric_weight weights_zero_a 2 "a" = 0.
Proof.
  destruct missing_weight_differs_from_zero_weight as (M & Z & _).
  split; [apply M | apply Z]; reflexivity.
Defined.

End Scoring.

(** ** Malformed input *)

Section Robustness.
Local Open Scope Q_scope.

(** C1 fails on the code: a timestamp that cannot be parsed is replaced by
    the naive [datetime.now()], and a naive value can neither be ordered
    against nor subtracted from the aware value a [Z] timestamp parses
    to, so [dates.sort()] and [closed - created] raise [TypeError]; the
    same happens for a bare date next to a [Z] timestamp.  A timestamp
    that is a number, an [author] or [state] that is [None], and a [path]
    that is a number raise [AttributeError]. *)
Theorem malformed_input_raises (now : clock) :
  compute_commit_frequency now commits_utc_and_garbage = Raise TypeError /\
  compute_commit_frequency now commits_utc_and_date = Raise TypeError /\
  compute_commit_frequency now commits_number_date = Raise AttributeError /\
  compute_commit_frequency now commits_null_author = Raise AttributeError /\
  compute_issue_resolution now issues_utc_and_date = Raise TypeError /\
  compute_issue_resolution now issues_null_state = Raise AttributeError /\
  compute_pr_rejection prs_null_state = Raise AttributeError /\
  compute_test_ratio files_number_path = Raise AttributeError.
Proof.
  repeat split; reflexivity.
Qed.

End Robustness.

(** ** Test files *)

Section TestRatio.
Local Open Scope Q_scope.

(** C8 fails on the code: the patterns are searched anywhere in the path,
    so [src/latest/a.py] (which contains [test/]) and [src/contest_a.py]
    (which contains [test_] before a final [.py]) are counted as test
    files, although no file name or directory of theirs has one of the
    listed forms.  The worked examples hold. *)
Theorem unanchored_test_patterns :
  is_test_file "src/latest/a.py" = true /\
  documented_test_file "src/latest/a.py" = false /\
  is_test_file "src/contest_a.py" = true /\
  documented_test_file "src/contest_a.py" = false /\
  match compute_test_ratio [FPath "src/latest/a.py"] with
  | Ok r => tr_total_files r = 1%Z /\ tr_test_files r = 1%Z /\ tr_raw r == 1
  | Raise _ => False
  end /\
  match compute_test_ratio [FPath "src/a.py"; FPath "tests/test_a.py"] with
  | Ok r => tr_total_files r = 2%Z /\ tr_test_files r = 1%Z /\ tr_raw r == 0.5
  | Raise _ => False
  end /\
  match compute_test_ratio [FPath "src/a.py"; FPath "logo.png"; FPath "README.md"] with
  | Ok r => tr_total_files r = 1%Z /\ tr_test_files r = 0%Z
  | Raise _ => False
  end.
Proof.
  repeat split; vm_compute; reflexivity.
Qed.

End TestRatio.

(** ** Scores *)

(** Case analysis along the binds and branches of a computation that is
    known to return. *)
Ltac step_res H :=
  match type of H with
  | bind ?m _ = Ok _ =>
    let E := fresh "E" in
    destruct m eqn:E; cbn [bind] in H; [|discriminate H]
  | (if ?b then _ else _) = Ok _ =>
    let E := fresh "E" in destruct b eqn:E
  | (let '(_, _) := ?p in _) = Ok _ => destruct p
  | match ?x with _ => _ end = Ok _ =>
    let E := fresh "E" in destruct x eqn:E
  | Raise _ = Ok _ => discriminate H
  end.

Ltac inv_res H := repeat step_res H.

Section Scores.
Local Open Scope Q_scope.

Lemma commit_frequency_score (now : clock) (commits : list value)
    (r : commit_frequency_result) :
  compute_commit_frequency now commits = Ok r -> 0 <= cf_score r <= 100.
Proof.
  intros H. unfold compute_commit_frequency in H.
  inv_res H; injection H as <-; cbn [cf_score]; try lra; apply normalize_range.
Qed.

Lemma issue_resolution_score (now : clock) (issues : list value)
    (r : issue_resolution_result) :
  compute_issue_resolution now issues = Ok r -> 0 <= ir_score r <= 100.
Proof.
  intros H. unfold compute_issue_resolution in H.
  inv_res H; injection H as <-; cbn [ir_score]; try lra; apply normalize_range.
Qed.

Lemma pr_rejection_score (prs : list value) (r : pr_rejection_result) :
  compute_pr_rejection prs = Ok r -> 0 <= pr_score r <= 100.
Proof.
  intros H. unfold compute_pr_rejection in H.
  inv_res H; injection H as <-; cbn [pr_score]; try lra; apply normalize_range.
Qed.

Lemma test_ratio_score (files : list file_entry) (r : test_ratio_result) :
  compute_test_ratio files = Ok r -> 0 <= tr_score r <= 100.
Proof.
  intros H. unfold compute_test_ratio in H.
  inv_res H; injection H as <-; cbn [tr_score]; try lra; apply normalize_range.
Qed.

(** C2: whatever the input list, a result returned by one of the four
    metric computers carries a score in [0, 100]. *)
Theorem metric_scores_in_range (now : clock) :
  (forall commits r,
     compute_commit_frequency now commits = Ok r -> 0 <= cf_score r <= 100) /\
  (forall issues r,
     compute_issue_resolution now issues = Ok r -> 0 <= ir_score r <= 100) /\
  (forall prs r,
     compute_pr_rejection prs = Ok r -> 0 <= pr_score r <= 100) /\
  (forall files r,
     compute_test_ratio files = Ok r -> 0 <= tr_score r <= 100).
Proof.
  repeat split;
    first [ eapply commit_frequency_score | eapply issue_resolution_score
          | eapply pr_rejection_score | eapply test_ratio_score ]; eassumption.
Qed.

Lemma metric_scores_in_range_witness :
  (exists r, compute_commit_frequency sample_clock sample_commits = Ok r
             /\ 0 <= cf_score r <= 100) /\
  (exists r, compute_issue_resolution sample_clock sample_issues = Ok r
             /\ 0 <= ir_score r <= 100) /\
  (exists r, compute_pr_rejection sample_prs = Ok r /\ 0 <= pr_score r <= 100) /\
  (exists r, compute_test_ratio sample_files = Ok r /\ 0 <= tr_score r <= 100).
Proof.
  destruct (metric_scores_in_range sample_clock) as (C & I & P & T).
  split; [|split; [|split]]; eexists; (split; [vm_compute; reflexivity|]).
  - apply (C sample_commits). vm_compute. reflexivity.
  - apply (I sample_issues). vm_compute. reflexivity.
  - apply (P sample_prs). vm_compute. reflexivity.
  - apply (T sample_files). vm_compute. reflexivity.
Defined.

End Scores.

(** ** The daily series *)

Section DailySeries.
Local Open Scope Z_scope.

(** C6 fails on the code: dates are ordered by instant but bucketed and
    bounded by local calendar day.  Of two commits at 23:00 UTC on
    1 January and at 00:30 UTC+5 on 2 January, the second is the earlier
    instant; the series then runs from 2 January to 1 January and is
    empty, although two dates were parsed. *)
Theorem mixed_offsets_empty_series (now : clock) :
  match commit_dates now commits_two_offsets with
  | Ok dates => List.length dates = 2%nat
  | Raise _ => False
  end /\
  match compute_commit_trend now commits_two_offsets with
  | Ok r => ct_time_series r = [] /\ ct_total_days r = Some 0
  | Raise _ => False
  end.
Proof.
  split; vm_compute; auto.
Qed.

End DailySeries.

(** ** Sorting *)

Section Sorting.
Local Open Scope Z_scope.
Context {A : Type} (aw : A -> bool) (key : A -> Z).

Let lt := guarded_lt aw key.
Let le_key (a b : A) : Prop := key a <= key b.

Lemma insert_key_perm (x : A) (l : list A) :
  Permutation (insert_key key x l) (x :: l).
Proof.
  induction l as [|y l IH]; cbn; [reflexivity|].
  destruct (key y <? key x); [|reflexivity].
  rewrite IH. apply perm_swap.
Qed.

Lemma sort_key_perm (l : list A) : Permutation (sort_key key l) l.
Proof.
  induction l as [|x l IH]; cbn; [reflexivity|].
  rewrite insert_key_perm. now constructor.
Qed.

Lemma insert_key_sorted (x : A) (l : list A) :
  StronglySorted le_key l -> StronglySorted le_key (insert_key key x l).
Proof.
  induction 1 as [|y l Hs IH Hy]; cbn.
  - constructor; constructor.
  - destruct (key y <? key x) eqn:E.
    + constructor; [assumption|].
      apply Z.ltb_lt in E.
      rewrite Forall_forall in *. intros z Hz.
      apply (Permutation_in _ (insert_key_perm x l)) in Hz.
      destruct Hz as [<-|Hz]; [unfold le_key; lia | now apply Hy].
    + apply Z.ltb_ge in E.
      constructor; [now constructor|].
      constructor; [exact E|].
      rewrite Forall_forall in *. intros z Hz.
      specialize (Hy z Hz). unfold le_key in *. lia.
Qed.

Lemma sort_key_sorted (l : list A) : StronglySorted le_key (sort_key key l).
Proof.
  induction l as [|x l IH]; cbn; [constructor|].
  now apply insert_key_sorted.
Qed.

Lemma insert_by_uniform (x : A) (l : list A) :
  uniform aw (x :: l) -> insert_by lt x l = Ok (insert_key key x l).
Proof.
  induction l as [|y l IH]; intros U; cbn; [reflexivity|].
  unfold lt at 1, guarded_lt.
  rewrite (U y x) by (cbn; auto). rewrite Bool.eqb_reflx. cbn [bind].
  destruct (key y <? key x); [|reflexivity].
  rewrite IH; [reflexivity|].
  intros a b Ha Hb. apply U; cbn in *; tauto.
Qed.

Lemma uniform_perm (l l' : list A) :
  Permutation l l' -> uniform aw l -> uniform aw l'.
Proof.
  intros P U a b Ha Hb.
  apply U; eapply Permutation_in; try eassumption; now symmetry.
Qed.

Lemma sort_by_uniform (l : list A) :
  uniform aw l -> sort_by lt l = Ok (sort_key key l).
Proof.
  induction l as [|x l IH]; intros U; cbn; [reflexivity|].
  rewrite IH by (intros a b Ha Hb; apply U; cbn; auto).
  cbn [bind]. apply insert_by_uniform.
  apply (uniform_perm (x :: l)); [|assumption].
  constructor. symmetry. apply sort_key_perm.
Qed.

Lemma insert_by_ok_head (x y : A) (l s : list A) :
  insert_by lt x (y :: l) = Ok s -> aw y = aw x.
Proof.
  cbn. unfold lt at 1, guarded_lt.
  destruct (Bool.eqb (aw y) (aw x)) eqn:E; [|discriminate].
  intros _. now apply Bool.eqb_prop.
Qed.

Lemma sort_by_ok (l s : list A) :
  sort_by lt l = Ok s -> uniform aw l /\ s = sort_key key l.
Proof.
  revert s. induction l as [|x l IH]; intros s H.
  - cbn in H. injection H as <-. split; [intros a b []|reflexivity].
  - cbn in H. destruct (sort_by lt l) as [s'|] eqn:E; [|discriminate].
    cbn [bind] in H. destruct (IH s' eq_refl) as [U ->].
    assert (Ux : uniform aw (x :: l)).
    { assert (Hx : forall a, In a l -> aw a = aw x).
      { intros a Ha.
        destruct (sort_key key l) as [|y t] eqn:Es.
        - apply (Permutation_in _ (Permutation_sym (sort_key_perm l))) in Ha.
          rewrite Es in Ha. destruct Ha.
        - rewrite <- (insert_by_ok_head _ _ _ _ H).
          apply U; [assumption|].
          apply (Permutation_in _ (sort_key_perm l)). rewrite Es. now left. }
      intros a b [<-|Ha] [<-|Hb];
        [ reflexivity | symmetry; now apply Hx | now apply Hx
        | rewrite (Hx a Ha), (Hx b Hb); reflexivity ]. }
    split; [assumption|].
    rewrite sort_by_uniform in E by assumption.
    assert (Hs : sort_by lt (x :: l) = Ok s) by (cbn; rewrite sort_by_uniform by assumption; exact H).
    rewrite sort_by_uniform in Hs by assumption. now injection Hs.
Qed.

End Sorting.

Section Extremes.
Local Open Scope Z_scope.

Lemma Zmin_list_spec (l : list Z) :
  l <> [] -> In (Zmin_list l) l /\ Forall (fun z => Zmin_list l <= z) l.
Proof.
  destruct l as [|a l]; [congruence|intros _]. cbn [Zmin_list].
  induction l as [|b l [IHin IHall]]; cbn [fold_right].
  - split; [now left|]. constructor; [lia|constructor].
  - inversion IHall as [|? ? Ha Hl]; subst. split.
    + destruct (Z.min_spec b (fold_right Z.min a l)) as [[_ ->]|[_ ->]].
      * right. now left.
      * destruct IHin as [<-|H]; [now left|right; now right].
    + constructor; [lia|]. constructor; [lia|].
      rewrite Forall_forall in *. intros z Hz. specialize (Hl z Hz). lia.
Qed.

Lemma Zmax_list_spec (l : list Z) :
  l <> [] -> In (Zmax_list l) l /\ Forall (fun z => z <= Zmax_list l) l.
Proof.
  destruct l as [|a l]; [congruence|intros _]. cbn [Zmax_list].
  induction l as [|b l [IHin IHall]]; cbn [fold_right].
  - split; [now left|]. constructor; [lia|constructor].
  - inversion IHall as [|? ? Ha Hl]; subst. split.
    + destruct (Z.max_spec b (fold_right Z.max a l)) as [[_ ->]|[_ ->]].
      * destruct IHin as [<-|H]; [now left|right; now right].
      * right. now left.
    + constructor; [lia|]. constructor; [lia|].
      rewrite Forall_forall in *. intros z Hz. specialize (Hl z Hz). lia.
Qed.

Lemma Zmin_list_unique (l : list Z) (m : Z) :
  In m l -> Forall (fun z => m <= z) l -> Zmin_list l = m.
Proof.
  intros Hin Hall.
  assert (Hne : l <> []) by (intros ->; destruct Hin).
  destruct (Zmin_list_spec l Hne) as [Hin' Hall'].
  rewrite Forall_forall in *.
  specialize (Hall _ Hin'). specialize (Hall' _ Hin). lia.
Qed.

Lemma Zmax_list_unique (l : list Z) (m : Z) :
  In m l -> Forall (fun z => z <= m) l -> Zmax_list l = m.
Proof.
  intros Hin Hall.
  assert (Hne : l <> []) by (intros ->; destruct Hin).
  destruct (Zmax_list_spec l Hne) as [Hin' Hall'].
  rewrite Forall_forall in *.
  specialize (Hall _ Hin'). specialize (Hall' _ Hin). lia.
Qed.

Lemma Zmin_list_perm (l l' : list Z) :
  Permutation l l' -> Zmin_list l = Zmin_list l'.
Proof.
  intros P. destruct l as [|a l].
  - apply Permutation_nil in P. now subst.
  - symmetry. apply Zmin_list_unique.
    + eapply Permutation_in; [exact P|]. now apply Zmin_list_spec.
    + eapply Permutation_Forall; [exact P|]. now apply Zmin_list_spec.
Qed.

Lemma Zmax_list_perm (l l' : list Z) :
  Permutation l l' -> Zmax_list l = Zmax_list l'.
Proof.
  intros P. destruct l as [|a l].
  - apply Permutation_nil in P. now subst.
  - symmetry. apply Zmax_list_unique.
    + eapply Permutation_in; [exact P|]. now apply Zmax_list_spec.
    + eapply Permutation_Forall; [exact P|]. now apply Zmax_list_spec.
Qed.

Context {A : Type} (key : A -> Z).

Lemma sorted_hd_min (s : list A) (d : A) :
  StronglySorted (fun a b => key a <= key b) s -> s <> [] ->
  key (hd d s) = Zmin_list (map key s).
Proof.
  intros Hs Hne. destruct s as [|a s]; [congruence|].
  symmetry. apply Zmin_list_unique; cbn [hd map].
  - now left.
  - inversion Hs as [|? ? _ Hall]; subst.
    constructor; [lia|]. rewrite Forall_map. exact Hall.
Qed.

Lemma sorted_last_max (s : list A) (d : A) :
  StronglySorted (fun a b => key a <= key b) s -> s <> [] ->
  key (List.last s d) = Zmax_list (map key s).
Proof.
  intros Hs Hne. symmetry. apply Zmax_list_unique.
  - apply in_map. destruct s as [|a s]; [congruence|].
    clear. revert a. induction s as [|b s IH]; intros a; [now left|].
    right. apply IH.
  - rewrite Forall_map. clear Hne.
    induction Hs as [|a s Hs IH Hall]; [constructor|].
    destruct s as [|b s].
    + constructor; [cbn; lia|constructor].
    + constructor.
      * change (List.last (a :: b :: s) d) with (List.last (b :: s) d).
        inversion IH; subst.
        assert (Hin : In (List.last (b :: s) d) (b :: s)).
        { clear. revert b. induction s as [|c s IH]; intros b; [now left|].
          right. apply IH. }
        rewrite Forall_forall in Hall. apply Hall. exact Hin.
      * exact IH.
Qed.

End Extremes.

(** ** Commit frequency *)

Section CommitFrequency.
Local Open Scope Z_scope.

Lemma len_app {A : Type} (l l' : list A) : len (l ++ l') = len l + len l'.
Proof. unfold len. rewrite length_app. lia. Qed.

Lemma len_nonneg {A : Type} (l : list A) : 0 <= len l.
Proof. unfold len. lia. Qed.

Lemma commit_dates_app_untimed (now : clock) (commits : list value) (extra : value) :
  has_no_timestamp extra = true ->
  commit_dates now (commits ++ [extra]) = commit_dates now commits.
Proof.
  intros Hx. unfold commit_dates.
  induction commits as [|c rest IH]; cbn.
  - unfold commit_datetime. unfold has_no_timestamp in Hx.
    destruct (commit_date extra) as [v|]; [|discriminate]. cbn [bind].
    apply negb_true_iff in Hx. rewrite Hx. reflexivity.
  - destruct (commit_datetime now c) as [v|]; [|reflexivity]. cbn [bind].
    rewrite IH. reflexivity.
Qed.

Lemma sort_datetimes_ok (dates s : list datetime) :
  sort_datetimes dates = Ok s ->
  uniform is_aware dates /\ s = sort_key dt_key dates.
Proof.
  unfold sort_datetimes.
  change datetime_lt with (guarded_lt is_aware dt_key).
  apply sort_by_ok.
Qed.

Lemma sort_datetimes_uniform (dates : list datetime) :
  uniform is_aware dates -> sort_datetimes dates = Ok (sort_key dt_key dates).
Proof.
  unfold sort_datetimes.
  change datetime_lt with (guarded_lt is_aware dt_key).
  apply sort_by_uniform.
Qed.

Lemma hd_In {A : Type} (d : A) (l : list A) : l <> [] -> In (hd d l) l.
Proof. destruct l; [congruence|now left]. Qed.

Lemma last_In {A : Type} (d : A) (l : list A) : l <> [] -> In (List.last l d) l.
Proof.
  induction l as [|a l IH]; [congruence|intros _].
  destruct l as [|b l]; [now left|].
  right. apply IH. discriminate.
Qed.

Lemma sorted_span (dates : list datetime) (d : datetime) :
  dates <> [] ->
  dt_key (List.last (sort_key dt_key dates) d) - dt_key (hd d (sort_key dt_key dates))
  = Zmax_list (map dt_key dates) - Zmin_list (map dt_key dates).
Proof.
  intros Hne.
  assert (Hs : sort_key dt_key dates <> []).
  { intros E. pose proof (sort_key_perm dt_key dates) as P. rewrite E in P.
    apply Permutation_nil in P. contradiction. }
  rewrite (sorted_last_max dt_key) by (try apply sort_key_sorted; assumption).
  rewrite (sorted_hd_min dt_key) by (try apply sort_key_sorted; assumption).
  pose proof (Permutation_map dt_key (sort_key_perm dt_key dates)) as P.
  rewrite (Zmax_list_perm _ _ P), (Zmin_list_perm _ _ P). reflexivity.
Qed.

Lemma commit_frequency_main (now : clock) (commits : list value)
    (dates : list datetime) :
  commit_dates now commits = Ok dates -> 2 <= len dates ->
  compute_commit_frequency now commits =
    match sort_datetimes dates with
    | Ok _ => Ok (commit_frequency_of commits dates)
    | Raise e => Raise e
    end.
Proof.
  intros Hd Hlen. unfold compute_commit_frequency.
  destruct commits as [|c rest].
  { cbn in Hd. injection Hd as <-. cbn in Hlen. lia. }
  rewrite Hd. cbn [bind].
  destruct (len dates <? 2) eqn:E; [apply Z.ltb_lt in E; lia|].
  destruct (sort_datetimes dates) as [s|e] eqn:Es; [|reflexivity]. cbn [bind].
  destruct (sort_datetimes_ok _ _ Es) as [U ->].
  assert (Hne : dates <> []) by (intros ->; cbn in Hlen; lia).
  assert (Hs : sort_key dt_key dates <> []).
  { intros E'. pose proof (sort_key_perm dt_key dates) as P. rewrite E' in P.
    apply Permutation_nil in P. contradiction. }
  unfold datetime_sub.
  rewrite (U (List.last (sort_key dt_key dates) (datetime_now now))
             (hd (datetime_now now) (sort_key dt_key dates))).
  2:{ apply (Permutation_in _ (sort_key_perm dt_key dates)). now apply last_In. }
  2:{ apply (Permutation_in _ (sort_key_perm dt_key dates)). now apply hd_In. }
  rewrite Bool.eqb_reflx. cbn [bind].
  rewrite sorted_span by assumption.
  reflexivity.
Qed.

Lemma quotient_step (a s : Z) :
  (0 < s)%Z ->
  (inject_Z a / inject_Z s < inject_Z (a + 1) / inject_Z s)%Q /\
  ((s < 10000)%Z ->
   (inject_Z a / inject_Z s * inject_Z (10 ^ Z.of_nat 4) + 1
    < inject_Z (a + 1) / inject_Z s * inject_Z (10 ^ Z.of_nat 4))%Q).
Proof.
  intros Hs.
  assert (Hs' : (0 < inject_Z s)%Q) by (change 0%Q with (inject_Z 0); now rewrite <- Zlt_Qlt).
  assert (Hi : (inject_Z s * / inject_Z s == 1)%Q) by (apply Qmult_inv_r; lra).
  assert (Hip : (0 < / inject_Z s)%Q) by (apply Qinv_lt_0_compat; exact Hs').
  rewrite inject_Z_plus. change (inject_Z 1) with 1%Q.
  unfold Qdiv. generalize dependent (/ inject_Z s)%Q. intros i Hi Hip.
  split; [nra|].
  intros Hlt.
  assert (Hlt' : (inject_Z s < 10000)%Q)
    by (change 10000%Q with (inject_Z 10000); now rewrite <- Zlt_Qlt).
  change (inject_Z (10 ^ Z.of_nat 4)) with 10000%Q.
  nra.
Qed.

Lemma span_days_pos (dates : list datetime) : 0 < span_days dates.
Proof.
  unfold span_days.
  destruct (map dt_key dates) as [|k ks] eqn:E; [reflexivity|].
  assert (Hne : k :: ks <> []) by discriminate.
  destruct (Zmin_list_spec _ Hne) as [Hin _].
  destruct (Zmax_list_spec _ Hne) as [_ Hall].
  rewrite Forall_forall in Hall. specialize (Hall _ Hin).
  destruct (_ =? 0) eqn:Z0; [lia|].
  apply Z.eqb_neq in Z0.
  assert (0 <= (Zmax_list (k :: ks) - Zmin_list (k :: ks)) / US_PER_DAY).
  { apply Z.div_pos; [lia|reflexivity]. }
  lia.
Qed.

(** C10, as stated, fails: the returned [raw] is rounded to four
    decimals.  For two commits a century apart (36524 days) it is 0.0001,
    and it still is 0.0001 after a record without timestamp is added. *)
Lemma century_counterexample :
  has_no_timestamp (VDict []) = true /\
  match compute_commit_frequency sample_clock commits_century,
        compute_commit_frequency sample_clock (commits_century ++ [VDict []]) with
  | Ok r, Ok r' =>
      cf_time_span_days r = Some 36524 /\ cf_total_commits r = 2 /\
      cf_total_commits r' = 3 /\
      (cf_raw r == 0.0001)%Q /\ (cf_raw r' == 0.0001)%Q /\
      ~ (cf_raw r < cf_raw r')%Q
  | _, _ => False
  end.
Proof.
  split; [reflexivity|]. vm_compute. repeat split; congruence.
Qed.

(** C10 (amended): when at least two dates are taken from a commit list
    and a result is returned, [raw] is the number of all records divided
    by the time span in days of those dates, rounded to four decimals;
    appending a record without timestamp keeps the span, adds one to the
    numerator, strictly increases the quotient and never decreases the
    returned [raw], which strictly increases when the span is below
    10000 days. *)
Theorem untimed_commit_raises_frequency (now : clock) (commits : list value)
    (extra : value) (dates : list datetime) (r : commit_frequency_result) :
  commit_dates now commits = Ok dates ->
  2 <= len dates ->
  has_no_timestamp extra = true ->
  compute_commit_frequency now commits = Ok r ->
  let span := span_days dates in
  let frequency := (inject_Z (len commits) / inject_Z span)%Q in
  let frequency' := (inject_Z (len commits + 1) / inject_Z span)%Q in
  cf_raw r = py_round frequency 4 /\
  cf_total_commits r = len commits /\
  cf_time_span_days r = Some span /\
  exists r',
    compute_commit_frequency now (commits ++ [extra]) = Ok r' /\
    cf_raw r' = py_round frequency' 4 /\
    cf_total_commits r' = len commits + 1 /\
    cf_time_span_days r' = Some span /\
    (frequency < frequency')%Q /\
    (cf_raw r <= cf_raw r')%Q /\
    (span < 10000 -> (cf_raw r < cf_raw r')%Q).
Proof.
  intros Hd Hlen Hx Hr span frequency frequency'.
  rewrite (commit_frequency_main now commits dates Hd Hlen) in Hr.
  destruct (sort_datetimes dates) as [s|e] eqn:Es; [|discriminate].
  injection Hr as <-. cbn [commit_frequency_of cf_raw cf_total_commits cf_time_span_days].
  repeat split.
  exists (commit_frequency_of (commits ++ [extra]) dates).
  assert (Hd' : commit_dates now (commits ++ [extra]) = Ok dates)
    by (rewrite commit_dates_app_untimed; assumption).
  rewrite (commit_frequency_main now _ dates Hd' Hlen), Es.
  unfold commit_frequency_of. cbn [cf_raw cf_total_commits cf_time_span_days].
  rewrite len_app. change (len [extra]) with 1.
  fold span. fold frequency. fold frequency'.
  destruct (quotient_step (len commits) span (span_days_pos dates)) as [Hq Hstrict].
  fold frequency frequency' in Hq, Hstrict.
  repeat split.
  - exact Hq.
  - apply py_round_mono. lra.
  - intros Hs. apply py_round_strict. auto.
Qed.

Lemma untimed_commit_raises_frequency_witness :
  exists r r',
    compute_commit_frequency sample_clock sample_commits = Ok r /\
    compute_commit_frequency sample_clock (sample_commits ++ [VDict []]) = Ok r' /\
    (cf_raw r < cf_raw r')%Q.
Proof.
  assert (Hd : exists dates, commit_dates sample_clock sample_commits = Ok dates)
    by (eexists; vm_compute; reflexivity).
  destruct Hd as [dates Hd].
  assert (Hr : exists r, compute_commit_frequency sample_clock sample_commits = Ok r)
    by (eexists; vm_compute; reflexivity).
  destruct Hr as [r Hr].
  assert (Hlen : 2 <= len dates).
  { vm_compute in Hd. injection Hd as <-. vm_compute. discriminate. }
  assert (Hspan : span_days dates < 10000).
  { vm_compute in Hd. injection Hd as <-. vm_compute. reflexivity. }
  destruct (untimed_commit_raises_frequency sample_clock sample_commits (VDict [])
              dates r Hd Hlen eq_refl Hr)
    as (_ & _ & _ & r' & Hr' & _ & _ & _ & _ & _ & Hlt).
  exists r, r'. split; [exact Hr|]. split; [exact Hr'|]. apply Hlt. exact Hspan.
Defined.

(** With dates that are all aware or all naive, [compute_commit_frequency]
    returns. *)
Lemma commit_frequency_returns (now : clock) (commits : list value)
    (dates : list datetime) :
  commit_dates now commits = Ok dates -> uniform is_aware dates ->
  exists r, compute_commit_frequency now commits = Ok r.
Proof.
  intros Hd U.
  destruct (Z_lt_le_dec (len dates) 2) as [L|L].
  - unfold compute_commit_frequency. destruct commits; [eexists; reflexivity|].
    rewrite Hd. cbn [bind].
    destruct (len dates <? 2) eqn:E; [eexists; reflexivity|apply Z.ltb_ge in E; lia].
  - rewrite (commit_frequency_main now commits dates Hd L).
    rewrite (sort_datetimes_uniform dates U). eexists. reflexivity.
Qed.

Lemma insert_by_raises {A : Type} (aw : A -> bool) (key : A -> Z)
    (x : A) (l : list A) (e : exn) :
  insert_by (guarded_lt aw key) x l = Raise e -> e = TypeError.
Proof.
  induction l as [|y l IH]; cbn; [discriminate|].
  unfold guarded_lt at 1.
  destruct (Bool.eqb (aw y) (aw x)); cbn [bind]; [|congruence].
  destruct (key y <? key x); [|discriminate].
  destruct (insert_by _ x l) as [r|e'] eqn:E; cbn [bind]; [discriminate|].
  intros H. injection H as <-. now apply IH.
Qed.

Lemma sort_by_raises {A : Type} (aw : A -> bool) (key : A -> Z)
    (l : list A) (e : exn) :
  sort_by (guarded_lt aw key) l = Raise e -> e = TypeError.
Proof.
  induction l as [|x l IH]; cbn; [discriminate|].
  destruct (sort_by _ l) as [s|e'] eqn:E; cbn [bind].
  - apply insert_by_raises.
  - intros H. injection H as <-. now apply IH.
Qed.

(** X7: with two or more dated commits, [compute_commit_frequency]
    returns exactly when the dates are all aware or all naive: its result
    then counts all commits over the whole days between the earliest and
    the latest instant (one day at least); a mix of naive and aware dates
    raises [TypeError]. *)
Theorem commit_frequency_type_error (now : clock) (commits : list value)
    (dates : list datetime) :
  commit_dates now commits = Ok dates -> 2 <= len dates ->
  (uniform is_aware dates ->
   compute_commit_frequency now commits = Ok (commit_frequency_of commits dates)) /\
  (~ uniform is_aware dates ->
   compute_commit_frequency now commits = Raise TypeError).
Proof.
  intros Hd Hlen.
  rewrite (commit_frequency_main now commits dates Hd Hlen).
  split.
  - intros U. now rewrite (sort_datetimes_uniform dates U).
  - intros NU. destruct (sort_datetimes dates) as [s|e] eqn:Es.
    + destruct (sort_datetimes_ok _ _ Es) as [U _]. contradiction.
    + f_equal. unfold sort_datetimes in Es.
      change datetime_lt with (guarded_lt is_aware dt_key) in Es.
      now apply sort_by_raises in Es.
Qed.

Lemma commit_frequency_type_error_witness :
  compute_commit_frequency sample_clock sample_commits
    = Ok (commit_frequency_of sample_commits sample_dates) /\
  compute_commit_frequency sample_clock commits_naive_and_aware = Raise TypeError.
Proof.
  split.
  - apply (commit_frequency_type_error sample_clock sample_commits sample_dates).
    + vm_compute. reflexivity.
    + vm_compute. discriminate.
    + intros a b Ha Hb. cbn in Ha, Hb.
      repeat (destruct Ha as [<-|Ha]); try destruct Ha;
        repeat (destruct Hb as [<-|Hb]); try destruct Hb; reflexivity.
  - apply (commit_frequency_type_error sample_clock commits_naive_and_aware
             dates_naive_and_aware).
    + vm_compute. reflexivity.
    + vm_compute. discriminate.
    + intros U.
      specialize (U (nth 0 dates_naive_and_aware (datetime_now sample_clock))
                    (nth 1 dates_naive_and_aware (datetime_now sample_clock))).
      cbn in U. discriminate U; auto.
Defined.

End CommitFrequency.

(** ** Sums *)

Section Sums.
Local Open Scope Q_scope.

Lemma Qsq_nonneg (t : Q) : 0 <= t * t.
Proof. unfold Qle. cbn. nia. Qed.

Lemma Qsq_le_le (X Y : Q) : 0 <= Y -> X * X <= Y * Y -> X <= Y.
Proof.
  intros HY HXY.
  destruct (Qlt_le_dec Y X) as [L|L]; [|exact L].
  exfalso.
  assert (HX : 0 < X) by lra.
  assert (H1 : Y * Y <= X * Y) by (apply Qmult_le_compat_r; lra).
  assert (H2 : X * Y < X * X) by (apply Qmult_lt_l; lra).
  lra.
Qed.

Context {A : Type}.

Lemma sumf_nil (f : A -> Q) : sumf f [] == 0.
Proof. reflexivity. Qed.

Lemma sumf_cons (f : A -> Q) (a : A) (l : list A) :
  sumf f (a :: l) == f a + sumf f l.
Proof. unfold sumf. cbn [map]. apply Qsum_cons. Qed.

Lemma sumf_ext (f g : A -> Q) (l : list A) :
  (forall a, In a l -> f a == g a) -> sumf f l == sumf g l.
Proof.
  induction l as [|a l IH]; intros H; [reflexivity|].
  rewrite !sumf_cons.
  rewrite (H a (or_introl eq_refl)).
  rewrite IH by (intros; apply H; now right). reflexivity.
Qed.

Lemma sumf_plus (f g : A -> Q) (l : list A) :
  sumf (fun a => f a + g a) l == sumf f l + sumf g l.
Proof.
  induction l as [|a l IH]; [reflexivity|].
  rewrite !sumf_cons, IH. ring.
Qed.

Lemma sumf_scale (c : Q) (f : A -> Q) (l : list A) :
  sumf (fun a => c * f a) l == c * sumf f l.
Proof.
  induction l as [|a l IH]; [cbn; ring|].
  rewrite !sumf_cons, IH. ring.
Qed.

Lemma sumf_const (c : Q) (l : list A) :
  sumf (fun _ => c) l == c * inject_Z (len l).
Proof.
  induction l as [|a l IH]; [cbn; ring|].
  rewrite sumf_cons, IH. unfold len. cbn [List.length].
  rewrite Nat2Z.inj_succ, <- Z.add_1_r, inject_Z_plus. change (inject_Z 1) with 1. ring.
Qed.

Lemma sumf_nonneg (f : A -> Q) (l : list A) :
  (forall a, In a l -> 0 <= f a) -> 0 <= sumf f l.
Proof.
  induction l as [|a l IH]; intros H; [cbn; lra|].
  rewrite sumf_cons.
  pose proof (H a (or_introl eq_refl)). pose proof (IH (fun b Hb => H b (or_intror Hb))).
  lra.
Qed.

Lemma sumf_zero (f : A -> Q) (l : list A) :
  (forall a, In a l -> 0 <= f a) -> sumf f l == 0 ->
  forall a, In a l -> f a == 0.
Proof.
  induction l as [|b l IH]; intros H Hz a Ha; [destruct Ha|].
  rewrite sumf_cons in Hz.
  pose proof (H b (or_introl eq_refl)) as Hb.
  pose proof (sumf_nonneg f l (fun c Hc => H c (or_intror Hc))) as Hl.
  destruct Ha as [<-|Ha]; [lra|].
  apply IH; auto; [intros; apply H; now right | lra].
Qed.

(** Cauchy-Schwarz. *)
Lemma sumf_cauchy_schwarz (f g : A -> Q) (l : list A) :
  Qsq (sumf (fun a => f a * g a) l)
  <= sumf (fun a => Qsq (f a)) l * sumf (fun a => Qsq (g a)) l.
Proof.
  unfold Qsq.
  induction l as [|a l IH]; [vm_compute; discriminate|].
  rewrite !sumf_cons.
  assert (HA : 0 <= sumf (fun a => f a * f a) l)
    by (apply sumf_nonneg; intros; apply Qsq_nonneg).
  assert (HB : 0 <= sumf (fun a => g a * g a) l)
    by (apply sumf_nonneg; intros; apply Qsq_nonneg).
  revert IH HA HB.
  generalize (sumf (fun a => f a * f a) l) (sumf (fun a => g a * g a) l)
             (sumf (fun a => f a * g a) l) (f a) (g a).
  intros SA SB P u v IH HA HB.
  assert (K : 2 * (P * (u * v)) <= SA * (v * v) + SB * (u * u)).
  { set (X := 2 * (P * (u * v))). set (Y := SA * (v * v) + SB * (u * u)).
    pose proof (Qsq_nonneg u) as Hu. pose proof (Qsq_nonneg v) as Hv.
    pose proof (Qsq_nonneg (u * v)) as Huv.
    assert (HY : 0 <= Y).
    { unfold Y.
      pose proof (Qmult_le_0_compat _ _ HA Hv). pose proof (Qmult_le_0_compat _ _ HB Hu).
      lra. }
    assert (HXY : X * X <= Y * Y).
    { unfold X, Y.
      pose proof (Qsq_nonneg (SA * (v * v) - SB * (u * u))) as H1.
      assert (H2 : (P * P) * ((u * v) * (u * v)) <= (SA * SB) * ((u * v) * (u * v))).
      { apply Qmult_le_compat_r; [exact IH | exact Huv]. }
      lra. }
    apply Qsq_le_le; assumption. }
  lra.
Qed.

End Sums.

(** ** Linear regression *)

Section Regression.
Local Open Scope Q_scope.

Lemma combine_fst (x y : list Q) :
  List.length x = List.length y -> map fst (combine x y) = x.
Proof.
  revert y. induction x as [|a x IH]; intros [|b y] H; try discriminate; cbn.
  - reflexivity.
  - f_equal. apply IH. now injection H.
Qed.

Lemma combine_snd (x y : list Q) :
  List.length x = List.length y -> map snd (combine x y) = y.
Proof.
  revert y. induction x as [|a x IH]; intros [|b y] H; try discriminate; cbn.
  - reflexivity.
  - f_equal. apply IH. now injection H.
Qed.

Lemma combine_len (x y : list Q) :
  List.length x = List.length y -> len (combine x y) = len x.
Proof.
  intros H. unfold len. rewrite length_combine, <- H, Nat.min_id. reflexivity.
Qed.

(** The sums of the six monomials of degree at most two. *)
Lemma sumf_quadratic (c0 c1 c2 c3 c4 c5 : Q) (ps : list (Q * Q)) :
  sumf (fun p => c0 + c1 * fst p + c2 * snd p + c3 * (fst p * fst p)
                 + c4 * (fst p * snd p) + c5 * (snd p * snd p)) ps
  == c0 * inject_Z (len ps) + c1 * sumf fst ps + c2 * sumf snd ps
     + c3 * sumf (fun p => fst p * fst p) ps
     + c4 * sumf (fun p => fst p * snd p) ps
     + c5 * sumf (fun p => snd p * snd p) ps.
Proof.
  induction ps as [|p ps IH].
  - unfold sumf, Qsum, len. cbn [map fold_left List.length Z.of_nat].
    change (inject_Z 0) with 0. ring.
  - rewrite !sumf_cons, IH. unfold len. cbn [List.length].
    rewrite Nat2Z.inj_succ, <- Z.add_1_r, inject_Z_plus.
    change (inject_Z 1) with 1. ring.
Qed.

Lemma sum_over_fst (f : Q -> Q) (x y : list Q) :
  List.length x = List.length y ->
  Qsum (map f x) = sumf (fun p => f (fst p)) (combine x y).
Proof.
  intros H. unfold sumf. rewrite <- (map_map fst f), combine_fst by assumption.
  reflexivity.
Qed.

Lemma sum_over_snd (f : Q -> Q) (x y : list Q) :
  List.length x = List.length y ->
  Qsum (map f y) = sumf (fun p => f (snd p)) (combine x y).
Proof.
  intros H. unfold sumf. rewrite <- (map_map snd f), combine_snd by assumption.
  reflexivity.
Qed.

Section LeastSquares.
Variables x y : list Q.
Hypothesis Hlen : List.length x = List.length y.
Hypothesis Hn : (1 <= len x)%Z.

Let ps := combine x y.
Let n := inject_Z (len x).
Let mx := mean_of (len x) x.
Let my := mean_of (len x) y.
Let Sx := sumf fst ps.
Let Sy := sumf snd ps.
Let Sxx := sumf (fun p => fst p * fst p) ps.
Let Sxy := sumf (fun p => fst p * snd p) ps.
Let Syy := sumf (fun p => snd p * snd p) ps.

Lemma n_pos : 0 < n.
Proof. unfold n. change 0 with (inject_Z 0). rewrite <- Zlt_Qlt. lia. Qed.

Lemma n_len : inject_Z (len ps) = n.
Proof. unfold ps, n. now rewrite combine_len. Qed.

Lemma mean_x : n * mx == Sx.
Proof.
  unfold mx, mean_of. fold n.
  replace (Qsum x) with Sx.
  - field. pose proof n_pos. lra.
  - unfold Sx, ps, sumf. now rewrite combine_fst.
Qed.

Lemma mean_y : n * my == Sy.
Proof.
  unfold my, mean_of. fold n.
  replace (Qsum y) with Sy.
  - field. pose proof n_pos. lra.
  - unfold Sy, ps, sumf. now rewrite combine_snd.
Qed.

Lemma ss_xx_sums : ss_xx_of x == Sxx - n * (mx * mx).
Proof.
  unfold ss_xx_of. fold mx.
  rewrite (sum_over_fst (fun xi => Qsq (xi - mx)) x y Hlen). fold ps.
  rewrite (sumf_ext _ (fun p => mx * mx + (- (2) * mx) * fst p + 0 * snd p
                                + 1 * (fst p * fst p) + 0 * (fst p * snd p)
                                + 0 * (snd p * snd p)))
    by (intros; unfold Qsq; ring).
  rewrite sumf_quadratic, n_len. fold Sx Sy Sxx Sxy Syy.
  rewrite <- mean_x. ring.
Qed.

Lemma ss_yy_sums : ss_yy_of x y == Syy - n * (my * my).
Proof.
  unfold ss_yy_of. fold my.
  rewrite (sum_over_snd (fun yi => Qsq (yi - my)) x y Hlen). fold ps.
  rewrite (sumf_ext _ (fun p => my * my + 0 * fst p + (- (2) * my) * snd p
                                + 0 * (fst p * fst p) + 0 * (fst p * snd p)
                                + 1 * (snd p * snd p)))
    by (intros; unfold Qsq; ring).
  rewrite sumf_quadratic, n_len. fold Sx Sy Sxx Sxy Syy.
  rewrite <- mean_y. ring.
Qed.

Lemma ss_xy_sums : ss_xy_of x y == Sxy - n * (mx * my).
Proof.
  unfold ss_xy_of. fold mx my ps.
  change (Qsum (map ?f ps)) with (sumf f ps).
  rewrite (sumf_ext _ (fun p => mx * my + (- my) * fst p + (- mx) * snd p
                                + 0 * (fst p * fst p) + 1 * (fst p * snd p)
                                + 0 * (snd p * snd p)))
    by (intros [a b] _; cbn [fst snd]; ring).
  rewrite sumf_quadratic, n_len. fold Sx Sy Sxx Sxy Syy.
  rewrite <- mean_x, <- mean_y. ring.
Qed.

(** The centred sums as sums of centred terms. *)
Lemma ss_xx_centred : ss_xx_of x = sumf (fun p => Qsq (fst p - mx)) ps.
Proof. unfold ss_xx_of. fold mx. now rewrite (sum_over_fst _ x y Hlen). Qed.

Lemma ss_yy_centred : ss_yy_of x y = sumf (fun p => Qsq (snd p - my)) ps.
Proof. unfold ss_yy_of. fold my. now rewrite (sum_over_snd _ x y Hlen). Qed.

Lemma ss_xy_centred :
  ss_xy_of x y == sumf (fun p => (fst p - mx) * (snd p - my)) ps.
Proof.
  unfold ss_xy_of. fold mx my ps.
  change (Qsum (map ?f ps)) with (sumf f ps).
  apply sumf_ext. intros [a b] _. reflexivity.
Qed.

Lemma ss_xx_nonneg : 0 <= ss_xx_of x.
Proof. rewrite ss_xx_centred. apply sumf_nonneg. intros. apply Qsq_nonneg. Qed.

Lemma ss_yy_nonneg : 0 <= ss_yy_of x y.
Proof. rewrite ss_yy_centred. apply sumf_nonneg. intros. apply Qsq_nonneg. Qed.

Lemma ss_cauchy_schwarz : Qsq (ss_xy_of x y) <= ss_xx_of x * ss_yy_of x y.
Proof.
  rewrite ss_xx_centred, ss_yy_centred.
  unfold Qsq at 1. rewrite ss_xy_centred.
  apply (sumf_cauchy_schwarz (fun p => fst p - mx) (fun p => snd p - my)).
Qed.

Lemma ss_xx_zero_all_equal : ss_xx_of x == 0 -> all_equal x.
Proof.
  intros Hz.
  assert (Hall : forall a, In a x -> a == mx).
  { intros a Ha.
    assert (Hin : exists p, In p ps /\ fst p = a).
    { unfold ps. rewrite <- (combine_fst x y Hlen) in Ha.
      apply in_map_iff in Ha. destruct Ha as (p & <- & Hp). eauto. }
    destruct Hin as (p & Hp & <-).
    rewrite ss_xx_centred in Hz.
    pose proof (sumf_zero _ ps (fun q _ => Qsq_nonneg (fst q - mx)) Hz p Hp) as H0.
    cbn beta in H0. unfold Qsq in H0.
    destruct (Qeq_dec (fst p) mx) as [E|NE]; [exact E|exfalso].
    assert (0 < (fst p - mx) * (fst p - mx)).
    { destruct (Qlt_le_dec (fst p) mx).
      - setoid_replace ((fst p - mx) * (fst p - mx)) with ((mx - fst p) * (mx - fst p)) by ring.
        apply Qmult_lt_0_compat; lra.
      - apply Qmult_lt_0_compat; lra. }
    lra. }
  intros a b Ha Hb. rewrite (Hall a Ha), (Hall b Hb). reflexivity.
Qed.

Section Minimum.
Hypothesis Hxx : ~ ss_xx_of x == 0.

Let astar := ols_slope x y.
Let bstar := ols_intercept x y.
Let e (p : Q * Q) := snd p - (astar * fst p + bstar).

Lemma slope_equation : astar * (Sxx - n * (mx * mx)) == Sxy - n * (mx * my).
Proof.
  rewrite <- ss_xx_sums, <- ss_xy_sums. unfold astar, ols_slope.
  field. exact Hxx.
Qed.

Lemma residuals_sum_zero : sumf e ps == 0.
Proof.
  unfold e.
  rewrite (sumf_ext _ (fun p => (- bstar) + (- astar) * fst p + 1 * snd p
                                + 0 * (fst p * fst p) + 0 * (fst p * snd p)
                                + 0 * (snd p * snd p)))
    by (intros; ring).
  rewrite sumf_quadratic, n_len. fold Sx Sy Sxx Sxy Syy.
  rewrite <- mean_x, <- mean_y.
  unfold bstar, ols_intercept. fold astar mx my. ring.
Qed.

Lemma residuals_orthogonal : sumf (fun p => e p * fst p) ps == 0.
Proof.
  unfold e.
  rewrite (sumf_ext _ (fun p => 0 + (- bstar) * fst p + 0 * snd p
                                + (- astar) * (fst p * fst p) + 1 * (fst p * snd p)
                                + 0 * (snd p * snd p)))
    by (intros; ring).
  rewrite sumf_quadratic, n_len. fold Sx Sy Sxx Sxy Syy.
  rewrite <- mean_x.
  unfold bstar, ols_intercept. fold astar mx my.
  pose proof slope_equation as E.
  setoid_replace (0 * n + - (my - astar * mx) * (n * mx) + 0 * Sy + - astar * Sxx
                  + 1 * Sxy + 0 * Syy)
    with ((Sxy - n * (mx * my)) - astar * (Sxx - n * (mx * mx))) by ring.
  rewrite E. ring.
Qed.

Lemma sse_minimal (a b : Q) : sse x y astar bstar <= sse x y a b.
Proof.
  unfold sse. fold ps.
  set (w := fun p : Q * Q => (astar - a) * fst p + (bstar - b)).
  rewrite (sumf_ext (fun p => Qsq (snd p - (astar * fst p + bstar)))
                    (fun p => e p * e p))
    by (intros; unfold Qsq, e; ring).
  rewrite (sumf_ext (fun p => Qsq (snd p - (a * fst p + b)))
                    (fun p => e p * e p
                              + ((2 * (astar - a)) * (e p * fst p)
                                 + ((2 * (bstar - b)) * e p + w p * w p))))
    by (intros; unfold Qsq, e, w; ring).
  rewrite !sumf_plus, !sumf_scale.
  rewrite residuals_sum_zero, residuals_orthogonal.
  assert (0 <= sumf (fun p => w p * w p) ps)
    by (apply sumf_nonneg; intros; apply Qsq_nonneg).
  lra.
Qed.

End Minimum.
End LeastSquares.

Lemma regression_coefficients (x y : list Q) :
  (2 <= len x)%Z -> ~ ss_xx_of x == 0 ->
  slope (_calculate_linear_regression x y) = py_round (ols_slope x y) 6 /\
  intercept (_calculate_linear_regression x y) = py_round (ols_intercept x y) 4.
Proof.
  intros Hn Hxx. unfold _calculate_linear_regression.
  destruct (len x <? 2)%Z eqn:E; [apply Z.ltb_lt in E; lia|].
  fold (mean_of (len x) x) (mean_of (len x) y).
  fold (ss_xx_of x) (ss_yy_of x y) (ss_xy_of x y).
  destruct (Qeq_bool (ss_xx_of x) 0) eqn:E0;
    [apply Qeq_bool_iff in E0; contradiction|].
  cbn [slope intercept]. split; reflexivity.
Qed.

Lemma regression_r_squared_range (x y : list Q) :
  List.length x = List.length y ->
  0 <= r_squared (_calculate_linear_regression x y) <= 1.
Proof.
  intros Hlen. unfold _calculate_linear_regression.
  destruct (len x <? 2)%Z eqn:E; [cbn; lra|].
  apply Z.ltb_ge in E.
  fold (mean_of (len x) x) (mean_of (len x) y).
  fold (ss_xx_of x) (ss_yy_of x y) (ss_xy_of x y).
  destruct (if Qeq_bool (ss_xx_of x) 0 then _ else _) as [sl ic].
  cbn [r_squared].
  change 0 with (inject_Z 0). change 1 with (inject_Z 1).
  apply py_round_range.
  change (inject_Z 0) with 0. change (inject_Z 1) with 1.
  assert (Hn : (1 <= len x)%Z) by lia.
  destruct (Qeq_bool (ss_yy_of x y) 0) eqn:Eyy.
  { destruct (Qeq_bool (ss_xy_of x y) 0); lra. }
  destruct (Qltb 0 (ss_xx_of x)) eqn:Exx; [|lra].
  apply Qltb_true in Exx.
  assert (Hyy : 0 < ss_yy_of x y).
  { pose proof (ss_yy_nonneg x y Hlen).
    destruct (Qeq_dec (ss_yy_of x y) 0) as [Z|NZ]; [|lra].
    apply Qeq_bool_iff in Z. congruence. }
  assert (Hd : 0 < ss_xx_of x * ss_yy_of x y) by (now apply Qmult_lt_0_compat).
  pose proof (ss_cauchy_schwarz x y Hlen) as CS.
  split.
  - apply Qle_shift_div_l; [exact Hd|]. rewrite Qmult_0_l. apply Qsq_nonneg.
  - apply Qle_shift_div_r; [exact Hd|]. rewrite Qmult_1_l. exact CS.
Qed.

Lemma short_list_all_equal (x : list Q) : (len x < 2)%Z -> all_equal x.
Proof.
  destruct x as [|a [|b x]]; unfold len; cbn [List.length]; intros H.
  - intros ? ? [].
  - intros ? ? [<-|[]] [<-|[]]. reflexivity.
  - lia.
Qed.

(** C7, as stated, fails: the returned coefficients are rounded.  For
    the points (0,0), (1,0), (2,1) the least-squares line is
    [x/2 - 1/6]; the returned intercept is -0.1667, and the returned
    pair has a larger sum of squared residuals than [(1/2, -1/6)]. *)
Lemma rounded_intercept_counterexample :
  List.length xs_three = List.length ys_three /\
  ~ all_equal xs_three /\
  intercept (_calculate_linear_regression xs_three ys_three) == -0.1667 /\
  ~ (forall a b,
       sse xs_three ys_three
           (slope (_calculate_linear_regression xs_three ys_three))
           (intercept (_calculate_linear_regression xs_three ys_three))
       <= sse xs_three ys_three a b).
Proof.
  split; [reflexivity|]. split; [|split].
  - intros H. specialize (H 0 1 (or_introl eq_refl) (or_intror (or_introl eq_refl))).
    discriminate H.
  - vm_compute. reflexivity.
  - intros H. specialize (H (1 # 2) (- (1 # 6))). vm_compute in H. apply H. reflexivity.
Qed.

(** C7 (amended): for lists of equal length, [r_squared] lies in [0, 1];
    and when the [x] values are not all equal, the returned slope and
    intercept are the ordinary-least-squares coefficients of [y] on [x]
    (the pair minimising the sum of squared residuals), rounded to six
    and to four decimals. *)
Theorem regression_least_squares (x y : list Q) :
  List.length x = List.length y ->
  0 <= r_squared (_calculate_linear_regression x y) <= 1 /\
  (~ all_equal x ->
     slope (_calculate_linear_regression x y) = py_round (ols_slope x y) 6 /\
     intercept (_calculate_linear_regression x y) = py_round (ols_intercept x y) 4 /\
     forall a b, sse x y (ols_slope x y) (ols_intercept x y) <= sse x y a b).
Proof.
  intros Hlen. split; [now apply regression_r_squared_range|].
  intros Hne.
  assert (Hn : (2 <= len x)%Z).
  { destruct (Z_lt_le_dec (len x) 2) as [L|L]; [|exact L].
    exfalso. apply Hne. now apply short_list_all_equal. }
  assert (Hxx : ~ ss_xx_of x == 0).
  { intros Hz. apply Hne. exact (ss_xx_zero_all_equal x y Hlen Hz). }
  destruct (regression_coefficients x y Hn Hxx) as [Hs Hi].
  split; [exact Hs|]. split; [exact Hi|].
  intros a b. apply sse_minimal; [exact Hlen|lia|exact Hxx].
Qed.

Lemma regression_least_squares_witness :
  0 <= r_squared (_calculate_linear_regression xs_three ys_three) <= 1 /\
  slope (_calculate_linear_regression xs_three ys_three)
    = py_round (ols_slope xs_three ys_three) 6 /\
  sse xs_three ys_three (ols_slope xs_three ys_three) (ols_intercept xs_three ys_three)
    <= sse xs_three ys_three 1 0.
Proof.
  destruct (regression_least_squares xs_three ys_three eq_refl) as [Hr Hc].
  split; [exact Hr|].
  assert (Hne : ~ all_equal xs_three).
  { intros H. specialize (H 0 1 (or_introl eq_refl) (or_intror (or_introl eq_refl))).
    discriminate H. }
  destruct (Hc Hne) as (Hs & _ & Hm).
  split; [exact Hs|apply Hm].
Defined.

End Regression.

(** ** Order of the input *)

Section InputOrder.
Local Open Scope Z_scope.

Lemma collect_perm {A B : Type} (body : A -> res (option B)) (l l' : list A)
    (r : list B) :
  Permutation l l' -> collect body l = Ok r ->
  exists r', collect body l' = Ok r' /\ Permutation r r'.
Proof.
  intros P. revert r. induction P as [|a l l' P IH|a b l|l l' l'' P1 IH1 P2 IH2]; intros r H.
  - exists r. split; [exact H|reflexivity].
  - cbn in H |- *. destruct (body a) as [o|]; [|discriminate]. cbn [bind] in H |- *.
    destruct (collect body l) as [rs|] eqn:E; [|discriminate]. cbn [bind] in H.
    injection H as <-.
    destruct (IH rs eq_refl) as (rs' & -> & Prs). cbn [bind].
    eexists. split; [reflexivity|]. destruct o; [now constructor|exact Prs].
  - cbn in H |- *.
    destruct (body b) as [ob|]; [|discriminate]. cbn [bind] in H |- *.
    destruct (body a) as [oa|]; [|discriminate]. cbn [bind] in H |- *.
    destruct (collect body l) as [rs|]; [|discriminate]. cbn [bind] in H |- *.
    injection H as <-. eexists. split; [reflexivity|].
    destruct oa, ob; try reflexivity. apply perm_swap.
  - destruct (IH1 r H) as (r' & H' & P'). destruct (IH2 r' H') as (r'' & H'' & P'').
    exists r''. split; [exact H''|]. now transitivity r'.
Qed.

Lemma perm_len {A : Type} (l l' : list A) : Permutation l l' -> len l = len l'.
Proof. intros P. unfold len. now rewrite (Permutation_length P). Qed.

Lemma perm_short {A : Type} (l l' : list A) :
  Permutation l l' -> len l < 2 -> l = l'.
Proof.
  intros P H. destruct l as [|a [|b l]].
  - apply Permutation_nil in P. now subst.
  - apply Permutation_length_1_inv in P. now subst.
  - unfold len in H. cbn in H. lia.
Qed.

(** Two sorted lists with the same elements are equal when equal keys
    mean equal elements. *)
Lemma sorted_perm_eq {A : Type} (key : A -> Z) (s s' : list A) :
  StronglySorted (fun a b => key a <= key b) s ->
  StronglySorted (fun a b => key a <= key b) s' ->
  Permutation s s' ->
  (forall a b, In a s -> In b s -> key a = key b -> a = b) ->
  s = s'.
Proof.
  intros Hs. revert s'. induction Hs as [|a s Hs IH Ha]; intros s' Hs' P Inj.
  - apply Permutation_nil in P. now subst.
  - destruct Hs' as [|b s' Hs' Hb].
    + apply Permutation_sym, Permutation_nil in P. discriminate.
    + assert (Hab : a = b).
      { assert (Ia : In a (b :: s')) by (apply (Permutation_in _ P); now left).
        assert (Ib : In b (a :: s)) by (apply (Permutation_in _ (Permutation_sym P)); now left).
        rewrite Forall_forall in Ha, Hb.
        destruct Ia as [E|Ia]; [now symmetry|].
        destruct Ib as [E|Ib]; [exact E|].
        apply Inj; [now left|now right|].
        specialize (Ha _ Ib). specialize (Hb _ Ia). lia. }
      subst b. f_equal.
      apply IH; [exact Hs'|now apply Permutation_cons_inv in P|].
      intros x z Hx Hz. apply Inj; now right.
Qed.

Lemma sort_key_perm_eq {A : Type} (key : A -> Z) (l l' : list A) :
  Permutation l l' ->
  (forall a b, In a l -> In b l -> key a = key b -> a = b) ->
  sort_key key l = sort_key key l'.
Proof.
  intros P Inj. apply (sorted_perm_eq key); try apply sort_key_sorted.
  - rewrite (sort_key_perm key l), (sort_key_perm key l'). exact P.
  - intros a b Ha Hb. apply Inj; apply (Permutation_in _ (sort_key_perm key l)); assumption.
Qed.

Lemma sort_by_perm {A : Type} (aw : A -> bool) (key : A -> Z) (l l' s : list A) :
  Permutation l l' ->
  (forall a b, In a l -> In b l -> key a = key b -> a = b) ->
  sort_by (guarded_lt aw key) l = Ok s ->
  sort_by (guarded_lt aw key) l' = Ok s.
Proof.
  intros P Inj H. destruct (sort_by_ok aw key l s H) as [U ->].
  rewrite (sort_by_uniform aw key l') by (now apply (uniform_perm aw l)).
  f_equal. symmetry. now apply sort_key_perm_eq.
Qed.

Lemma sort_datetimes_perm_ok (l l' s : list datetime) :
  Permutation l l' -> sort_datetimes l = Ok s ->
  exists s', sort_datetimes l' = Ok s'.
Proof.
  intros P H. destruct (sort_datetimes_ok l s H) as [U _].
  eexists. apply sort_datetimes_uniform. now apply (uniform_perm is_aware l).
Qed.

Lemma span_days_perm (l l' : list datetime) :
  Permutation l l' -> span_days l = span_days l'.
Proof.
  intros P. unfold span_days.
  pose proof (Permutation_map dt_key P) as Pk.
  now rewrite (Zmax_list_perm _ _ Pk), (Zmin_list_perm _ _ Pk).
Qed.

Lemma commit_frequency_perm (now : clock) (commits commits' : list value)
    (r : commit_frequency_result) :
  Permutation commits commits' ->
  compute_commit_frequency now commits = Ok r ->
  compute_commit_frequency now commits' = Ok r.
Proof.
  intros P H.
  destruct commits as [|c rest].
  { apply Permutation_nil in P. now subst. }
  destruct commits' as [|c' rest'].
  { apply Permutation_sym, Permutation_nil in P. discriminate. }
  remember (c :: rest) as commits eqn:Ec.
  remember (c' :: rest') as commits' eqn:Ec'.
  destruct (commit_dates now commits) as [dates|e] eqn:Hd.
  2:{ unfold compute_commit_frequency in H. rewrite Ec, <- Ec, Hd in H. discriminate. }
  destruct (collect_perm _ _ _ _ P Hd) as (dates' & Hd' & Pd).
  fold (commit_dates now commits') in Hd'.
  destruct (Z_lt_le_dec (len dates) 2) as [L|L].
  - unfold compute_commit_frequency in H |- *.
    rewrite Ec, <- Ec, Hd in H. rewrite Ec', <- Ec', Hd'. cbn [bind] in H |- *.
    rewrite <- (perm_len _ _ Pd), <- (perm_len _ _ P).
    destruct (len dates <? 2) eqn:E; [exact H|apply Z.ltb_ge in E; lia].
  - rewrite (commit_frequency_main now commits dates Hd L) in H.
    rewrite (commit_frequency_main now commits' dates' Hd')
      by (rewrite <- (perm_len _ _ Pd); exact L).
    destruct (sort_datetimes dates) as [s|] eqn:Es; [|discriminate].
    destruct (sort_datetimes_perm_ok _ _ _ Pd Es) as (s' & ->).
    rewrite <- H. unfold commit_frequency_of.
    rewrite <- (span_days_perm _ _ Pd), <- (perm_len _ _ P). reflexivity.
Qed.

Lemma normalize_comp (v v' lo hi : Q) (inv : bool) :
  (v == v')%Q -> _normalize_score v lo hi inv = _normalize_score v' lo hi inv.
Proof.
  intros E. unfold _normalize_score.
  destruct (Qeq_bool hi lo); [reflexivity|].
  apply py_round_comp.
  fold (clamp01 ((v - lo) / (hi - lo))) (clamp01 ((v' - lo) / (hi - lo))).
  assert (Ec : (clamp01 ((v - lo) / (hi - lo)) == clamp01 ((v' - lo) / (hi - lo)))%Q).
  { apply clamp01_comp. rewrite E. reflexivity. }
  destruct inv; rewrite Ec; reflexivity.
Qed.

Lemma Qsum_perm (l l' : list Q) : Permutation l l' -> (Qsum l == Qsum l')%Q.
Proof.
  induction 1 as [|a l l' P IH|a b l|l l' l'' P1 IH1 P2 IH2].
  - reflexivity.
  - rewrite !Qsum_cons, IH. reflexivity.
  - rewrite !Qsum_cons. ring.
  - now rewrite IH1.
Qed.

Lemma issue_resolution_closed (now : clock) (issues : list value) :
  compute_issue_resolution now issues
  = match resolution_times now issues with
    | Ok times => Ok (issue_resolution_of issues times)
    | Raise e => Raise e
    end.
Proof.
  unfold compute_issue_resolution, issue_resolution_of.
  destruct issues as [|i rest]; [reflexivity|].
  destruct (resolution_times now (i :: rest)) as [[|t ts]|]; reflexivity.
Qed.

Lemma issue_resolution_perm (now : clock) (issues issues' : list value)
    (r : issue_resolution_result) :
  Permutation issues issues' ->
  compute_issue_resolution now issues = Ok r ->
  exists times times' r',
    resolution_times now issues = Ok times /\
    resolution_times now issues' = Ok times' /\
    Permutation times times' /\
    r = issue_resolution_of issues times /\
    compute_issue_resolution now issues' = Ok r' /\
    r' = issue_resolution_of issues' times' /\
    ir_resolved_count r' = ir_resolved_count r /\
    ir_total_issues r' = ir_total_issues r.
Proof.
  intros P H. rewrite issue_resolution_closed in H.
  destruct (resolution_times now issues) as [times|] eqn:Ht; [|discriminate].
  injection H as <-.
  destruct (collect_perm _ _ _ _ P Ht) as (times' & Ht' & Pt).
  fold (resolution_times now issues') in Ht'.
  exists times, times', (issue_resolution_of issues' times').
  rewrite issue_resolution_closed, Ht'.
  repeat split; try assumption.
  - unfold issue_resolution_of.
    destruct times as [|t ts]; destruct times' as [|t' ts'];
      cbn [ir_resolved_count]; try reflexivity.
    + apply Permutation_nil in Pt. discriminate.
    + apply Permutation_sym, Permutation_nil in Pt. discriminate.
    + symmetry. now apply perm_len.
  - unfold issue_resolution_of.
    destruct times, times'; cbn [ir_total_issues]; symmetry; now apply perm_len.
Qed.

Lemma NoDup_map_injective {A B : Type} (f : A -> B) (l : list A) :
  NoDup (map f l) -> forall a b, In a l -> In b l -> f a = f b -> a = b.
Proof.
  induction l as [|x l IH]; intros N a b Ha Hb E; [destruct Ha|].
  cbn in N. inversion N as [|? ? Hx Hl]; subst.
  destruct Ha as [<-|Ha], Hb as [<-|Hb].
  - reflexivity.
  - exfalso. apply Hx. rewrite E. now apply in_map.
  - exfalso. apply Hx. rewrite <- E. now apply in_map.
  - now apply IH.
Qed.

Lemma issue_trend_perm (now : clock) (issues issues' : list value)
    (resolved : list resolved_issue) (r : issue_trend_result) :
  Permutation issues issues' ->
  resolved_issues_of now issues = Ok resolved ->
  NoDup (map closing_instant resolved) ->
  compute_issue_trend now issues = Ok r ->
  compute_issue_trend now issues' = Ok r.
Proof.
  intros P Hr Nd H.
  destruct issues as [|i rest].
  { apply Permutation_nil in P. now subst. }
  destruct issues' as [|i' rest'].
  { apply Permutation_sym, Permutation_nil in P. discriminate. }
  remember (i :: rest) as issues eqn:Ei.
  remember (i' :: rest') as issues' eqn:Ei'.
  destruct (collect_perm _ _ _ _ P Hr) as (resolved' & Hr' & Pr).
  fold (resolved_issues_of now issues') in Hr'.
  unfold compute_issue_trend in H |- *.
  rewrite Ei, <- Ei, Hr in H. rewrite Ei', <- Ei', Hr'. cbn [bind] in H |- *.
  rewrite <- (perm_len _ _ Pr).
  destruct (len resolved <? 2) eqn:E.
  - apply Z.ltb_lt in E. rewrite <- (perm_short _ _ Pr E). exact H.
  - set (lt := fun a b : resolved_issue => datetime_lt (closed_date a) (closed_date b)) in *.
    destruct (sort_by lt resolved) as [s|] eqn:Es; [|discriminate].
    assert (Es' : sort_by lt resolved' = Ok s).
    { unfold lt in *.
      change (fun a b : resolved_issue => datetime_lt (closed_date a) (closed_date b))
        with (guarded_lt (fun x => is_aware (closed_date x)) closing_instant) in *.
      apply (sort_by_perm _ _ resolved);
        [exact Pr | now apply NoDup_map_injective | exact Es]. }
    rewrite Es'. exact H.
Qed.

End InputOrder.

(** ** The clock *)

Section Clock.
Local Open Scope Z_scope.

Lemma parse_clock_free (now now' : clock) (v : value) :
  parses v = true -> _parse_datetime now v = _parse_datetime now' v.
Proof.
  destruct v; try reflexivity. cbn.
  destruct (fromisoformat _); [reflexivity|].
  destruct (strptime _ FORMAT_DATETIME); [reflexivity|].
  destruct (strptime _ FORMAT_DATE); [reflexivity|discriminate].
Qed.

Lemma parse_if_used_clock_free (now now' : clock) (v : value) :
  parses_if_used v = true -> truthy v = true ->
  _parse_datetime now v = _parse_datetime now' v.
Proof.
  unfold parses_if_used. intros H T. rewrite T in H. cbn in H.
  now apply parse_clock_free.
Qed.

Lemma collect_ext {A B : Type} (f g : A -> res (option B)) (l : list A) :
  (forall a, In a l -> f a = g a) -> collect f l = collect g l.
Proof.
  induction l as [|a l IH]; intros H; [reflexivity|].
  cbn. rewrite (H a) by now left. rewrite IH by (intros; apply H; now right).
  reflexivity.
Qed.

Lemma commit_dates_clock_free (now now' : clock) (commits : list value) :
  forallb commit_parses commits = true ->
  commit_dates now commits = commit_dates now' commits.
Proof.
  intros H. apply collect_ext. intros c Hc.
  rewrite forallb_forall in H. specialize (H c Hc).
  unfold commit_parses in H. unfold commit_datetime.
  destruct (commit_date c) as [v|]; [|reflexivity]. cbn [bind].
  destruct (truthy v) eqn:T; [|reflexivity].
  now rewrite (parse_if_used_clock_free now now' v).
Qed.

Lemma commit_frequency_clock_free (now now' : clock) (commits : list value) :
  forallb commit_parses commits = true ->
  compute_commit_frequency now commits = compute_commit_frequency now' commits.
Proof.
  intros H. pose proof (commit_dates_clock_free now now' commits H) as Hd.
  destruct (commit_dates now commits) as [dates|e] eqn:E.
  - destruct (Z_lt_le_dec (len dates) 2) as [L|L].
    + unfold compute_commit_frequency. rewrite <- Hd, E.
      destruct commits; [reflexivity|]. cbn [bind].
      destruct (len dates <? 2) eqn:E2; [reflexivity|apply Z.ltb_ge in E2; lia].
    + rewrite (commit_frequency_main now commits dates E L).
      rewrite (commit_frequency_main now' commits dates (eq_sym Hd) L). reflexivity.
  - unfold compute_commit_frequency. rewrite <- Hd, E.
    destruct commits; reflexivity.
Qed.

Lemma commit_trend_clock_free (now now' : clock) (commits : list value) :
  forallb commit_parses commits = true ->
  compute_commit_trend now commits = compute_commit_trend now' commits.
Proof.
  intros H. pose proof (commit_dates_clock_free now now' commits H) as Hd.
  unfold compute_commit_trend. rewrite <- Hd.
  destruct commits as [|c rest]; [reflexivity|].
  destruct (commit_dates now (c :: rest)) as [dates|e]; [|reflexivity]. cbn [bind].
  destruct (len dates <? 2) eqn:E2; [reflexivity|].
  destruct (sort_datetimes dates) as [s|e] eqn:Es; [|reflexivity]. cbn [bind].
  destruct s as [|a s]; [|reflexivity].
  exfalso. destruct (sort_datetimes_ok _ _ Es) as [_ Hs].
  pose proof (sort_key_perm dt_key dates) as P. rewrite <- Hs in P.
  apply Permutation_nil in P. subst dates. discriminate E2.
Qed.

Lemma issue_fields_clock_free (now now' : clock) (issue : value) :
  issue_parses issue = true ->
  issue_resolution_days now issue = issue_resolution_days now' issue /\
  resolved_issue_of now issue = resolved_issue_of now' issue.
Proof.
  intros H. destruct issue as [| | | | | |d|]; try (split; reflexivity).
  unfold issue_parses in H.
  unfold issue_resolution_days, resolved_issue_of, py_get.
  cbn [bind].
  destruct (match dict_get d "state" with Some v => v | None => VStr "" end)
    as [| | | |state| | |]; try (split; reflexivity).
  cbn [py_lower bind].
  destruct (String.eqb (str_lower state) "closed"); [|split; reflexivity].
  cbn [negb]. cbv zeta in H.
  set (created_at := match dict_get d "created_at" with Some v => v | None => VNone end) in *.
  set (closed_at := match dict_get d "closed_at" with Some v => v | None => VNone end) in *.
  destruct (truthy created_at && truthy closed_at); [|split; reflexivity].
  apply andb_true_iff in H. destruct H as [Hc Hl].
  rewrite (parse_clock_free now now' created_at Hc).
  rewrite (parse_clock_free now now' closed_at Hl).
  split; reflexivity.
Qed.

Lemma issue_resolution_clock_free (now now' : clock) (issues : list value) :
  forallb issue_parses issues = true ->
  compute_issue_resolution now issues = compute_issue_resolution now' issues.
Proof.
  intros H. unfold compute_issue_resolution, resolution_times.
  rewrite (collect_ext (resolution_time now) (resolution_time now') issues);
    [reflexivity|].
  intros i Hi. rewrite forallb_forall in H. unfold resolution_time.
  now rewrite (proj1 (issue_fields_clock_free now now' i (H i Hi))).
Qed.

Lemma issue_trend_clock_free (now now' : clock) (issues : list value) :
  forallb issue_parses issues = true ->
  compute_issue_trend now issues = compute_issue_trend now' issues.
Proof.
  intros H. unfold compute_issue_trend, resolved_issues_of.
  rewrite (collect_ext (resolved_issue_of now) (resolved_issue_of now') issues);
    [reflexivity|].
  intros i Hi. rewrite forallb_forall in H.
  exact (proj2 (issue_fields_clock_free now now' i (H i Hi))).
Qed.

End Clock.

(** ** The calendar *)

Section Calendar.
Local Open Scope Z_scope.

Lemma forall_from_spec (fuel : nat) (start : Z) (P : Z -> bool) :
  forall_from fuel start P = true ->
  forall n, start <= n < start + Z.of_nat fuel -> P n = true.
Proof.
  revert start. induction fuel as [|fuel IH]; intros start H n Hn; [lia|].
  cbn [forall_from] in H. apply andb_true_iff in H. destruct H as [H0 H].
  destruct (Z.eq_dec n start) as [->|Hne]; [exact H0|].
  apply (IH (start + 1) H). lia.
Qed.

Lemma first_cycle_ok : forall_from (Z.to_nat _DI400Y) 1 cycle_day_ok = true.
Proof. vm_compute. reflexivity. Qed.

Lemma cycle_day (n : Z) : 1 <= n <= _DI400Y -> cycle_day_ok n = true.
Proof.
  intros H. apply (forall_from_spec _ _ _ first_cycle_ok).
  rewrite Z2Nat.id by (unfold _DI400Y; lia). lia.
Qed.

Lemma ord2ymd_cycle (n : Z) :
  _ord2ymd n
  = shift_year (400 * ((n - 1) / _DI400Y)) (_ord2ymd ((n - 1) mod _DI400Y + 1)).
Proof.
  unfold _ord2ymd.
  replace ((n - 1) mod _DI400Y + 1 - 1) with ((n - 1) mod _DI400Y) by lia.
  assert (Hr : 0 <= (n - 1) mod _DI400Y < _DI400Y)
    by (apply Z.mod_pos_bound; reflexivity).
  rewrite (Z.div_small ((n - 1) mod _DI400Y) _DI400Y) by exact Hr.
  rewrite (Z.mod_small ((n - 1) mod _DI400Y) _DI400Y) by exact Hr.
  cbv zeta.
  destruct (_ || _);
    [unfold shift_year; apply f_equal2; [apply f_equal2|]; try reflexivity; lia|].
  destruct (_ <? _); unfold shift_year;
    (apply f_equal2; [apply f_equal2|]); try reflexivity; lia.
Qed.

Lemma is_leap_shift (y q : Z) : _is_leap (y + 400 * q) = _is_leap y.
Proof.
  unfold _is_leap.
  replace ((y + 400 * q) mod 4) with (y mod 4)
    by (Z.div_mod_to_equations; lia).
  replace ((y + 400 * q) mod 100) with (y mod 100)
    by (Z.div_mod_to_equations; lia).
  replace ((y + 400 * q) mod 400) with (y mod 400)
    by (Z.div_mod_to_equations; lia).
  reflexivity.
Qed.

Lemma ymd2ord_shift (y m d q : Z) :
  _ymd2ord (y + 400 * q) m d = _ymd2ord y m d + _DI400Y * q.
Proof.
  unfold _ymd2ord, _days_before_month. rewrite is_leap_shift.
  unfold _days_before_year, _DI400Y. cbv zeta.
  Z.div_mod_to_equations. lia.
Qed.

(** Every ordinal of the calendar converts to a date whose fields are in
    range and that converts back to it. *)
Lemma ord2ymd_roundtrip (n : Z) :
  1 <= n <= MAXORDINAL ->
  let '(y, m, d) := _ord2ymd n in
  _ymd2ord y m d = n /\ 1 <= y <= 9999 /\ 1 <= m <= 12 /\ 1 <= d <= 31.
Proof.
  intros Hn. rewrite ord2ymd_cycle.
  set (q := (n - 1) / _DI400Y). set (r := (n - 1) mod _DI400Y).
  assert (Hr : 0 <= r < _DI400Y) by (apply Z.mod_pos_bound; reflexivity).
  assert (Hq : n - 1 = _DI400Y * q + r) by (apply Z.div_mod; discriminate).
  pose proof (cycle_day (r + 1) ltac:(lia)) as Hc.
  unfold cycle_day_ok in Hc.
  destruct (_ord2ymd (r + 1)) as [[y m] d].
  repeat (apply andb_true_iff in Hc; destruct Hc as [Hc ?]).
  cbn [shift_year].
  rewrite ymd2ord_shift.
  assert (0 <= q) by (unfold q; apply Z.div_pos; [lia|reflexivity]).
  unfold MAXORDINAL, _DI400Y in *.
  repeat match goal with
         | H : (_ <=? _) = true |- _ => apply Z.leb_le in H
         | H : (_ =? _) = true |- _ => apply Z.eqb_eq in H
         | H : (_ || _) = true |- _ => apply orb_true_iff in H
         | H : (_ <? _) = true |- _ => apply Z.ltb_lt in H
         end.
  assert (q <= 24) by lia.
  repeat split; lia.
Qed.

Lemma digits_of_length (n : nat) (z : Z) : List.length (digits_of n z) = n.
Proof.
  revert z. induction n as [|n IH]; intros z; [reflexivity|].
  cbn [digits_of]. rewrite length_app, IH. cbn. lia.
Qed.

Lemma ascii_of_digit_inj (a b : Z) :
  0 <= a < 10 -> 0 <= b < 10 -> ascii_of_digit a = ascii_of_digit b -> a = b.
Proof.
  intros Ha Hb H. unfold ascii_of_digit in H.
  apply (f_equal nat_of_ascii) in H.
  rewrite !nat_ascii_embedding in H by lia. lia.
Qed.

Lemma digits_of_inj (n : nat) (z z' : Z) :
  0 <= z < 10 ^ Z.of_nat n -> 0 <= z' < 10 ^ Z.of_nat n ->
  digits_of n z = digits_of n z' -> z = z'.
Proof.
  revert z z'. induction n as [|n IH]; intros z z' Hz Hz' H.
  - cbn in Hz, Hz'. lia.
  - cbn [digits_of] in H. apply app_inj_tail in H. destruct H as [Hd Hl].
    rewrite Nat2Z.inj_succ, Z.pow_succ_r in Hz, Hz' by lia.
    assert (Hq : z / 10 = z' / 10).
    { apply IH; [| |exact Hd]; split;
        try (apply Z.div_pos; lia); apply Z.div_lt_upper_bound; lia. }
    assert (Hm : z mod 10 = z' mod 10).
    { apply ascii_of_digit_inj; [apply Z.mod_pos_bound; lia..|exact Hl]. }
    rewrite (Z.div_mod z 10), (Z.div_mod z' 10) by lia. congruence.
Qed.

Lemma app_eq_length {A : Type} (a a' b b' : list A) :
  List.length a = List.length a' -> a ++ b = a' ++ b' -> a = a' /\ b = b'.
Proof.
  revert a'. induction a as [|x a IH]; intros [|x' a'] Hl H; try discriminate.
  - split; [reflexivity|exact H].
  - cbn in H. injection H as -> H. injection Hl as Hl.
    destruct (IH a' Hl H) as [-> ->]. split; reflexivity.
Qed.

(** Distinct calendar days are written differently. *)
Lemma strftime_injective (n n' : Z) :
  1 <= n <= MAXORDINAL -> 1 <= n' <= MAXORDINAL ->
  strftime_ymd (date_of_ordinal n) = strftime_ymd (date_of_ordinal n') -> n = n'.
Proof.
  intros Hn Hn' H. unfold strftime_ymd, date_of_ordinal in H. cbn [dt_day] in H.
  pose proof (ord2ymd_roundtrip n Hn) as R.
  pose proof (ord2ymd_roundtrip n' Hn') as R'.
  destruct (_ord2ymd n) as [[y m] d]. destruct (_ord2ymd n') as [[y' m'] d'].
  destruct R as (<- & Hy & Hm & Hd). destruct R' as (<- & Hy' & Hm' & Hd').
  apply (f_equal list_ascii_of_string) in H.
  rewrite !list_ascii_of_string_of_list_ascii in H.
  apply app_eq_length in H; [|now rewrite !digits_of_length].
  destruct H as [Ey H]. apply (f_equal (@tl ascii)) in H. cbn [app tl] in H.
  apply app_eq_length in H; [|now rewrite !digits_of_length].
  destruct H as [Em Ed]. apply (f_equal (@tl ascii)) in Ed. cbn [app tl] in Ed.
  apply digits_of_inj in Ey; [|cbn; lia..].
  apply digits_of_inj in Em; [|cbn; lia..].
  apply digits_of_inj in Ed; [|cbn; lia..].
  congruence.
Qed.

End Calendar.

(** ** Daily counts *)

Section DailyCounts.
Local Open Scope Z_scope.

Lemma dict_incr_count (dc : dict Z) (k k' : string) :
  dict_count (dict_incr dc k) k'
  = dict_count dc k' + (if String.eqb k k' then 1 else 0).
Proof.
  unfold dict_count. induction dc as [|[k0 n] dc IH]; cbn.
  - destruct (String.eqb k k'); reflexivity.
  - destruct (String.eqb k0 k) eqn:E0; cbn.
    + apply String.eqb_eq in E0. subst k0.
      destruct (String.eqb k k'); [lia|]. lia.
    + destruct (String.eqb k0 k') eqn:E1.
      * apply String.eqb_eq in E1. subst k0.
        rewrite String.eqb_sym, E0. lia.
      * exact IH.
Qed.

Lemma count_days_fold (dates : list datetime) (dc : dict Z) (k : string) :
  dict_count
    (fold_left (fun daily_counts date => dict_incr daily_counts (strftime_ymd date))
               dates dc) k
  = dict_count dc k
    + len (filter (fun d => String.eqb (strftime_ymd d) k) dates).
Proof.
  revert dc. induction dates as [|d dates IH]; intros dc; cbn [fold_left filter].
  - unfold len. cbn. lia.
  - rewrite IH, dict_incr_count.
    destruct (String.eqb (strftime_ymd d) k); unfold len; cbn [List.length]; lia.
Qed.

Lemma count_days_count (dates : list datetime) (k : string) :
  dict_count (count_days dates) k
  = len (filter (fun d => String.eqb (strftime_ymd d) k) dates).
Proof.
  unfold count_days. rewrite count_days_fold. reflexivity.
Qed.

Lemma filter_ext_in {A : Type} (f g : A -> bool) (l : list A) :
  (forall a, In a l -> f a = g a) -> filter f l = filter g l.
Proof.
  induction l as [|a l IH]; intros H; [reflexivity|].
  cbn. rewrite (H a) by now left. rewrite IH by (intros; apply H; now right).
  reflexivity.
Qed.

(** On valid days the count under a day's text is the number of dates of
    that day. *)
Lemma count_days_on (dates : list datetime) (n : Z) :
  Forall valid_day dates -> 1 <= n <= MAXORDINAL ->
  dict_count (count_days dates) (strftime_ymd (date_of_ordinal n))
  = count_on dates n.
Proof.
  intros Hv Hn. rewrite count_days_count. unfold count_on. f_equal.
  apply filter_ext_in. intros d Hd.
  rewrite Forall_forall in Hv. specialize (Hv d Hd).
  destruct (dt_day d =? n) eqn:E.
  - apply Z.eqb_eq in E. apply String.eqb_eq.
    unfold strftime_ymd, date_of_ordinal. cbn [dt_day]. now rewrite E.
  - apply String.eqb_neq. intros S. apply Z.eqb_neq in E. apply E.
    apply strftime_injective; [exact Hv|exact Hn|].
    unfold strftime_ymd, date_of_ordinal in *. cbn [dt_day] in *. exact S.
Qed.

Lemma zrange_nil (lo hi : Z) : hi < lo -> zrange lo hi = [].
Proof.
  intros H. unfold zrange. replace (Z.to_nat (hi - lo + 1)) with 0%nat by lia.
  reflexivity.
Qed.

Lemma zrange_cons (lo hi : Z) : lo <= hi -> zrange lo hi = lo :: zrange (lo + 1) hi.
Proof.
  intros H. unfold zrange.
  replace (Z.to_nat (hi - lo + 1)) with (S (Z.to_nat (hi - (lo + 1) + 1))) by lia.
  cbn [seq map]. f_equal; [lia|].
  rewrite <- seq_shift, map_map. apply map_ext. intros i. lia.
Qed.

Lemma zrange_In (lo hi n : Z) : In n (zrange lo hi) <-> lo <= n <= hi.
Proof.
  unfold zrange. rewrite in_map_iff. split.
  - intros (i & <- & Hi). apply in_seq in Hi. lia.
  - intros H. exists (Z.to_nat (n - lo)). split; [lia|]. apply in_seq. lia.
Qed.

(** The loop, once it returns, has produced one entry per day from
    [current_date] to [end_date]; the fuel given is enough. *)
Lemma fill_days_ok (fuel : nat) (dc : dict Z) (current_date end_date : Z)
    (ts : list (string * Z)) :
  end_date - current_date + 1 <= Z.of_nat fuel ->
  fill_days fuel dc current_date end_date = Ok ts ->
  ts = map (fun n => (strftime_ymd (date_of_ordinal n),
                      dict_count dc (strftime_ymd (date_of_ordinal n))))
           (zrange current_date end_date).
Proof.
  revert current_date ts. induction fuel as [|fuel IH]; intros cur ts Hf H.
  - cbn in H. injection H as <-. rewrite zrange_nil by lia. reflexivity.
  - cbn [fill_days] in H.
    destruct (cur <=? end_date) eqn:E.
    + apply Z.leb_le in E.
      destruct (cur =? MAXORDINAL); [discriminate|].
      destruct (fill_days fuel dc (cur + 1) end_date) as [rest|] eqn:Er; [|discriminate].
      cbn [bind] in H. injection H as <-.
      rewrite zrange_cons by exact E. cbn [map]. f_equal.
      apply IH; [lia|exact Er].
    + apply Z.leb_gt in E. injection H as <-. rewrite zrange_nil by lia. reflexivity.
Qed.

Lemma fill_days_total (fuel : nat) (dc : dict Z) (current_date end_date : Z) :
  end_date < MAXORDINAL ->
  exists ts, fill_days fuel dc current_date end_date = Ok ts.
Proof.
  intros Hm. revert current_date. induction fuel as [|fuel IH]; intros cur.
  - eexists. reflexivity.
  - cbn [fill_days]. destruct (cur <=? end_date) eqn:E; [|eexists; reflexivity].
    apply Z.leb_le in E.
    destruct (cur =? MAXORDINAL) eqn:Em; [apply Z.eqb_eq in Em; lia|].
    destruct (IH (cur + 1)) as [rest ->]. eexists. reflexivity.
Qed.

Lemma uniform_tail {A : Type} (aw : A -> bool) (a : A) (l : list A) :
  uniform aw (a :: l) -> uniform aw l.
Proof. intros U x z Hx Hz. apply U; now right. Qed.

Lemma best_by_min (best : datetime) (l : list datetime) :
  uniform is_aware (best :: l) ->
  exists m, best_by datetime_lt best l = Ok m /\ In m (best :: l)
            /\ forall x, In x (best :: l) -> dt_key m <= dt_key x.
Proof.
  revert best. induction l as [|x l IH]; intros best U.
  - exists best. split; [reflexivity|]. split; [now left|].
    intros z [<-|[]]. lia.
  - cbn [best_by]. unfold datetime_lt at 1.
    rewrite (U x best) by (cbn; auto). rewrite Bool.eqb_reflx. cbn [bind].
    destruct (IH (if dt_key x <? dt_key best then x else best)) as (m & Hm & Hin & Hle).
    { intros a b Ha Hb. apply U.
      - destruct Ha as [<-|Ha]; [destruct (_ <? _); cbn; auto|cbn; auto].
      - destruct Hb as [<-|Hb]; [destruct (_ <? _); cbn; auto|cbn; auto]. }
    exists m. split; [exact Hm|]. split.
    + destruct Hin as [<-|Hin]; [destruct (_ <? _); cbn; auto|cbn; auto].
    + intros z Hz.
      pose proof (Hle _ (or_introl eq_refl)) as H0.
      destruct (dt_key x <? dt_key best) eqn:E;
        [apply Z.ltb_lt in E|apply Z.ltb_ge in E];
        destruct Hz as [<-|[<-|Hz]]; try lia; apply Hle; now right.
Qed.

Lemma best_by_max (best : datetime) (l : list datetime) :
  uniform is_aware (best :: l) ->
  exists m, best_by (fun x b => datetime_lt b x) best l = Ok m /\ In m (best :: l)
            /\ forall x, In x (best :: l) -> dt_key x <= dt_key m.
Proof.
  revert best. induction l as [|x l IH]; intros best U.
  - exists best. split; [reflexivity|]. split; [now left|].
    intros z [<-|[]]. lia.
  - cbn [best_by]. unfold datetime_lt at 1.
    rewrite (U best x) by (cbn; auto). rewrite Bool.eqb_reflx. cbn [bind].
    destruct (IH (if dt_key best <? dt_key x then x else best)) as (m & Hm & Hin & Hle).
    { intros a b Ha Hb. apply U.
      - destruct Ha as [<-|Ha]; [destruct (_ <? _); cbn; auto|cbn; auto].
      - destruct Hb as [<-|Hb]; [destruct (_ <? _); cbn; auto|cbn; auto]. }
    exists m. split; [exact Hm|]. split.
    + destruct Hin as [<-|Hin]; [destruct (_ <? _); cbn; auto|cbn; auto].
    + intros z Hz.
      pose proof (Hle _ (or_introl eq_refl)) as H0.
      destruct (dt_key best <? dt_key x) eqn:E;
        [apply Z.ltb_lt in E|apply Z.ltb_ge in E];
        destruct Hz as [<-|[<-|Hz]]; try lia; apply Hle; now right.
Qed.

Lemma key_le_day (a b : datetime) :
  dt_offset a = dt_offset b -> wf_datetime a -> wf_datetime b ->
  dt_key a <= dt_key b -> dt_day a <= dt_day b.
Proof.
  unfold wf_datetime, dt_key. intros -> Ha Hb H.
  unfold US_PER_DAY, US_PER_SECOND in *. lia.
Qed.

Lemma Zsum_map_add (f g : Z -> Z) (l : list Z) :
  Zsum (map (fun n => f n + g n) l) = Zsum (map f l) + Zsum (map g l).
Proof.
  induction l as [|a l IH]; [reflexivity|]. cbn [map Zsum fold_right] in *.
  fold (Zsum (map (fun n => f n + g n) l)) (Zsum (map f l)) (Zsum (map g l)). lia.
Qed.

Lemma indicator_sum (fuel : nat) (lo hi k : Z) :
  Z.of_nat fuel = hi - lo + 1 ->
  Zsum (map (fun n => if k =? n then 1 else 0) (zrange lo hi))
  = if (lo <=? k) && (k <=? hi) then 1 else 0.
Proof.
  revert lo. induction fuel as [|fuel IH]; intros lo Hf.
  - rewrite zrange_nil by lia.
    destruct (lo <=? k) eqn:A, (k <=? hi) eqn:B; try reflexivity.
    apply Z.leb_le in A, B. lia.
  - rewrite zrange_cons by lia. cbn [map Zsum fold_right].
    fold (Zsum (map (fun n => if k =? n then 1 else 0) (zrange (lo + 1) hi))).
    rewrite (IH (lo + 1)) by lia.
    destruct (k =? lo) eqn:E; [apply Z.eqb_eq in E|apply Z.eqb_neq in E];
    destruct (lo <=? k) eqn:A; destruct (k <=? hi) eqn:B;
    destruct (lo + 1 <=? k) eqn:C; cbn [andb];
    try apply Z.leb_le in A; try apply Z.leb_gt in A;
    try apply Z.leb_le in B; try apply Z.leb_gt in B;
    try apply Z.leb_le in C; try apply Z.leb_gt in C; lia.
Qed.

Lemma count_on_sum (dates : list datetime) (lo hi : Z) :
  Forall (fun d => lo <= dt_day d <= hi) dates ->
  Zsum (map (count_on dates) (zrange lo hi)) = len dates.
Proof.
  induction 1 as [|d dates Hd Hall IH].
  - induction (zrange lo hi) as [|a l IHl]; [reflexivity|].
    cbn [map Zsum fold_right]. fold (Zsum (map (count_on []) l)).
    rewrite IHl. reflexivity.
  - rewrite (map_ext (count_on (d :: dates))
               (fun n => (if dt_day d =? n then 1 else 0) + count_on dates n)).
    2:{ intros n. unfold count_on, len. cbn [filter].
        destruct (dt_day d =? n); cbn [List.length]; lia. }
    rewrite Zsum_map_add, IH.
    rewrite (indicator_sum (Z.to_nat (hi - lo + 1))) by lia.
    destruct (lo <=? dt_day d) eqn:A; destruct (dt_day d <=? hi) eqn:B;
      try apply Z.leb_gt in A; try apply Z.leb_gt in B; try lia.
    unfold len. cbn [List.length andb]. lia.
Qed.

Lemma count_on_perm (l l' : list datetime) (n : Z) :
  Permutation l l' -> count_on l n = count_on l' n.
Proof.
  intros P. unfold count_on, len. f_equal. apply Permutation_length.
  induction P as [|a l l' P IH|a b l|l l' l'' P1 IH1 P2 IH2]; cbn.
  - reflexivity.
  - destruct (_ =? _); [now constructor|exact IH].
  - destruct (dt_day a =? n), (dt_day b =? n); try reflexivity. apply perm_swap.
  - now transitivity (filter (fun d => dt_day d =? n) l').
Qed.

(** X5: the daily series of [compute_commit_trend] when all dates carry
    the same UTC offset: one entry for every calendar day from the
    earliest to the latest date, in ascending order, each with the number
    of dates of that day; the counts sum to the number of dates. *)
Lemma daily_series_gap_free (now : clock) (commits : list value)
    (dates : list datetime) (r : commit_trend_result) :
  commit_dates now commits = Ok dates -> 2 <= len dates ->
  same_offset dates -> Forall wf_datetime dates -> Forall valid_day dates ->
  compute_commit_trend now commits = Ok r ->
  let lo := Zmin_list (map dt_day dates) in
  let hi := Zmax_list (map dt_day dates) in
  ct_time_series r
    = map (fun n => (strftime_ymd (date_of_ordinal n), count_on dates n))
          (zrange lo hi) /\
  Zsum (map snd (ct_time_series r)) = len dates /\
  Forall (fun entry => 0 <= snd entry) (ct_time_series r).
Proof.
  intros Hd Hlen So Wf Vd H lo hi.
  unfold compute_commit_trend in H.
  destruct commits as [|c rest].
  { cbn in Hd. injection Hd as <-. cbn in Hlen. lia. }
  rewrite Hd in H. cbn [bind] in H.
  destruct (len dates <? 2) eqn:E2; [apply Z.ltb_lt in E2; lia|].
  destruct (sort_datetimes dates) as [s|] eqn:Es; [|discriminate].
  cbn [bind] in H.
  destruct (sort_datetimes_ok _ _ Es) as [U Hs].
  assert (P : Permutation s dates) by (rewrite Hs; apply sort_key_perm).
  assert (Us : uniform is_aware s) by (apply (uniform_perm is_aware dates); [now symmetry|exact U]).
  destruct s as [|a t].
  { apply Permutation_nil in P. subst dates. cbn in Hlen. lia. }
  unfold min_datetime, max_datetime in H.
  destruct (best_by_min a t Us) as (m & Hm & Hmin & Hmle).
  destruct (best_by_max a t Us) as (M & HM & HMin & HMle).
  rewrite Hm in H. cbn [bind] in H. rewrite HM in H. cbn [bind] in H.
  destruct (fill_days _ _ _ _) as [ts|] eqn:Ef; [|discriminate].
  cbn [bind] in H. injection H as <-. cbn [ct_time_series].
  apply fill_days_ok in Ef; [|lia].
  assert (Hin : forall x, In x (a :: t) -> In x dates)
    by (intros x Hx; now apply (Permutation_in _ P)).
  assert (Hin' : forall x, In x dates -> In x (a :: t))
    by (intros x Hx; now apply (Permutation_in _ (Permutation_sym P))).
  pose proof Wf as Wf'. rewrite Forall_forall in Wf'.
  assert (Elo : dt_day m = lo).
  { symmetry. apply Zmin_list_unique.
    - apply in_map. now apply Hin.
    - rewrite Forall_map, Forall_forall. intros x Hx.
      apply key_le_day; auto. }
  assert (Ehi : dt_day M = hi).
  { symmetry. apply Zmax_list_unique.
    - apply in_map. now apply Hin.
    - rewrite Forall_map, Forall_forall. intros x Hx.
      apply key_le_day; auto. }
  rewrite Elo, Ehi in Ef.
  pose proof Vd as Vd'. rewrite Forall_forall in Vd'.
  assert (Vlo : 1 <= lo) by (rewrite <- Elo; apply Vd'; auto).
  assert (Vhi : hi <= MAXORDINAL) by (rewrite <- Ehi; apply Vd'; auto).
  assert (Ets : ts = map (fun n => (strftime_ymd (date_of_ordinal n), count_on dates n))
                         (zrange lo hi)).
  { rewrite Ef. apply map_ext_in. intros n Hn. apply zrange_In in Hn.
    f_equal. rewrite count_days_on.
    - now apply count_on_perm.
    - apply (Permutation_Forall (Permutation_sym P)). exact Vd.
    - lia. }
  split; [exact Ets|]. split.
  - rewrite Ets, map_map. cbn [snd].
    apply count_on_sum. rewrite Forall_forall. intros d Hd'.
    assert (Hall_lo : Forall (fun z => lo <= z) (map dt_day dates)).
    { apply Zmin_list_spec. intros E. destruct dates; [destruct Hd'|discriminate]. }
    assert (Hall_hi : Forall (fun z => z <= hi) (map dt_day dates)).
    { apply Zmax_list_spec. intros E. destruct dates; [destruct Hd'|discriminate]. }
    rewrite Forall_forall in Hall_lo, Hall_hi.
    split; [apply Hall_lo|apply Hall_hi]; now apply in_map.
  - rewrite Ets, Forall_map, Forall_forall. intros n _. cbn [snd].
    unfold count_on. apply len_nonneg.
Qed.

Lemma daily_series_gap_free_witness :
  match compute_commit_trend sample_clock sample_commits with
  | Ok r =>
      List.length (ct_time_series r) = 10%nat /\
      Zsum (map snd (ct_time_series r)) = 3
  | Raise _ => False
  end.
Proof.
  destruct (compute_commit_trend sample_clock sample_commits) as [r|e] eqn:E.
  - assert (So : same_offset sample_dates).
    { intros a b Ha Hb. cbn in Ha, Hb.
      repeat (destruct Ha as [<-|Ha]); try destruct Ha;
        repeat (destruct Hb as [<-|Hb]); try destruct Hb; reflexivity. }
    destruct (daily_series_gap_free sample_clock sample_commits sample_dates r)
      as (Hs & Ht & _).
    + vm_compute. reflexivity.
    + vm_compute. discriminate.
    + exact So.
    + repeat constructor; vm_compute; congruence.
    + repeat constructor; vm_compute; congruence.
    + exact E.
    + split; [rewrite Hs; vm_compute; reflexivity|].
      rewrite Ht. vm_compute. reflexivity.
  - vm_compute in E. discriminate.
Defined.

Lemma same_offset_uniform (dates : list datetime) :
  same_offset dates -> uniform is_aware dates.
Proof.
  intros So a b Ha Hb. unfold is_aware. now rewrite (So a b Ha Hb).
Qed.

(** X6: when all collected dates carry one common UTC offset (or none)
    and none falls on the last day of the calendar, 9999-12-31,
    [compute_commit_trend] returns a result: it raises nothing. *)
Lemma commit_trend_returns (now : clock) (commits : list value)
    (dates : list datetime) :
  commit_dates now commits = Ok dates ->
  same_offset dates ->
  Zmax_list (map dt_day dates) < MAXORDINAL ->
  exists r, compute_commit_trend now commits = Ok r.
Proof.
  intros Hd So Hmax. unfold compute_commit_trend.
  destruct commits as [|c rest]; [eexists; reflexivity|].
  rewrite Hd. cbn [bind].
  destruct (len dates <? 2) eqn:E2; [eexists; reflexivity|].
  pose proof (same_offset_uniform dates So) as U.
  rewrite (sort_datetimes_uniform dates U). cbn [bind].
  pose proof (sort_key_perm dt_key dates) as P.
  assert (Us : uniform is_aware (sort_key dt_key dates))
    by (apply (uniform_perm is_aware dates); [now symmetry|exact U]).
  destruct (sort_key dt_key dates) as [|a t] eqn:Es.
  { apply Permutation_nil in P. subst dates. discriminate E2. }
  unfold min_datetime, max_datetime.
  destruct (best_by_min a t Us) as (m & -> & _ & _).
  destruct (best_by_max a t Us) as (M & -> & HMin & _). cbn [bind].
  assert (HM : dt_day M < MAXORDINAL).
  { assert (Hin : In (dt_day M) (map dt_day dates))
      by (apply in_map; now apply (Permutation_in _ P)).
    assert (Hne : map dt_day dates <> []) by (intros E; rewrite E in Hin; destruct Hin).
    destruct (Zmax_list_spec _ Hne) as [_ Hall].
    rewrite Forall_forall in Hall. specialize (Hall _ Hin). lia. }
  destruct (fill_days_total (Z.to_nat (dt_day M - dt_day m + 1))
              (count_days (a :: t)) (dt_day m) (dt_day M) HM) as [ts ->].
  eexists. reflexivity.
Qed.

Lemma commit_trend_returns_witness :
  exists r, compute_commit_trend sample_clock sample_commits = Ok r.
Proof.
  apply (commit_trend_returns sample_clock sample_commits sample_dates).
  - vm_compute. reflexivity.
  - intros a b Ha Hb. cbn in Ha, Hb.
    repeat (destruct Ha as [<-|Ha]); try destruct Ha;
      repeat (destruct Hb as [<-|Hb]); try destruct Hb; reflexivity.
  - vm_compute. reflexivity.
Defined.

End DailyCounts.

(** ** The commit trend of a permuted list *)

Section PermutedCommits.
Local Open Scope Z_scope.

Lemma fill_days_ext (fuel : nat) (dc dc' : dict Z) (current_date end_date : Z) :
  (forall k, dict_count dc k = dict_count dc' k) ->
  fill_days fuel dc current_date end_date = fill_days fuel dc' current_date end_date.
Proof.
  intros H. revert current_date. induction fuel as [|fuel IH]; intros cur; [reflexivity|].
  cbn [fill_days].
  change (match dict_get dc (strftime_ymd (date_of_ordinal cur)) with
          | Some n => n | None => 0 end)
    with (dict_count dc (strftime_ymd (date_of_ordinal cur))).
  change (match dict_get dc' (strftime_ymd (date_of_ordinal cur)) with
          | Some n => n | None => 0 end)
    with (dict_count dc' (strftime_ymd (date_of_ordinal cur))).
  now rewrite H, IH.
Qed.

Lemma filter_perm_len {A : Type} (f : A -> bool) (l l' : list A) :
  Permutation l l' -> len (filter f l) = len (filter f l').
Proof.
  intros P. unfold len. f_equal. apply Permutation_length.
  induction P as [|a l l' P IH|a b l|l l' l'' P1 IH1 P2 IH2]; cbn.
  - reflexivity.
  - destruct (f a); [now constructor|exact IH].
  - destruct (f a), (f b); try reflexivity. apply perm_swap.
  - now transitivity (filter f l').
Qed.

Lemma count_days_perm (l l' : list datetime) (k : string) :
  Permutation l l' -> dict_count (count_days l) k = dict_count (count_days l') k.
Proof. intros P. rewrite !count_days_count. now apply filter_perm_len. Qed.

Lemma commit_trend_perm (now : clock) (commits commits' : list value)
    (dates : list datetime) (r : commit_trend_result) :
  Permutation commits commits' ->
  commit_dates now commits = Ok dates ->
  same_instant_same_day dates ->
  compute_commit_trend now commits = Ok r ->
  compute_commit_trend now commits' = Ok r.
Proof.
  intros P Hd Sd H.
  destruct commits as [|c rest].
  { apply Permutation_nil in P. now subst. }
  destruct commits' as [|c' rest'].
  { apply Permutation_sym, Permutation_nil in P. discriminate. }
  remember (c :: rest) as commits eqn:Ec.
  remember (c' :: rest') as commits' eqn:Ec'.
  destruct (collect_perm _ _ _ _ P Hd) as (dates' & Hd' & Pd).
  fold (commit_dates now commits') in Hd'.
  unfold compute_commit_trend in H |- *.
  rewrite Ec, <- Ec, Hd in H. rewrite Ec', <- Ec', Hd'. cbn [bind] in H |- *.
  rewrite <- (perm_len _ _ Pd).
  destruct (len dates <? 2) eqn:E.
  { apply Z.ltb_lt in E. rewrite <- (perm_short _ _ Pd E). exact H. }
  destruct (sort_datetimes dates) as [s|] eqn:Es; [|discriminate].
  destruct (sort_datetimes_ok _ _ Es) as [U Hs].
  assert (U' : uniform is_aware dates') by (now apply (uniform_perm is_aware dates)).
  rewrite (sort_datetimes_uniform dates' U'). cbn [bind] in H |- *.
  pose proof (sort_key_perm dt_key dates) as Ps. rewrite <- Hs in Ps.
  pose proof (sort_key_perm dt_key dates') as Ps'.
  remember (sort_key dt_key dates') as s' eqn:Hs'.
  assert (Pss : Permutation s' s).
  { rewrite Ps, Ps'. now symmetry. }
  assert (Us : uniform is_aware s) by (apply (uniform_perm is_aware dates); [now symmetry|exact U]).
  assert (Us' : uniform is_aware s')
    by (apply (uniform_perm is_aware dates'); [now symmetry|exact U']).
  destruct s as [|a t].
  { apply Permutation_nil in Ps. subst dates. discriminate E. }
  destruct s' as [|a' t'].
  { apply Permutation_nil in Pss. discriminate. }
  unfold min_datetime, max_datetime in H |- *.
  destruct (best_by_min a t Us) as (m & Hm & Im & Lm).
  destruct (best_by_max a t Us) as (M & HM & IM & LM).
  destruct (best_by_min a' t' Us') as (m' & Hm' & Im' & Lm').
  destruct (best_by_max a' t' Us') as (M' & HM' & IM' & LM').
  rewrite Hm, HM in H. rewrite Hm', HM'. cbn [bind] in H |- *.
  assert (Em : dt_day m' = dt_day m).
  { apply Sd.
    - apply (Permutation_in _ Ps). now apply (Permutation_in _ Pss).
    - now apply (Permutation_in _ Ps).
    - pose proof (Lm m' (Permutation_in _ Pss Im')).
      pose proof (Lm' m (Permutation_in _ (Permutation_sym Pss) Im)). lia. }
  assert (EM : dt_day M' = dt_day M).
  { apply Sd.
    - apply (Permutation_in _ Ps). now apply (Permutation_in _ Pss).
    - now apply (Permutation_in _ Ps).
    - pose proof (LM M' (Permutation_in _ Pss IM')).
      pose proof (LM' M (Permutation_in _ (Permutation_sym Pss) IM)). lia. }
  rewrite Em, EM.
  rewrite (fill_days_ext _ (count_days (a' :: t')) (count_days (a :: t)))
    by (intros k; now apply count_days_perm).
  exact H.
Qed.

End PermutedCommits.

(** ** Determinism and order independence *)

Section Determinism.
Local Open Scope Z_scope.

(** C9, as stated, fails: [compute_issue_trend] sorts by closing date with
    a stable sort, so issues closed at the same instant keep their input
    order.  Two issues closed together, resolved in one and in three
    days, give a worsening trend in one order and an improving trend in
    the other. *)
Lemma issue_trend_order_counterexample :
  Permutation [issue_one_day; issue_three_days] [issue_three_days; issue_one_day] /\
  match compute_issue_trend sample_clock [issue_one_day; issue_three_days],
        compute_issue_trend sample_clock [issue_three_days; issue_one_day] with
  | Ok r, Ok r' =>
      it_resolution_values r = Some [py_round 1 2; py_round 3 2] /\
      it_resolution_values r' = Some [py_round 3 2; py_round 1 2] /\
      it_trend_direction r = "kötüleşiyor"%string /\
      it_trend_direction r' = "iyileşiyor"%string /\
      r <> r'
  | _, _ => False
  end.
Proof.
  split; [apply perm_swap|].
  vm_compute. repeat split. discriminate.
Qed.

(** The same happens in [compute_commit_trend] when one instant is
    written with two UTC offsets that fall on two calendar days. *)
Lemma commit_trend_order_example :
  Permutation commits_same_instant commits_same_instant_swapped /\
  match compute_commit_trend sample_clock commits_same_instant,
        compute_commit_trend sample_clock commits_same_instant_swapped with
  | Ok r, Ok r' =>
      ct_time_series r = [("2024-01-01"%string, 1)] /\
      ct_time_series r' = [("2024-01-02"%string, 1)]
  | _, _ => False
  end.
Proof.
  split; [apply perm_swap|]. vm_compute. split; reflexivity.
Qed.

(** A timestamp that cannot be parsed is read as the current time, so
    the result depends on when the function is called. *)
Lemma clock_dependence_example :
  forallb commit_parses commits_date_and_garbage = false /\
  match compute_commit_frequency clock_jan_2 commits_date_and_garbage,
        compute_commit_frequency clock_jan_11 commits_date_and_garbage with
  | Ok r, Ok r' =>
      cf_time_span_days r = Some 1 /\ cf_time_span_days r' = Some 10
  | _, _ => False
  end.
Proof.
  split; [reflexivity|]. vm_compute. split; reflexivity.
Qed.

(** C9 (amended): a result that [compute_commit_frequency] returns for
    a list is returned for every permutation of it.  For
    [compute_issue_resolution] a permutation of the list collects the
    same resolution times up to their order and gives the same
    [resolved_count] and [total_issues]; [raw] and [score] are computed
    from the sum of the times in list order.  [compute_commit_trend]
    returns the same result when no two collected dates denote the same
    instant on different calendar days, and [compute_issue_trend] when
    the resolved issues were closed at pairwise distinct instants.  When
    every timestamp that is read can be parsed, the four results do not
    depend on the clock, so that repeated calls agree. *)
Theorem order_and_clock_independence (now : clock) :
  (forall commits commits' r,
     Permutation commits commits' ->
     compute_commit_frequency now commits = Ok r ->
     compute_commit_frequency now commits' = Ok r) /\
  (forall issues issues' r,
     Permutation issues issues' ->
     compute_issue_resolution now issues = Ok r ->
     exists times times' r',
       resolution_times now issues = Ok times /\
       resolution_times now issues' = Ok times' /\
       Permutation times times' /\
       r = issue_resolution_of issues times /\
       compute_issue_resolution now issues' = Ok r' /\
       r' = issue_resolution_of issues' times' /\
       ir_resolved_count r' = ir_resolved_count r /\
       ir_total_issues r' = ir_total_issues r) /\
  (forall commits commits' dates r,
     Permutation commits commits' ->
     commit_dates now commits = Ok dates ->
     same_instant_same_day dates ->
     compute_commit_trend now commits = Ok r ->
     compute_commit_trend now commits' = Ok r) /\
  (forall issues issues' resolved r,
     Permutation issues issues' ->
     resolved_issues_of now issues = Ok resolved ->
     NoDup (map closing_instant resolved) ->
     compute_issue_trend now issues = Ok r ->
     compute_issue_trend now issues' = Ok r) /\
  (forall now' commits,
     forallb commit_parses commits = true ->
     compute_commit_frequency now commits = compute_commit_frequency now' commits /\
     compute_commit_trend now commits = compute_commit_trend now' commits) /\
  (forall now' issues,
     forallb issue_parses issues = true ->
     compute_issue_resolution now issues = compute_issue_resolution now' issues /\
     compute_issue_trend now issues = compute_issue_trend now' issues).
Proof.
  split; [intros; eapply commit_frequency_perm; eassumption|].
  split; [intros; eapply issue_resolution_perm; eassumption|].
  split; [intros; eapply commit_trend_perm; eassumption|].
  split; [intros; eapply issue_trend_perm; eassumption|].
  split; intros now' l H; split.
  - now apply commit_frequency_clock_free.
  - now apply commit_trend_clock_free.
  - now apply issue_resolution_clock_free.
  - now apply issue_trend_clock_free.
Qed.

Lemma order_and_clock_independence_witness :
  (exists r, compute_commit_frequency sample_clock (rev sample_commits) = Ok r) /\
  (exists r', compute_issue_resolution sample_clock (rev sample_issues) = Ok r' /\
              ir_resolved_count r' = 2 /\ ir_total_issues r' = 3) /\
  (exists r, compute_commit_trend sample_clock (rev commits_two_offsets) = Ok r) /\
  (exists r, compute_issue_trend sample_clock (rev sample_issues) = Ok r) /\
  compute_commit_trend sample_clock sample_commits
    = compute_commit_trend clock_jan_2 sample_commits /\
  parses (VStr "not-a-date") = false /\
  compute_issue_trend sample_clock issues_open_unparsed
    = compute_issue_trend clock_jan_2 issues_open_unparsed.
Proof.
  destruct (order_and_clock_independence sample_clock)
    as (Hcf & Hir & Hct & Hit & Hcc & Hic).
  split; [|split; [|split; [|split; [|split; [|split]]]]].
  - eexists. apply (Hcf sample_commits); [apply Permutation_rev|].
    vm_compute. reflexivity.
  - destruct (compute_issue_resolution sample_clock sample_issues) as [r|] eqn:E;
      [|vm_compute in E; discriminate].
    destruct (Hir sample_issues (rev sample_issues) r (Permutation_rev _) E)
      as (times & times' & r' & _ & _ & _ & _ & Hr' & _ & Hc & Ht).
    exists r'. split; [exact Hr'|].
    rewrite Hc, Ht. vm_compute in E. injection E as <-. split; reflexivity.
  - eexists. eapply (Hct commits_two_offsets); [apply Permutation_rev| | |].
    + vm_compute. reflexivity.
    + intros a b Ha Hb Hk. cbn in Ha, Hb.
      repeat (destruct Ha as [<-|Ha]; [repeat (destruct Hb as [<-|Hb];
        [first [reflexivity | vm_compute in Hk; discriminate]|]); destruct Hb|]).
      destruct Ha.
    + vm_compute. reflexivity.
  - eexists. eapply (Hit sample_issues); [apply Permutation_rev| | |].
    + vm_compute. reflexivity.
    + repeat constructor; cbn; intuition discriminate.
    + vm_compute. reflexivity.
  - apply (Hcc clock_jan_2 sample_commits). reflexivity.
  - reflexivity.
  - apply (Hic clock_jan_2 issues_open_unparsed). reflexivity.
Defined.

End Determinism.

(** ** Grades and weights *)

Section Grades.
Local Open Scope Q_scope.

Ltac qb :=
  repeat match goal with
         | H : Qle_bool _ _ = true |- _ => apply Qle_bool_iff in H
         | H : Qle_bool ?a ?b = false |- _ =>
           assert (b < a) by (apply Qnot_le_lt; intros L; apply Qle_bool_iff in L; congruence);
           clear H
         end.

(** X1: [get_grade] returns the grade of the table whose threshold is the
    greatest one not above the score; a score below every threshold, that
    is a negative one, gets ["F"]. *)
Theorem get_grade_greatest_threshold (score : Q) :
  (score < 0 -> get_grade score = "F"%string) /\
  (0 <= score ->
   exists threshold,
     In (get_grade score, threshold) GRADE_THRESHOLDS /\
     threshold <= score /\
     forall grade t, In (grade, t) GRADE_THRESHOLDS -> t <= score -> t <= threshold).
Proof.
  unfold get_grade, GRADE_THRESHOLDS. cbn [first_grade].
  split.
  - intros Hneg.
    repeat match goal with
           | |- context [Qle_bool ?a score] =>
             destruct (Qle_bool a score) eqn:?; [qb; lra|]
           end.
    reflexivity.
  - intros Hpos.
    repeat match goal with
           | |- context [Qle_bool ?a score] =>
             let E := fresh "E" in
             destruct (Qle_bool a score) eqn:E;
             [ exists a; qb; split; [cbn; tauto|]; split; [assumption|];
               intros grade t Hin Ht; cbn in Hin;
               repeat (destruct Hin as [Hin|Hin];
                       [injection Hin as <- <-; lra|]);
               destruct Hin
             | ]
           end.
    qb. lra.
Qed.

Lemma get_grade_greatest_threshold_witness :
  exists threshold,
    In (get_grade 72, threshold) GRADE_THRESHOLDS /\ threshold <= 72.
Proof.
  destruct (get_grade_greatest_threshold 72) as [_ H].
  destruct H as (t & Hin & Hle & _); [discriminate|].
  exists t. split; assumption.
Defined.

Lemma Qsum_map_scale (c : Q) (l : list (string * Q)) :
  Qsum (map snd (map (fun '(k, v) => (k, v / c)) l)) == Qsum (map snd l) / c.
Proof.
  induction l as [|[k v] l IH].
  - unfold Qsum. cbn. unfold Qdiv. ring.
  - cbn [map snd]. rewrite !Qsum_cons, IH. cbn [snd]. unfold Qdiv. ring.
Qed.

(** X2: the weights [adjust_weights] returns always sum to 1: a non-empty
    mapping whose total is not zero keeps its keys in order and has every
    weight divided by the total, and any other mapping is replaced by the
    default weights. *)
Theorem adjust_weights_normalised (custom_weights : dict Q) :
  Qsum (map snd (adjust_weights custom_weights)) == 1 /\
  (custom_weights <> [] -> ~ Qsum (map snd custom_weights) == 0 ->
   map fst (adjust_weights custom_weights) = map fst custom_weights /\
   forall k v, In (k, v) custom_weights ->
     In (k, v / Qsum (map snd custom_weights)) (adjust_weights custom_weights)) /\
  (custom_weights = [] \/ Qsum (map snd custom_weights) == 0 ->
   adjust_weights custom_weights = DEFAULT_WEIGHTS).
Proof.
  unfold adjust_weights.
  destruct custom_weights as [|item rest].
  { split; [vm_compute; reflexivity|]. split; [congruence|reflexivity]. }
  set (w := item :: rest).
  destruct (Qeq_bool (Qsum (map snd w)) 0) eqn:E.
  - apply Qeq_bool_iff in E.
    split; [vm_compute; reflexivity|]. split; [intros _ H; contradiction|reflexivity].
  - assert (NZ : ~ Qsum (map snd w) == 0)
      by (intros Z; apply Qeq_bool_iff in Z; congruence).
    split; [|split].
    + rewrite Qsum_map_scale. field. exact NZ.
    + intros _ _. split.
      * rewrite map_map. apply map_ext. intros [k v]. reflexivity.
      * intros k v Hin.
        apply (in_map (fun '(k, v) => (k, v / Qsum (map snd w)))) in Hin. exact Hin.
    + intros [H|H]; [discriminate|contradiction].
Qed.

Lemma adjust_weights_normalised_witness :
  map fst (adjust_weights two_scores) = map fst two_scores /\
  In ("a"%string, 80 / Qsum (map snd two_scores)) (adjust_weights two_scores).
Proof.
  destruct (adjust_weights_normalised two_scores) as (_ & H & _).
  destruct H as [Hk Hv]; [discriminate|vm_compute; discriminate|].
  split; [exact Hk|]. apply Hv. now left.
Defined.

Lemma dict_get_In {V : Type} (d : dict V) (k : string) (v : V) :
  dict_get d k = Some v -> In (k, v) d.
Proof.
  induction d as [|[k' v'] d IH]; cbn; [discriminate|].
  destruct (String.eqb k' k) eqn:E.
  - apply String.eqb_eq in E. intros H. injection H as <-. subst. now left.
  - intros H. right. now apply IH.
Qed.

Lemma metric_weight_nonneg (weights : dict Q) (n : nat) (name : string) :
  (forall k w, In (k, w) weights -> 0 <= w) ->
  0 <= metric_weight weights n name.
Proof.
  intros Hw. destruct (dict_get weights name) as [w|] eqn:E.
  - rewrite (metric_weight_present _ _ _ _ E).
    apply (Hw name). now apply dict_get_In.
  - rewrite (metric_weight_missing _ _ _ E).
    unfold Qdiv. rewrite Qmult_1_l.
    apply Qinv_le_0_compat. change 0 with (inject_Z 0). rewrite <- Zle_Qle. lia.
Qed.

Lemma weighted_sums_bounds (weights : dict Q) (n : nat) (items : dict Q) :
  (forall k w, In (k, w) weights -> 0 <= w) ->
  (forall k s, In (k, s) items -> 0 <= s <= 100) ->
  0 <= total_weight_of weights n items /\
  0 <= weighted_sum_of weights n items <= 100 * total_weight_of weights n items.
Proof.
  intros Hw. induction items as [|[name s] rest IH]; intros Hs.
  - cbn. lra.
  - cbn [total_weight_of weighted_sum_of].
    destruct IH as (A & B & C); [intros; apply (Hs k); now right|].
    pose proof (metric_weight_nonneg weights n name Hw) as Hm.
    pose proof (Hs name s (or_introl eq_refl)) as [S0 S1].
    assert (0 <= s * metric_weight weights n name) by (apply Qmult_le_0_compat; assumption).
    assert (s * metric_weight weights n name <= 100 * metric_weight weights n name)
      by (apply Qmult_le_compat_r; assumption).
    lra.
Qed.

(** X3: when every score lies in [0, 100] and no weight is negative, the
    weighted overall score lies in [0, 100]. *)
Theorem weighted_score_in_range (scores : dict Q) (weights : option (dict Q)) :
  (forall k s, In (k, s) scores -> 0 <= s <= 100) ->
  (forall k w, In (k, w) (weights_or_default weights) -> 0 <= w) ->
  0 <= calculate_weighted_score scores weights <= 100.
Proof.
  intros Hs Hw.
  destruct scores as [|item rest]; [cbn; lra|].
  set (scores := item :: rest) in *.
  assert (Hne : scores <> []) by discriminate.
  destruct (calculate_weighted_score_closed scores weights Hne) as (Z & L & G).
  destruct (weighted_sums_bounds (weights_or_default weights) (List.length scores)
              scores Hw Hs) as (A & B & C).
  cbv zeta in Z, L, G.
  set (tw := total_weight_of (weights_or_default weights) (List.length scores) scores) in *.
  set (ws := weighted_sum_of (weights_or_default weights) (List.length scores) scores) in *.
  destruct (Qeq_dec tw 0) as [E|NE]; [rewrite (Z E); lra|].
  destruct (Qlt_le_dec 1 tw) as [H|H].
  - rewrite (G H). split.
    + apply Qle_shift_div_l; lra.
    + apply Qle_shift_div_r; lra.
  - rewrite (L NE H). lra.
Qed.

Lemma weighted_score_in_range_witness :
  0 <= calculate_weighted_score sample_scores None <= 100.
Proof.
  apply weighted_score_in_range.
  - intros k s Hin. cbn in Hin.
    repeat (destruct Hin as [Hin|Hin]; [injection Hin as <- <-; split; discriminate|]).
    destruct Hin.
  - intros k w Hin. cbn in Hin.
    repeat (destruct Hin as [Hin|Hin]; [injection Hin as <- <-; discriminate|]).
    destruct Hin.
Defined.

End Grades.

(** ** Improvement potential *)

Section Improvement.
Local Open Scope Q_scope.
Context {A : Type} (key : A -> Q).

Lemma insert_desc_perm (x : A) (l : list A) :
  Permutation (insert_desc key x l) (x :: l).
Proof.
  induction l as [|y l IH]; cbn; [reflexivity|].
  destruct (Qltb (key x) (key y)); [|reflexivity].
  rewrite IH. apply perm_swap.
Qed.

Lemma sort_desc_perm (l : list A) : Permutation (sort_desc key l) l.
Proof.
  induction l as [|x l IH]; cbn; [reflexivity|].
  rewrite insert_desc_perm. now constructor.
Qed.

Lemma insert_desc_sorted (x : A) (l : list A) :
  StronglySorted (fun a b => key b <= key a) l ->
  StronglySorted (fun a b => key b <= key a) (insert_desc key x l).
Proof.
  induction 1 as [|y l Hs IH Hy]; cbn.
  - constructor; constructor.
  - destruct (Qltb (key x) (key y)) eqn:E.
    + apply Qltb_true in E. constructor; [assumption|].
      rewrite Forall_forall in *. intros z Hz.
      apply (Permutation_in _ (insert_desc_perm x l)) in Hz.
      destruct Hz as [<-|Hz]; [lra|now apply Hy].
    + apply Qltb_false in E.
      constructor; [now constructor|].
      constructor; [exact E|].
      rewrite Forall_forall in *. intros z Hz.
      specialize (Hy z Hz). cbn beta in Hy. lra.
Qed.

Lemma sort_desc_sorted (l : list A) :
  StronglySorted (fun a b => key b <= key a) (sort_desc key l).
Proof.
  induction l as [|x l IH]; cbn; [constructor|].
  now apply insert_desc_sorted.
Qed.

End Improvement.

Section ImprovementPotential.
Local Open Scope Q_scope.

Lemma dict_set_fresh {V : Type} (d : dict V) (k : string) (v : V) :
  ~ In k (map fst d) -> dict_set d k v = d ++ [(k, v)].
Proof.
  induction d as [|[k' v'] d IH]; intros H; [reflexivity|].
  cbn in H |- *. destruct (String.eqb k' k) eqn:E.
  - apply String.eqb_eq in E. tauto.
  - rewrite IH by tauto. reflexivity.
Qed.

Lemma improvements_fold (weights : dict Q) (scores : dict Q) (acc : dict improvement) :
  NoDup (map fst acc ++ map fst scores) ->
  fold_left
    (fun improvements '(metric_name, score) =>
       dict_set improvements metric_name (improvement_of weights metric_name score))
    scores acc
  = acc ++ map (fun '(k, s) => (k, improvement_of weights k s)) scores.
Proof.
  revert acc. induction scores as [|[k s] rest IH]; intros acc N.
  - cbn. now rewrite app_nil_r.
  - cbn [fold_left map].
    assert (Hk : ~ In k (map fst acc)).
    { cbn [map fst] in N. apply NoDup_remove_2 in N.
      intros H. apply N. apply in_or_app. now left. }
    rewrite dict_set_fresh by exact Hk.
    rewrite IH.
    + rewrite <- app_assoc. reflexivity.
    + rewrite map_app, <- app_assoc. exact N.
Qed.

Lemma improvements_of_distinct (weights : dict Q) (scores : dict Q) :
  NoDup (map fst scores) ->
  improvements_of weights scores
  = map (fun '(k, s) => (k, improvement_of weights k s)) scores.
Proof.
  intros N. unfold improvements_of. now rewrite improvements_fold.
Qed.

(** X4: [calculate_improvement_potential] lists the metrics of a score
    mapping, each once, in order of non-increasing potential gain; the
    gain of a metric is [(100 - score) * weight] rounded to two decimals,
    the weight being 0.25 for a metric the weights do not name. *)
Theorem improvement_potential_sorted (scores : dict Q) (weights : option (dict Q)) :
  NoDup (map fst scores) ->
  let result := calculate_improvement_potential scores weights in
  StronglySorted
    (fun a b => potential_gain (snd b) <= potential_gain (snd a)) result /\
  Permutation result
    (map (fun '(k, s) => (k, improvement_of (weights_or_default weights) k s)) scores) /\
  forall k i, In (k, i) result ->
    exists s, In (k, s) scores /\
      current_score i = s /\
      potential_gain i
      = py_round ((100 - s) * match dict_get (weights_or_default weights) k with
                              | Some w => w
                              | None => 0.25
                              end) 2.
Proof.
  intros N result. unfold result, calculate_improvement_potential.
  fold (weights_or_default weights).
  rewrite (improvements_of_distinct _ _ N).
  split; [apply sort_desc_sorted|].
  split; [apply sort_desc_perm|].
  intros k i Hin.
  apply (Permutation_in _ (sort_desc_perm _ _)) in Hin.
  apply in_map_iff in Hin. destruct Hin as ([k' s] & E & Hin).
  injection E as <- <-. exists s. split; [exact Hin|]. split; reflexivity.
Qed.

Lemma improvement_potential_sorted_witness :
  map fst (calculate_improvement_potential sample_scores None)
  = ["test_ratio"; "issue_resolution"; "commit_frequency"; "pr_rejection"]%string /\
  StronglySorted
    (fun a b => potential_gain (snd b) <= potential_gain (snd a))
    (calculate_improvement_potential sample_scores None).
Proof.
  split; [vm_compute; reflexivity|].
  apply (improvement_potential_sorted sample_scores None).
  repeat constructor; cbn; intuition discriminate.
Defined.

End ImprovementPotential.

(** ** Moving averages *)

Section MovingAverage.
Local Open Scope Q_scope.

Lemma Qsum_app (l1 l2 : list Q) : Qsum (l1 ++ l2) == Qsum l1 + Qsum l2.
Proof.
  induction l1 as [|a l1 IH]; cbn [app].
  - unfold Qsum at 2. cbn. ring.
  - rewrite !Qsum_cons, IH. ring.
Qed.

Lemma firstn_plus {A : Type} (a b : nat) (l : list A) :
  firstn (a + b) l = firstn a l ++ firstn b (skipn a l).
Proof.
  revert l. induction a as [|a IH]; intros l; [reflexivity|].
  destruct l as [|x l]; cbn; [now rewrite firstn_nil|].
  now rewrite IH.
Qed.

Lemma Qsum_firstn_plus (a b : nat) (l : list Q) :
  Qsum (firstn (a + b) l) == Qsum (firstn a l) + Qsum (firstn b (skipn a l)).
Proof. rewrite firstn_plus. apply Qsum_app. Qed.

Lemma cumulative_average_length (values : list Q) (cumsum : Q) (i : Z) :
  List.length (cumulative_average values cumsum i) = List.length values.
Proof.
  revert cumsum i. induction values as [|v rest IH]; intros; cbn; [reflexivity|].
  now rewrite IH.
Qed.

Lemma cumulative_average_nth (values : list Q) (cumsum : Q) (i : Z) (j : nat) :
  (j < List.length values)%nat ->
  exists q, nth_error (cumulative_average values cumsum i) j = Some q /\
    q == (cumsum + Qsum (firstn (S j) values)) / inject_Z (i + Z.of_nat j + 1).
Proof.
  revert cumsum i j. induction values as [|v rest IH]; intros cumsum i j Hj.
  - cbn in Hj. lia.
  - destruct j as [|j].
    + eexists. split; [reflexivity|].
      cbn [firstn]. rewrite Qsum_cons. unfold Qsum at 1. cbn [fold_left].
      replace (i + Z.of_nat 0 + 1)%Z with (i + 1)%Z by lia.
      unfold Qdiv. ring.
    + cbn in Hj. destruct (IH (cumsum + v) (i + 1)%Z j) as (q & Hq & Eq); [lia|].
      exists q. split; [exact Hq|]. rewrite Eq.
      change (firstn (S (S j)) (v :: rest)) with (v :: firstn (S j) rest).
      rewrite Qsum_cons.
      replace (i + 1 + Z.of_nat j + 1)%Z with (i + Z.of_nat (S j) + 1)%Z by lia.
      unfold Qdiv. ring.
Qed.

Lemma sliding_average_length (leaving entering : list Q) (window_sum : Q) (window : Z) :
  List.length (sliding_average leaving entering window_sum window)
  = Nat.min (List.length leaving) (List.length entering).
Proof.
  revert entering window_sum.
  induction leaving as [|old leaving IH]; intros [|new entering] ws; cbn; try reflexivity.
  now rewrite IH.
Qed.

Lemma sliding_average_nth (leaving entering : list Q) (window_sum : Q) (window : Z)
    (j : nat) :
  (j < List.length leaving)%nat -> (j < List.length entering)%nat ->
  exists q, nth_error (sliding_average leaving entering window_sum window) j = Some q /\
    q == (window_sum - Qsum (firstn (S j) leaving) + Qsum (firstn (S j) entering))
         / inject_Z window.
Proof.
  revert entering window_sum j.
  induction leaving as [|old leaving IH]; intros [|new entering] ws j Hl He;
    cbn in Hl, He; try lia.
  destruct j as [|j].
  - eexists. split; [reflexivity|].
    cbn [firstn]. rewrite !Qsum_cons. unfold Qsum. cbn [fold_left].
    unfold Qdiv. ring.
  - destruct (IH entering (ws - old + new) j) as (q & Hq & Eq); [lia|lia|].
    exists q. split; [exact Hq|]. rewrite Eq.
    change (firstn (S (S j)) (old :: leaving)) with (old :: firstn (S j) leaving).
    change (firstn (S (S j)) (new :: entering)) with (new :: firstn (S j) entering).
    rewrite !Qsum_cons. unfold Qdiv. ring.
Qed.

(** X8: [_calculate_moving_average] keeps the length of its input, and
    its value at index [i] is the mean of the trailing window: of the last
    [window] values up to index [i], or of all values up to it while there
    are fewer than [window]; a window of zero or less gives the empty
    list. *)
Theorem moving_average_window_mean (values : list Q) (window : Z) :
  ((window <= 0)%Z -> _calculate_moving_average values window = []) /\
  ((0 < window)%Z ->
   List.length (_calculate_moving_average values window) = List.length values /\
   forall i, (i < List.length values)%nat ->
     exists q,
       nth_error (_calculate_moving_average values window) i = Some q /\
       q == Qsum (trailing_window values (Z.to_nat window) i)
            / inject_Z (len (trailing_window values (Z.to_nat window) i))).
Proof.
  split.
  { intros Hw. unfold _calculate_moving_average.
    destruct values; [reflexivity|].
    destruct (window <=? 0)%Z eqn:E; [reflexivity|apply Z.leb_gt in E; lia]. }
  intros Hw. unfold _calculate_moving_average.
  destruct values as [|v0 rest]; [split; [reflexivity|intros i Hi; cbn in Hi; lia]|].
  set (values := v0 :: rest).
  destruct (window <=? 0)%Z eqn:E0; [apply Z.leb_le in E0; lia|clear E0].
  set (w := Z.to_nat window).
  assert (Ew : window = Z.of_nat w) by (unfold w; lia).
  assert (Hw1 : (1 <= w)%nat) by lia.
  destruct (len values <? window)%Z eqn:E.
  - apply Z.ltb_lt in E. unfold len in E.
    split; [apply cumulative_average_length|].
    intros i Hi.
    destruct (cumulative_average_nth values 0 0%Z i Hi) as (q & Hq & Eq).
    exists q. split; [exact Hq|]. rewrite Eq.
    unfold trailing_window.
    replace (S i - w)%nat with 0%nat by lia.
    rewrite Nat.sub_0_r. cbn [skipn].
    unfold len. rewrite firstn_length_le by lia.
    replace (0 + Z.of_nat i + 1)%Z with (Z.of_nat (S i)) by lia.
    unfold Qdiv. ring.
  - apply Z.ltb_ge in E. unfold len in E.
    assert (Hlen : (w <= List.length values)%nat) by lia.
    replace (Z.to_nat (Z.min (window - 1) (len values))) with (w - 1)%nat
      by (unfold len; lia).
    set (prefix := cumulative_average (firstn (w - 1) values) 0 0).
    assert (Lp : List.length prefix = (w - 1)%nat).
    { unfold prefix. rewrite cumulative_average_length, firstn_length_le; lia. }
    split.
    { rewrite length_app, Lp. cbn [List.length].
      rewrite sliding_average_length, length_skipn. lia. }
    intros i Hi.
    destruct (Nat.lt_ge_cases i (w - 1)) as [Hlt|Hge].
    + rewrite nth_error_app1 by lia.
      destruct (cumulative_average_nth (firstn (w - 1) values) 0 0%Z i) as (q & Hq & Eq).
      { rewrite firstn_length_le; lia. }
      exists q. split; [exact Hq|]. rewrite Eq.
      rewrite firstn_firstn. replace (Nat.min (S i) (w - 1)) with (S i) by lia.
      unfold trailing_window.
      replace (S i - w)%nat with 0%nat by lia.
      rewrite Nat.sub_0_r. cbn [skipn].
      unfold len. rewrite firstn_length_le by lia.
      replace (0 + Z.of_nat i + 1)%Z with (Z.of_nat (S i)) by lia.
      unfold Qdiv. ring.
    + rewrite nth_error_app2 by lia. rewrite Lp.
      destruct (i - (w - 1))%nat as [|j] eqn:Ej.
      * eexists. split; [reflexivity|].
        unfold trailing_window.
        replace (S i - w)%nat with 0%nat by lia.
        rewrite Nat.sub_0_r. cbn [skipn].
        replace (S i) with w by lia.
        unfold len. rewrite firstn_length_le by lia.
        rewrite <- Ew. reflexivity.
      * cbn [nth_error].
        destruct (sliding_average_nth values (skipn w values)
                    (Qsum (firstn w values)) window j) as (q & Hq & Eq).
        { lia. }
        { rewrite length_skipn. lia. }
        exists q. split; [exact Hq|]. rewrite Eq.
        unfold trailing_window.
        replace (S i - w)%nat with (S j) by lia.
        replace (S i - S j)%nat with w by lia.
        unfold len. rewrite firstn_length_le by (rewrite length_skipn; lia).
        rewrite <- Ew.
        pose proof (Qsum_firstn_plus w (S j) values) as H1.
        pose proof (Qsum_firstn_plus (S j) w values) as H2.
        rewrite (Nat.add_comm w (S j)) in H1. rewrite H1 in H2.
        assert (EqS : Qsum (firstn w values) - Qsum (firstn (S j) values)
                      + Qsum (firstn (S j) (skipn w values))
                      == Qsum (firstn w (skipn (S j) values))) by lra.
        rewrite EqS. reflexivity.
Qed.

Lemma moving_average_window_mean_witness :
  List.length (_calculate_moving_average [1; 2; 3; 4; 5] 3) = 5%nat /\
  exists q, nth_error (_calculate_moving_average [1; 2; 3; 4; 5] 3) 4 = Some q /\
            q == 4.
Proof.
  destruct (moving_average_window_mean [1; 2; 3; 4; 5] 3) as [_ H].
  destruct H as [Hl Hn]; [reflexivity|].
  split; [exact Hl|].
  destruct (Hn 4%nat) as (q & Hq & Eq); [cbn; lia|].
  exists q. split; [exact Hq|]. rewrite Eq. vm_compute. reflexivity.
Defined.

End MovingAverage.

(** ** Pull-request counts *)

Section PullRequests.
Local Open Scope Z_scope.





Lemma clamp01_one (x : Q) : (1 <= x)%Q -> (clamp01 x == 1)%Q.
Proof.
  intros H. unfold clamp01.
  destruct (py_min_spec 1 x) as [[A ->]|[A ->]]; [lra|].
  destruct (py_max_spec 0 1) as [[B ->]|[B ->]]; lra.
Qed.

Lemma clamp01_zero (x : Q) : (x <= 0)%Q -> (clamp01 x == 0)%Q.
Proof.
  intros H. unfold clamp01.
  destruct (py_min_spec 1 x) as [[A ->]|[A ->]].
  - destruct (py_max_spec 0 x) as [[B ->]|[B ->]]; lra.
  - lra.
Qed.

Lemma py_round_0 (n : nat) : (py_round 0 n == 0)%Q.
Proof. exact (py_round_Z 0 n). Qed.

Lemma py_round_100 (n : nat) : (py_round 100 n == 100)%Q.
Proof. exact (py_round_Z 100 n). Qed.

(** The score at and beyond the two ends of the scale. *)
Lemma normalize_low (v lo hi : Q) (inv : bool) :
  (lo < hi)%Q -> (v <= lo)%Q ->
  (_normalize_score v lo hi inv == if inv then 100 else 0)%Q.
Proof.
  intros Hlh Hv. rewrite normalize_unfold by lra.
  assert (C : (clamp01 ((v - lo) / (hi - lo)) == 0)%Q).
  { apply clamp01_zero. apply Qle_shift_div_r; lra. }
  destruct inv.
  - rewrite (py_round_comp ((1 - clamp01 ((v - lo) / (hi - lo))) * 100) 100 2)
      by (rewrite C; ring).
    apply py_round_100.
  - rewrite (py_round_comp (clamp01 ((v - lo) / (hi - lo)) * 100) 0 2)
      by (rewrite C; ring).
    apply py_round_0.
Qed.

Lemma normalize_high (v lo hi : Q) (inv : bool) :
  (lo < hi)%Q -> (hi <= v)%Q ->
  (_normalize_score v lo hi inv == if inv then 0 else 100)%Q.
Proof.
  intros Hlh Hv. rewrite normalize_unfold by lra.
  assert (C : (clamp01 ((v - lo) / (hi - lo)) == 1)%Q).
  { apply clamp01_one. apply Qle_shift_div_l; lra. }
  destruct inv.
  - rewrite (py_round_comp ((1 - clamp01 ((v - lo) / (hi - lo))) * 100) 0 2)
      by (rewrite C; ring).
    apply py_round_0.
  - rewrite (py_round_comp (clamp01 ((v - lo) / (hi - lo)) * 100) 100 2)
      by (rewrite C; ring).
    apply py_round_100.
Qed.

Lemma Zratio_ge (a b : Z) (c : Q) :
  0 < b -> (c * inject_Z b <= inject_Z a)%Q -> (c <= inject_Z a / inject_Z b)%Q.
Proof.
  intros Hb H. apply Qle_shift_div_l; [|exact H].
  change 0%Q with (inject_Z 0). rewrite <- Zlt_Qlt. exact Hb.
Qed.



End PullRequests.

(** ** File counts *)

Section TestFiles.
Local Open Scope Z_scope.

Lemma count_files_bounds (files : list file_entry) (acc counts : Z * Z) :
  count_files files acc = Ok counts ->
  fst acc <= fst counts /\ snd acc <= snd counts /\
  fst counts - fst acc <= snd counts - snd acc /\
  snd counts - snd acc <= len files.
Proof.
  revert acc. induction files as [|f rest IH]; intros [t n] H.
  - cbn in H. injection H as <-. cbn. lia.
  - cbn [count_files] in H.
    destruct (entry_path f) as [p|] eqn:Ep; cbn [bind] in H; [|discriminate].
    apply IH in H. unfold len in *. cbn [List.length]. rewrite Nat2Z.inj_succ.
    destruct p as [path|]; [|cbn [fst snd] in *; lia].
    destruct (has_code_extension path); [|cbn [fst snd] in *; lia].
    destruct (is_test_file path); cbn [fst snd] in *; lia.
Qed.

Lemma has_code_extension_empty : has_code_extension "" = false.
Proof. reflexivity. Qed.

Lemma count_files_paths (paths : list string) (t n : Z) :
  count_files (map FPath paths) (t, n)
  = Ok (t + len (filter is_test_file (filter has_code_extension paths)),
        n + len (filter has_code_extension paths)).
Proof.
  revert t n. induction paths as [|p rest IH]; intros t n.
  - cbn. now rewrite !Z.add_0_r.
  - cbn [map count_files entry_path].
    destruct (String.eqb p "") eqn:E; cbn [bind].
    + apply String.eqb_eq in E. subst p.
      cbn [filter]. rewrite has_code_extension_empty. apply IH.
    + cbn [filter]. destruct (has_code_extension p); [|apply IH].
      cbn [filter]. destruct (is_test_file p); rewrite IH; unfold len;
        cbn [List.length]; rewrite ?Nat2Z.inj_succ; do 2 f_equal; lia.
Qed.

Lemma filter_len_le {A : Type} (f : A -> bool) (l : list A) :
  len (filter f l) <= len l.
Proof.
  unfold len. apply inj_le. induction l as [|a l IH]; cbn; [lia|].
  destruct (f a); cbn; lia.
Qed.

(** X11: a result of [compute_test_ratio] counts no more test files than
    code files and no more code files than entries.  For a list of plain
    paths it always returns: [total_files] is the number of paths with a
    code extension and [test_files] the number of those that the test
    patterns match; the score is 100 once three in ten code files are
    test files, and 0 when none is. *)
Theorem test_ratio_counts :
  (forall files r, compute_test_ratio files = Ok r ->
     0 <= tr_test_files r <= tr_total_files r /\ tr_total_files r <= len files) /\
  (forall paths : list string,
     let code := filter has_code_extension paths in
     let tests := filter is_test_file code in
     exists r, compute_test_ratio (map FPath paths) = Ok r /\
       tr_total_files r = len code /\
       tr_test_files r = len tests /\
       (0 < len code ->
        tr_raw r = py_round (inject_Z (len tests) / inject_Z (len code)) 4) /\
       (0 < len code -> 3 * len code <= 10 * len tests -> (tr_score r == 100)%Q) /\
       (len tests = 0 -> (tr_score r == 0)%Q)).
Proof.
  split.
  - intros files r H. unfold compute_test_ratio in H.
    destruct files as [|f rest].
    { injection H as <-. cbn. lia. }
    destruct (count_files (f :: rest) (0, 0)) as [[t n]|] eqn:E; [|discriminate].
    cbn [bind] in H. apply count_files_bounds in E. cbn [fst snd] in E.
    destruct (n =? 0); injection H as <-;
      cbn [tr_test_files tr_total_files]; pose proof (len_nonneg (f :: rest)); lia.
  - intros paths code tests. unfold compute_test_ratio.
    destruct paths as [|p rest].
    { eexists. split; [reflexivity|]. cbn. repeat split; try lia; reflexivity. }
    pose proof (count_files_paths (p :: rest) 0 0) as C. fold code tests in C.
    cbn [map] in C |- *. rewrite C. cbn [bind].
    rewrite !Z.add_0_l.
    pose proof (filter_len_le is_test_file code) as Ht. fold tests in Ht.
    pose proof (len_nonneg tests) as Ht0.
    destruct (len code =? 0) eqn:E.
    + apply Z.eqb_eq in E. eexists. split; [reflexivity|].
      cbn [tr_test_files tr_total_files tr_raw tr_score].
      repeat split; try lia.
    + apply Z.eqb_neq in E. eexists. split; [reflexivity|].
      cbn [tr_test_files tr_total_files tr_raw tr_score].
      repeat split.
      * intros Hc Hr.
        apply (normalize_high _ 0 0.3 false); [reflexivity|].
        apply Zratio_ge; [lia|].
        assert (H10 : (3 * inject_Z (len code) <= 10 * inject_Z (len tests))%Q).
        { change 3%Q with (inject_Z 3). change 10%Q with (inject_Z 10).
          rewrite <- !inject_Z_mult, <- Zle_Qle. exact Hr. }
        lra.
      * intros H0. rewrite H0.
        apply (normalize_low _ 0 0.3 false); [reflexivity|].
        unfold Qdiv. rewrite Qmult_0_l. apply Qle_refl.
Qed.

Lemma test_ratio_counts_witness :
  exists r, compute_test_ratio sample_files = Ok r /\
    tr_total_files r = 4 /\ tr_test_files r = 2 /\ (tr_score r == 100)%Q.
Proof.
  destruct test_ratio_counts as [_ H].
  destruct (H ["src/main.py"; "src/utils.py"; "tests/test_main.py";
               "tests/test_utils.py"]%string)
    as (r & Hr & Hn & Ht & _ & Hs & _).
  exists r. split; [exact Hr|]. split; [exact Hn|]. split; [exact Ht|].
  apply Hs; vm_compute; congruence.
Defined.

End TestFiles.

(** ** Resolved issues *)

Section ResolvedIssues.
Local Open Scope Z_scope.

Lemma collect_length {A B : Type} (body : A -> res (option B)) (l : list A)
    (r : list B) :
  collect body l = Ok r -> len r <= len l.
Proof.
  revert r. induction l as [|a l IH]; intros r H.
  - cbn in H. injection H as <-. apply Z.le_refl.
  - cbn [collect] in H.
    destruct (body a) as [o|]; cbn [bind] in H; [|discriminate].
    destruct (collect body l) as [rs|]; cbn [bind] in H; [|discriminate].
    injection H as <-. specialize (IH rs eq_refl).
    unfold len in *. cbn [List.length]. destruct o; cbn [List.length]; lia.
Qed.

Lemma collect_Forall {A B : Type} (body : A -> res (option B)) (P : B -> Prop)
    (l : list A) (r : list B) :
  (forall a b, body a = Ok (Some b) -> P b) ->
  collect body l = Ok r -> Forall P r.
Proof.
  intros HP. revert r. induction l as [|a l IH]; intros r H.
  - cbn in H. injection H as <-. constructor.
  - cbn [collect] in H.
    destruct (body a) as [o|] eqn:Ea; cbn [bind] in H; [|discriminate].
    destruct (collect body l) as [rs|]; cbn [bind] in H; [|discriminate].
    injection H as <-. specialize (IH rs eq_refl).
    destruct o; [constructor; [now apply (HP a)|exact IH]|exact IH].
Qed.

Lemma resolution_time_nonneg (now : clock) (issue : value) (t : Q) :
  resolution_time now issue = Ok (Some t) -> (0 <= t)%Q.
Proof.
  unfold resolution_time.
  destruct (issue_resolution_days now issue) as [[[closed d]|]|];
    cbn [bind]; try discriminate.
  intros H. injection H as <-.
  destruct (py_max_spec 0 d) as [[A ->]|[A ->]]; lra.
Qed.

Lemma Qsum_nonneg (l : list Q) : Forall (fun t => 0 <= t)%Q l -> (0 <= Qsum l)%Q.
Proof.
  induction 1 as [|t l Ht Hl IH].
  - unfold Qsum. cbn. lra.
  - rewrite Qsum_cons. lra.
Qed.

(** X12: a result of [compute_issue_resolution] counts no more resolved
    issues than issues, [total_issues] is the length of the input, and
    [raw], the mean resolution time in days, is never negative: an issue
    closed before it was created counts as resolved in 0 days. *)
Theorem issue_resolution_counts (now : clock) (issues : list value)
    (r : issue_resolution_result) :
  compute_issue_resolution now issues = Ok r ->
  0 <= ir_resolved_count r <= ir_total_issues r /\
  ir_total_issues r = len issues /\
  (0 <= ir_raw r)%Q /\
  (ir_resolved_count r = 0 -> (ir_raw r == 0)%Q /\ (ir_score r == 50)%Q).
Proof.
  intros H. unfold compute_issue_resolution in H.
  destruct issues as [|i rest].
  { injection H as <-. cbn. repeat split; try lia; try lra; reflexivity. }
  destruct (resolution_times now (i :: rest)) as [times|] eqn:E;
    cbn [bind] in H; [|discriminate].
  pose proof (collect_length _ _ _ E) as L.
  pose proof (collect_Forall _ (fun t => 0 <= t)%Q _ _
                (resolution_time_nonneg now) E) as F.
  pose proof (len_nonneg (i :: rest)) as Ln.
  destruct times as [|t ts].
  { injection H as <-. cbn [ir_resolved_count ir_total_issues ir_raw ir_score].
    repeat split; try lia; try lra; reflexivity. }
  injection H as <-. cbn [ir_resolved_count ir_total_issues ir_raw ir_score].
  pose proof (len_nonneg (t :: ts)) as Lt.
  assert (Lpos : 0 < len (t :: ts)) by (unfold len; cbn [List.length]; lia).
  repeat split; try lia.
  - rewrite <- (py_round_0 2). apply py_round_mono.
    apply Qle_shift_div_l.
    + change 0%Q with (inject_Z 0). rewrite <- Zlt_Qlt. exact Lpos.
    + rewrite Qmult_0_l. now apply Qsum_nonneg.
Qed.

Lemma issue_resolution_counts_witness :
  exists r, compute_issue_resolution sample_clock sample_issues = Ok r /\
    ir_resolved_count r = 2 /\ ir_total_issues r = 3 /\ (0 <= ir_raw r)%Q.
Proof.
  destruct (compute_issue_resolution sample_clock sample_issues) as [r|e] eqn:E.
  - exists r. split; [reflexivity|].
    destruct (issue_resolution_counts sample_clock sample_issues r E)
      as (_ & Ht & Hr & _).
    vm_compute in E. injection E as <-.
    split; [reflexivity|]. split; [reflexivity|exact Hr].
  - vm_compute in E. discriminate.
Defined.

End ResolvedIssues.

(** ** Statistics of the issue trend *)

Section IssueStatistics.
Local Open Scope Z_scope.

Lemma moving_average_length (values : list Q) (window : Z) :
  0 < window ->
  List.length (_calculate_moving_average values window) = List.length values.
Proof.
  intros Hw. unfold _calculate_moving_average.
  destruct values as [|v0 rest]; [reflexivity|].
  set (values := v0 :: rest).
  destruct (window <=? 0) eqn:E0; [apply Z.leb_le in E0; lia|clear E0].
  destruct (len values <? window) eqn:E.
  - apply cumulative_average_length.
  - apply Z.ltb_ge in E. unfold len in E.
    rewrite length_app, cumulative_average_length. cbn [List.length].
    rewrite sliding_average_length, length_skipn, length_firstn.
    unfold len. lia.
Qed.

Lemma Qlist_min_spec (v : Q) (rest : list Q) :
  In (Qlist_min (v :: rest)) (v :: rest) /\
  Forall (fun x => Qlist_min (v :: rest) <= x)%Q (v :: rest).
Proof.
  unfold Qlist_min.
  assert (G : forall l best,
             (In (fold_left (fun best x => if Qltb x best then x else best) l best)
                 (best :: l)) /\
             (fold_left (fun best x => if Qltb x best then x else best) l best <= best)%Q /\
             Forall (fun x =>
                       fold_left (fun best x => if Qltb x best then x else best) l best
                       <= x)%Q l).
  { induction l as [|x l IH]; intros best; cbn [fold_left].
    - split; [now left|]. split; [lra|constructor].
    - destruct (Qltb x best) eqn:E.
      + apply Qltb_true in E. destruct (IH x) as (I & L & F).
        split; [right; exact I|]. split; [lra|]. constructor; assumption.
      + apply Qltb_false in E. destruct (IH best) as (I & L & F).
        split; [destruct I as [I|I]; [now left|right; now right]|].
        split; [exact L|]. constructor; [lra|exact F]. }
  destruct (G rest v) as (I & L & F).
  split; [exact I|]. constructor; assumption.
Qed.

Lemma Qlist_max_spec (v : Q) (rest : list Q) :
  In (Qlist_max (v :: rest)) (v :: rest) /\
  Forall (fun x => x <= Qlist_max (v :: rest))%Q (v :: rest).
Proof.
  unfold Qlist_max.
  assert (G : forall l best,
             (In (fold_left (fun best x => if Qltb best x then x else best) l best)
                 (best :: l)) /\
             (best <= fold_left (fun best x => if Qltb best x then x else best) l best)%Q /\
             Forall (fun x =>
                       x <= fold_left (fun best x => if Qltb best x then x else best) l best)%Q
                    l).
  { induction l as [|x l IH]; intros best; cbn [fold_left].
    - split; [now left|]. split; [lra|constructor].
    - destruct (Qltb best x) eqn:E.
      + apply Qltb_true in E. destruct (IH x) as (I & L & F).
        split; [right; exact I|]. split; [lra|]. constructor; assumption.
      + apply Qltb_false in E. destruct (IH best) as (I & L & F).
        split; [destruct I as [I|I]; [now left|right; now right]|].
        split; [exact L|]. constructor; [lra|exact F]. }
  destruct (G rest v) as (I & L & F).
  split; [exact I|]. constructor; assumption.
Qed.


Lemma resolved_issue_nonneg (now : clock) (issue : value) (r : resolved_issue) :
  resolved_issue_of now issue = Ok (Some r) -> (0 <= resolution_days r)%Q.
Proof.
  unfold resolved_issue_of. intros H.
  destruct issue; try discriminate.
  inv_res H; try discriminate. injection H as <-. cbn [resolution_days].
  match goal with |- (0 <= py_max 0 ?d)%Q =>
    destruct (py_max_spec 0 d) as [[A ->]|[A ->]]; lra end.
Qed.

Lemma issue_sort_perm (resolved s : list resolved_issue) :
  sort_by (fun a b => datetime_lt (closed_date a) (closed_date b)) resolved = Ok s ->
  Permutation s resolved.
Proof.
  change (fun a b : resolved_issue => datetime_lt (closed_date a) (closed_date b))
    with (guarded_lt (fun x => is_aware (closed_date x)) closing_instant).
  intros H. apply sort_by_ok in H. destruct H as [_ ->]. apply sort_key_perm.
Qed.

(** X13: a result of [compute_issue_trend] without [statistics] reports
    a flat, undetermined trend for fewer than two resolved issues.  With
    [statistics], at least two issues were resolved and no more than
    there are issues; the series, the values and the moving average have
    one entry per resolved issue; no value is negative; [min_days] and
    [max_days] are entries of the rounded values and every entry lies
    between them, so [0 <= min_days <= max_days]; and [average_days] is
    not negative. *)
Theorem issue_trend_statistics (now : clock) (issues : list value)
    (r : issue_trend_result) :
  compute_issue_trend now issues = Ok r ->
  match it_statistics r with
  | Some st =>
      2 <= total_resolved st <= len issues /\
      len (it_resolution_series r) = total_resolved st /\
      len (it_moving_average r) = total_resolved st /\
      (exists values, it_resolution_values r = Some values /\
         len values = total_resolved st /\ Forall (fun v => 0 <= v)%Q values /\
         In (min_days st) values /\ In (max_days st) values /\
         Forall (fun v => min_days st <= v <= max_days st)%Q values) /\
      (exists ma, it_ma_values r = Some ma /\ len ma = total_resolved st) /\
      (0 <= min_days st)%Q /\ (min_days st <= max_days st)%Q /\
      (0 <= average_days st)%Q
  | None =>
      len (it_resolution_series r) < 2 /\
      it_regression r = no_regression /\
      it_trend_direction r = "sabit"%string /\
      it_trend_strength r = "belirsiz"%string
  end.
Proof.
  intros H. unfold compute_issue_trend in H.
  destruct issues as [|i rest].
  { injection H as <-. cbn. repeat split. }
  destruct (resolved_issues_of now (i :: rest)) as [resolved|] eqn:Er;
    cbn [bind] in H; [|discriminate].
  pose proof (collect_length _ _ _ Er) as Lr.
  pose proof (collect_Forall _ (fun x => 0 <= resolution_days x)%Q _ _
                (resolved_issue_nonneg now) Er) as Fr.
  destruct (len resolved <? 2) eqn:E2.
  { apply Z.ltb_lt in E2. injection H as <-.
    cbn [it_statistics it_resolution_series it_regression it_trend_direction
         it_trend_strength].
    unfold len in *. rewrite length_map. repeat split. exact E2. }
  apply Z.ltb_ge in E2.
  destruct (sort_by _ resolved) as [s|] eqn:Es; cbn [bind] in H; [|discriminate].
  pose proof (issue_sort_perm _ _ Es) as P.
  assert (Ls : len s = len resolved) by (apply perm_len; exact P).
  assert (Fs : Forall (fun x => 0 <= resolution_days x)%Q s)
    by (apply (Permutation_Forall (Permutation_sym P)); exact Fr).
  injection H as <-.
  cbn [it_statistics it_resolution_series it_moving_average it_resolution_values
       it_ma_values total_resolved min_days average_days max_days].
  set (values := map resolution_days s).
  assert (Lv : len values = len s) by (unfold values, len; now rewrite length_map).
  assert (Fv : Forall (fun v => 0 <= v)%Q values).
  { unfold values. rewrite Forall_map. exact Fs. }
  clearbody values.
  destruct values as [|v vs] eqn:Ev.
  { unfold len in *. cbn [List.length] in Lv. lia. }
  rewrite <- Ev in *.
  assert (Imin : In (Qlist_min values) values /\
                 Forall (fun x => Qlist_min values <= x)%Q values)
    by (rewrite Ev; apply Qlist_min_spec).
  assert (Imax : In (Qlist_max values) values /\
                 Forall (fun x => x <= Qlist_max values)%Q values)
    by (rewrite Ev; apply Qlist_max_spec).
  destruct Imin as [Imin Fmin]. destruct Imax as [Imax Fmax].
  rewrite Forall_forall in Fv, Fmin, Fmax.
  split; [lia|].
  split; [unfold len; now rewrite length_map|].
  split; [unfold len, index_list; rewrite length_map, length_combine, length_seq,
            Nat.min_id, length_map; reflexivity|].
  split.
  { eexists. split; [reflexivity|]. split.
    { unfold len. rewrite length_map. exact Lv. }
    split.
    { rewrite Forall_map, Forall_forall. intros x Hx. cbn beta.
      rewrite <- (py_round_0 2). apply py_round_mono. now apply Fv. }
    split; [exact (in_map (fun t => py_round t 2) _ _ Imin)|].
    split; [exact (in_map (fun t => py_round t 2) _ _ Imax)|].
    rewrite Forall_map, Forall_forall. intros x Hx. cbn beta.
    split; apply py_round_mono; [now apply Fmin|now apply Fmax]. }
  split.
  { eexists. split; [reflexivity|].
    unfold len in *. rewrite length_map, moving_average_length;
      [exact Lv|apply Z.min_glb_lt; lia]. }
  split.
  { rewrite <- (py_round_0 2). apply py_round_mono. now apply Fv. }
  split.
  { apply py_round_mono. now apply Fmin. }
  rewrite <- (py_round_0 2). apply py_round_mono.
  assert (Lpos : (0 < inject_Z (len values))%Q).
  { change 0%Q with (inject_Z 0). rewrite <- Zlt_Qlt. unfold len in *. lia. }
  apply Qle_shift_div_l; [exact Lpos|].
  rewrite Qmult_0_l. apply Qsum_nonneg. rewrite Forall_forall. exact Fv.
Qed.

Lemma issue_trend_statistics_witness :
  exists r st, compute_issue_trend sample_clock sample_issues = Ok r /\
    it_statistics r = Some st /\ total_resolved st = 2 /\
    (min_days st <= max_days st)%Q.
Proof.
  destruct (compute_issue_trend sample_clock sample_issues) as [r|e] eqn:E.
  - pose proof (issue_trend_statistics sample_clock sample_issues r E) as H.
    destruct (it_statistics r) as [st|] eqn:Est.
    + exists r, st. split; [reflexivity|]. split; [exact Est|].
      destruct H as (_ & _ & _ & _ & _ & _ & Hm & _).
      split; [|exact Hm].
      vm_compute in E. injection E as <-. cbn in Est. injection Est as <-. reflexivity.
    + vm_compute in E. injection E as <-. discriminate Est.
  - vm_compute in E. discriminate.
Defined.

End IssueStatistics.

(** ** The health indicator *)

Section Health.
Local Open Scope Z_scope.

Ltac eqb_cases :=
  repeat match goal with
         | |- context [String.eqb ?a ?b] =>
           let E := fresh "E" in
           destruct (String.eqb a b) eqn:E;
           [apply String.eqb_eq in E|apply String.eqb_neq in E]
         end.

(** X14: the health score lies between 25 and 100, so the clamp to
    [0, 100] never changes it; the status is "kritik" exactly when
    commits decrease and issue resolution worsens; and the score is 100
    exactly when commits increase and issue resolution improves, both
    strongly. *)
Theorem health_indicator_range (commit_trend : commit_trend_result)
    (issue_trend : issue_trend_result) :
  let h := _calculate_health_indicator commit_trend issue_trend in
  25 <= hi_score h <= 100 /\
  (hi_status h = "kritik"%string <->
   ct_trend_direction commit_trend = "azalan"%string /\
   it_trend_direction issue_trend = "kötüleşiyor"%string) /\
  (hi_score h = 100 <->
   ct_trend_direction commit_trend = "artan"%string /\
   ct_trend_strength commit_trend = "güçlü"%string /\
   it_trend_direction issue_trend = "iyileşiyor"%string /\
   it_trend_strength issue_trend = "güçlü"%string) /\
  (hi_status h = "sağlıklı"%string <-> 70 <= hi_score h).
Proof.
  unfold _calculate_health_indicator.
  destruct commit_trend as [? ? ? ? ? cd cs ? ? ?].
  destruct issue_trend as [? ? ? ? ? idir istr ? ?].
  cbn [ct_trend_direction ct_trend_strength it_trend_direction it_trend_strength].
  cbv zeta.
  eqb_cases; subst; try discriminate; cbn;
    (split; [lia|]); repeat split; intros;
    repeat match goal with H : _ /\ _ |- _ => destruct H end;
    subst; try congruence; try discriminate; try lia.
Qed.

End Health.

(** ** Dates written and read back *)

Section DateText.
Local Open Scope Z_scope.

Lemma digit_cases (k : Z) :
  0 <= k < 10 ->
  k = 0 \/ k = 1 \/ k = 2 \/ k = 3 \/ k = 4 \/ k = 5 \/ k = 6 \/ k = 7 \/ k = 8 \/ k = 9.
Proof. lia. Qed.

Lemma digit_of_ascii_of_digit (k : Z) :
  0 <= k < 10 -> digit_of (ascii_of_digit k) = Some k.
Proof.
  intros H. apply digit_cases in H.
  repeat (destruct H as [->|H]; [reflexivity|]). subst. reflexivity.
Qed.

Lemma parse_digits_app (n m : nat) (acc v : Z) (s1 s2 : list ascii) :
  List.length s1 = n -> parse_digits n acc s1 = Some (v, []) ->
  parse_digits (n + m) acc (s1 ++ s2) = parse_digits m v s2.
Proof.
  revert acc s1. induction n as [|n IH]; intros acc s1 Hl H.
  - destruct s1; [|discriminate]. cbn in H. injection H as <-. reflexivity.
  - destruct s1 as [|c s1]; [discriminate|]. cbn [parse_digits] in H.
    cbn [Nat.add parse_digits app].
    destruct (digit_of c) as [d|]; [|discriminate].
    apply IH; [now injection Hl|exact H].
Qed.

Lemma parse_digits_digits_of (n : nat) (acc z : Z) :
  0 <= z < 10 ^ Z.of_nat n ->
  parse_digits n acc (digits_of n z) = Some (acc * 10 ^ Z.of_nat n + z, []).
Proof.
  revert acc z. induction n as [|n IH]; intros acc z Hz.
  - cbn in Hz |- *. do 2 f_equal. lia.
  - rewrite Nat2Z.inj_succ, Z.pow_succ_r in Hz |- * by lia.
    cbn [digits_of]. rewrite <- Nat.add_1_r.
    assert (Hq : 0 <= z / 10 < 10 ^ Z.of_nat n).
    { split; [apply Z.div_pos; lia|apply Z.div_lt_upper_bound; lia]. }
    rewrite (parse_digits_app n 1 acc _ _ _ (digits_of_length n _) (IH acc _ Hq)).
    cbn [parse_digits].
    rewrite digit_of_ascii_of_digit by (apply Z.mod_pos_bound; lia).
    do 2 f_equal. pose proof (Z.div_mod z 10 ltac:(lia)). lia.
Qed.

Lemma parse_digits_text (n : nat) (z : Z) (rest : list ascii) :
  0 <= z < 10 ^ Z.of_nat n ->
  parse_digits n 0 (digits_of n z ++ rest) = Some (z, rest).
Proof.
  intros Hz. rewrite <- (Nat.add_0_r n) at 1.
  rewrite (parse_digits_app n 0 0 z); [reflexivity|apply digits_of_length|].
  now rewrite parse_digits_digits_of.
Qed.

Lemma replace_Z_app (s1 s2 : list ascii) :
  replace_Z (s1 ++ s2) = replace_Z s1 ++ replace_Z s2.
Proof.
  induction s1 as [|c s1 IH]; [reflexivity|]. cbn [app replace_Z].
  destruct (Ascii.eqb c "Z"); rewrite IH; [now rewrite <- app_assoc|reflexivity].
Qed.

Lemma replace_Z_digits (n : nat) (z : Z) : replace_Z (digits_of n z) = digits_of n z.
Proof.
  revert z. induction n as [|n IH]; intros z; [reflexivity|].
  cbn [digits_of]. rewrite replace_Z_app, IH. f_equal.
  pose proof (Z.mod_pos_bound z 10 ltac:(lia)) as H. apply digit_cases in H.
  repeat (destruct H as [->|H]; [reflexivity|]). rewrite H. reflexivity.
Qed.

Lemma first_cycle_months : forall_from (Z.to_nat _DI400Y) 1 cycle_month_ok = true.
Proof. vm_compute. reflexivity. Qed.

Lemma days_in_month_shift (y m q : Z) :
  _days_in_month (y + 400 * q) m = _days_in_month y m.
Proof. unfold _days_in_month. now rewrite is_leap_shift. Qed.

Lemma ord2ymd_day_of_month (n : Z) :
  1 <= n <= MAXORDINAL ->
  let '(y, m, d) := _ord2ymd n in d <= _days_in_month y m.
Proof.
  intros Hn. rewrite ord2ymd_cycle.
  set (q := (n - 1) / _DI400Y). set (r := (n - 1) mod _DI400Y).
  assert (Hr : 0 <= r < _DI400Y) by (apply Z.mod_pos_bound; reflexivity).
  assert (Hc : cycle_month_ok (r + 1) = true).
  { apply (forall_from_spec _ _ _ first_cycle_months).
    rewrite Z2Nat.id by (unfold _DI400Y; lia). lia. }
  unfold cycle_month_ok in Hc.
  destruct (_ord2ymd (r + 1)) as [[y m] d]. cbn [shift_year].
  rewrite days_in_month_shift. now apply Z.leb_le.
Qed.

(** X15: the text that [strftime('%Y-%m-%d')] writes for a day (from the
    year 1000 on) is read back by [_parse_datetime] as midnight of that
    day, without a UTC offset, whatever the clock. *)
Theorem parse_strftime_roundtrip (now : clock) (d : datetime) :
  FIRST_FOUR_DIGIT_DAY <= dt_day d <= MAXORDINAL ->
  _parse_datetime now (VStr (strftime_ymd d)) = Ok (date_of_ordinal (dt_day d)).
Proof.
  intros Hd.
  assert (Hn : 1 <= dt_day d <= MAXORDINAL).
  { assert (1 <= FIRST_FOUR_DIGIT_DAY) by (vm_compute; discriminate). lia. }
  pose proof (ord2ymd_roundtrip _ Hn) as R.
  pose proof (ord2ymd_day_of_month _ Hn) as M.
  unfold _parse_datetime, strftime_ymd.
  destruct (_ord2ymd (dt_day d)) as [[y m] dd].
  destruct R as (E & Hy & Hm & Hdd).
  rewrite list_ascii_of_string_of_list_ascii.
  rewrite !replace_Z_app, !replace_Z_digits.
  change (replace_Z ["-"%char]) with ["-"%char].
  unfold fromisoformat, parse_isoformat_date.
  rewrite parse_digits_text by (cbn; lia).
  cbn [app expect]. rewrite Ascii.eqb_refl.
  rewrite parse_digits_text by (cbn; lia).
  cbn [app expect]. rewrite Ascii.eqb_refl.
  rewrite <- (app_nil_r (digits_of 2 dd)).
  rewrite parse_digits_text by (cbn; lia).
  unfold new_datetime.
  repeat match goal with
         | |- context [?a <=? ?b] =>
           let L := fresh in
           assert (L : (a <=? b) = true) by (apply Z.leb_le; first [lia | reflexivity]);
           rewrite L; clear L
         end.
  cbn [andb]. rewrite E. reflexivity.
Qed.

Lemma parse_strftime_roundtrip_witness :
  _parse_datetime sample_clock (VStr "2024-02-29")
  = Ok (date_of_ordinal (_ymd2ord 2024 2 29)).
Proof.
  apply (parse_strftime_roundtrip sample_clock (date_of_ordinal (_ymd2ord 2024 2 29))).
  vm_compute. split; discriminate.
Defined.

End DateText.

(** ** The overall score *)

Section OverallScore.
Local Open Scope Q_scope.










End OverallScore.

(** ** Grade descriptions *)

Section GradeDescription.
Local Open Scope Q_scope.

(** X17: every grade that [get_grade] returns has a description of its
    own: [get_grade_description] never answers "Bilinmeyen not" for it,
    and grades of different bands are described differently. *)
Theorem grade_always_described (score score' : Q) :
  dict_mem descriptions (get_grade score) = true /\
  get_grade_description (get_grade score) <> "Bilinmeyen not"%string /\
  (get_grade_description (get_grade score) = get_grade_description (get_grade score') ->
   get_grade score = get_grade score').
Proof.
  assert (G : forall s, In (get_grade s) (map fst GRADE_THRESHOLDS)).
  { intros s. unfold get_grade, GRADE_THRESHOLDS. cbn [first_grade].
    repeat match goal with
           | |- context [Qle_bool ?a s] => destruct (Qle_bool a s)
           end; cbn; tauto. }
  pose proof (G score) as H. pose proof (G score') as H'.
  cbn in H, H'.
  repeat (destruct H as [H|H]); try contradiction; rewrite <- H;
    (split; [reflexivity|split; [discriminate|]]);
    repeat (destruct H' as [H'|H']); try contradiction; rewrite <- H';
    intros E; first [reflexivity | discriminate E].
Qed.

End GradeDescription.

(** ** The weekly summary *)

Section WeeklySummary.
Local Open Scope Z_scope.





Section SortLt.
Context {A : Type} (lt : A -> A -> bool).
Hypothesis lt_asym : forall a b, lt a b = true -> lt b a = false.





End SortLt.





End WeeklySummary.

(** ** Reading the dates of the daily series *)

Section SeriesDates.
Local Open Scope Z_scope.

Lemma digit_class (c : ascii) :
  in_range "0" "9" c = match digit_of c with Some _ => true | None => false end.
Proof.
  unfold in_range, digit_of.
  change (nat_of_ascii "0") with 48%nat. change (nat_of_ascii "9") with 57%nat.
  destruct (Nat.leb_spec 48 (nat_of_ascii c)); destruct (Nat.leb_spec (nat_of_ascii c) 57);
    destruct (Z.leb_spec 48 (Z.of_nat (nat_of_ascii c)));
    destruct (Z.leb_spec (Z.of_nat (nat_of_ascii c)) 57); cbn; try reflexivity; lia.
Qed.

Lemma match_pattern_digits (n : nat) (acc : Z) (s : list ascii) :
  match_pattern (repeat (in_range "0" "9") n) acc s = parse_digits n acc s.
Proof.
  revert acc s. induction n as [|n IH]; intros acc s; [reflexivity|].
  cbn [repeat match_pattern parse_digits].
  destruct s as [|c s]; [reflexivity|].
  rewrite digit_class. destruct (digit_of c); [apply IH|reflexivity].
Qed.

Lemma match_format_single (p : list cclass) (f : list fmt_item) (s s' : list ascii)
    (v : Z) :
  match_pattern p 0 s = Some (v, s') ->
  match_format (Directive [p] :: f) s
  = match match_format f s' with
    | Some (vs, rest) => Some (v :: vs, rest)
    | None => None
    end.
Proof. intros H. cbn [match_format]. rewrite H. now destruct (match_format f s'). Qed.

Lemma month_day_texts :
  forallb (fun m => forallb (month_day_text_ok m) (zrange 1 31)) (zrange 1 12) = true.
Proof. vm_compute. reflexivity. Qed.

Lemma month_day_text (m d : Z) :
  1 <= m <= 12 -> 1 <= d <= 31 ->
  match_format
    [Literal "-"; Directive directive_m; Literal "-"; Directive directive_d]
    (["-"%char] ++ digits_of 2 m ++ ["-"%char] ++ digits_of 2 d)
  = Some ([m; d], []).
Proof.
  intros Hm Hd. pose proof month_day_texts as H.
  rewrite forallb_forall in H. specialize (H m (proj2 (zrange_In 1 12 m) Hm)).
  rewrite forallb_forall in H. specialize (H d (proj2 (zrange_In 1 31 d) Hd)).
  unfold month_day_text_ok in H.
  destruct (match_format _ _) as [[[|m' [|d' [|? ?]]] [|? ?]]|]; try discriminate.
  apply andb_prop in H. destruct H as [A B].
  apply Z.eqb_eq in A, B. now subst.
Qed.

(** [strptime] reads the text of a day back as that day. *)
Lemma strptime_strftime (n : Z) :
  1 <= n <= MAXORDINAL ->
  strptime (list_ascii_of_string (strftime_ymd (date_of_ordinal n))) FORMAT_DATE
  = Some (date_of_ordinal n).
Proof.
  intros Hn.
  pose proof (ord2ymd_roundtrip _ Hn) as R.
  pose proof (ord2ymd_day_of_month _ Hn) as M.
  unfold strptime, strftime_ymd, date_of_ordinal. cbn [dt_day].
  destruct (_ord2ymd n) as [[y m] d].
  destruct R as (E & Hy & Hm & Hd).
  rewrite list_ascii_of_string_of_list_ascii.
  unfold FORMAT_DATE, directive_Y.
  change [in_range "0" "9"; in_range "0" "9"; in_range "0" "9"; in_range "0" "9"]
    with (repeat (in_range "0" "9") 4).
  rewrite (match_format_single _ _ _
             (["-"%char] ++ digits_of 2 m ++ ["-"%char] ++ digits_of 2 d) y).
  2:{ rewrite match_pattern_digits. apply parse_digits_text. cbn. lia. }
  rewrite month_day_text by assumption.
  cbn [nth]. unfold new_datetime.
  repeat match goal with
         | |- context [?a <=? ?b] =>
           let L := fresh in
           assert (L : (a <=? b) = true) by (apply Z.leb_le; first [lia | reflexivity]);
           rewrite L; clear L
         end.
  cbn [andb]. rewrite E. reflexivity.
Qed.

Lemma weekly_counts_returns (time_series : list (string * Z)) (acc : dict Z) :
  Forall (fun entry => exists n, 1 <= n <= MAXORDINAL /\
                         fst entry = strftime_ymd (date_of_ordinal n)) time_series ->
  exists weekly, weekly_counts time_series acc = Ok weekly.
Proof.
  intros F. revert acc. induction F as [|[date count] rest (n & Hn & Hd) F IH]; intros acc.
  - eexists. reflexivity.
  - cbn [fst] in Hd. subst date. cbn [weekly_counts].
    rewrite (strptime_strftime n Hn). apply IH.
Qed.

Lemma best_by_In {A : Type} (better : A -> A -> res bool) (best m : A) (l : list A) :
  best_by better best l = Ok m -> In m (best :: l).
Proof.
  revert best. induction l as [|x l IH]; intros best H.
  - cbn in H. injection H as <-. now left.
  - cbn [best_by] in H. destruct (better x best) as [b|]; cbn [bind] in H; [|discriminate].
    apply IH in H. destruct b; destruct H as [<-|H]; cbn; tauto.
Qed.

(** The dates of the daily series are days between two dates of the
    commits. *)
Lemma commit_trend_series_days (now : clock) (commits : list value)
    (dates : list datetime) (r : commit_trend_result) (lo hi : Z) :
  commit_dates now commits = Ok dates ->
  Forall (fun d => lo <= dt_day d <= hi) dates ->
  compute_commit_trend now commits = Ok r ->
  Forall (fun entry => exists n, lo <= n <= hi /\
                         fst entry = strftime_ymd (date_of_ordinal n))
         (ct_time_series r).
Proof.
  intros Hd Fd H. unfold compute_commit_trend in H.
  destruct commits as [|c rest].
  { injection H as <-. constructor. }
  rewrite Hd in H. cbn [bind] in H.
  rewrite Forall_forall in Fd.
  destruct (len dates <? 2) eqn:E2.
  { injection H as <-. cbn [ct_time_series].
    destruct dates as [|d ds]; constructor; [|constructor].
    exists (dt_day d). split; [apply Fd; now left|reflexivity]. }
  destruct (sort_datetimes dates) as [s|] eqn:Es; cbn [bind] in H; [|discriminate].
  destruct (sort_datetimes_ok _ _ Es) as [_ Hs].
  assert (P : Permutation s dates) by (rewrite Hs; apply sort_key_perm).
  destruct (min_datetime (datetime_now now) s) as [first|] eqn:Emin;
    cbn [bind] in H; [|discriminate].
  destruct (max_datetime (datetime_now now) s) as [last|] eqn:Emax;
    cbn [bind] in H; [|discriminate].
  destruct (fill_days _ _ _ _) as [ts|] eqn:Ef; cbn [bind] in H; [|discriminate].
  injection H as <-. cbn [ct_time_series].
  apply fill_days_ok in Ef; [|lia].
  assert (Hfirst : In first dates).
  { destruct s as [|a t].
    - apply Permutation_nil in P. subst dates. discriminate E2.
    - apply (Permutation_in _ P). unfold min_datetime in Emin.
      now apply best_by_In in Emin. }
  assert (Hlast : In last dates).
  { destruct s as [|a t].
    - apply Permutation_nil in P. subst dates. discriminate E2.
    - apply (Permutation_in _ P). unfold max_datetime in Emax.
      now apply best_by_In in Emax. }
  rewrite Ef, Forall_map, Forall_forall. intros n Hn. apply zrange_In in Hn.
  exists n. split; [|reflexivity].
  pose proof (Fd _ Hfirst). pose proof (Fd _ Hlast). lia.
Qed.

(** X19: once the two trends are computed, [compute_weekly_summary]
    returns: [strptime] reads every date of the daily series, which
    [compute_commit_trend] wrote, so the grouping by week raises no
    [ValueError] (commit dates from the year 1000 on, where [%Y] writes
    four digits). *)
Theorem weekly_summary_returns (now now' : clock) (commits issues : list value)
    (dates : list datetime) (ct : commit_trend_result) (it : issue_trend_result) :
  commit_dates now commits = Ok dates ->
  Forall (fun d => FIRST_FOUR_DIGIT_DAY <= dt_day d <= MAXORDINAL) dates ->
  compute_commit_trend now commits = Ok ct ->
  compute_issue_trend now' issues = Ok it ->
  exists r, compute_weekly_summary now now' commits issues = Ok r /\
    ws_commit_trend r = ct /\ ws_issue_trend r = it /\
    ws_overall_health r = _calculate_health_indicator ct it.
Proof.
  intros Hd Fd Hc Hi. unfold compute_weekly_summary.
  rewrite Hc, Hi. cbn [bind].
  pose proof (commit_trend_series_days _ _ _ _ _ _ Hd Fd Hc) as F.
  destruct (weekly_counts_returns (ct_time_series ct) []) as [w Hw].
  { apply (Forall_impl _ (P := fun entry => exists n,
               FIRST_FOUR_DIGIT_DAY <= n <= MAXORDINAL /\
               fst entry = strftime_ymd (date_of_ordinal n))); [|exact F].
    intros e (n & Hn & He). exists n. split; [|exact He].
    assert (1 <= FIRST_FOUR_DIGIT_DAY) by (vm_compute; discriminate). lia. }
  rewrite Hw. cbn [bind]. eexists. repeat split.
Qed.

Lemma weekly_summary_returns_witness :
  exists r, compute_weekly_summary sample_clock sample_clock sample_commits sample_issues
            = Ok r.
Proof.
  destruct (compute_commit_trend sample_clock sample_commits) as [ct|] eqn:Ec.
  - destruct (compute_issue_trend sample_clock sample_issues) as [it|] eqn:Ei.
    + destruct (weekly_summary_returns sample_clock sample_clock sample_commits
                  sample_issues sample_dates ct it) as (r & Hr & _).
      * vm_compute. reflexivity.
      * repeat constructor; vm_compute; congruence.
      * exact Ec.
      * exact Ei.
      * exists r. exact Hr.
    + vm_compute in Ei. discriminate.
  - vm_compute in Ec. discriminate.
Defined.

End SeriesDates.

(** ** The analysis of a repository *)

Section Analysis.
Local Open Scope Q_scope.




End Analysis.

(** ** The scale of the normalizer *)

Section Scale.
Local Open Scope Q_scope.

Lemma clamp01_inside (x : Q) : 0 <= x <= 1 -> clamp01 x == x.
Proof.
  intros H. unfold clamp01.
  destruct (py_min_spec 1 x) as [[A ->]|[A ->]].
  - destruct (py_max_spec 0 x) as [[B ->]|[B ->]]; lra.
  - destruct (py_max_spec 0 1) as [[B ->]|[B ->]]; lra.
Qed.

(** X21: on a scale [min_val < max_val] the normalizer saturates beyond
    the two ends, at 0 below [min_val] and at 100 above [max_val], or
    the other way round when [inverse] is set; between them the clamp
    does nothing and the score is the fraction
    [(value - min_val) / (max_val - min_val)], or one minus it when
    [inverse] is set, times 100 and rounded to two decimals. *)
Theorem normalize_piecewise (value min_val max_val : Q) (inverse : bool) :
  min_val < max_val ->
  (value <= min_val ->
   _normalize_score value min_val max_val inverse == if inverse then 100 else 0) /\
  (max_val <= value ->
   _normalize_score value min_val max_val inverse == if inverse then 0 else 100) /\
  (min_val <= value <= max_val ->
   _normalize_score value min_val max_val inverse
   = let normalized := (value - min_val) / (max_val - min_val) in
     py_round ((if inverse then 1 - normalized else normalized) * 100) 2).
Proof.
  intros Hlh. split; [|split].
  - intros Hv. now apply normalize_low.
  - intros Hv. now apply normalize_high.
  - intros [Hlo Hhi]. rewrite normalize_unfold by lra.
    assert (C : clamp01 ((value - min_val) / (max_val - min_val))
                == (value - min_val) / (max_val - min_val)).
    { apply clamp01_inside. split.
      - apply Qle_shift_div_l; lra.
      - apply Qle_shift_div_r; lra. }
    cbv zeta. apply py_round_comp. destruct inverse; rewrite C; reflexivity.
Qed.

Lemma normalize_piecewise_witness :
  _normalize_score 6 0 5 false == 100 /\
  _normalize_score 6 0 5 true == 0 /\
  _normalize_score 2 0 5 false == 40.
Proof.
  destruct (normalize_piecewise 6 0 5 false) as (_ & H1 & _); [reflexivity|].
  destruct (normalize_piecewise 6 0 5 true) as (_ & H2 & _); [reflexivity|].
  destruct (normalize_piecewise 2 0 5 false) as (_ & _ & H3); [reflexivity|].
  split; [apply H1; discriminate|]. split; [apply H2; discriminate|].
  rewrite H3; [vm_compute; reflexivity|split; discriminate].
Defined.

End Scale.

(** ** Reading the timestamps of the API *)

Section Timestamps.
Local Open Scope Z_scope.

Lemma time_texts :
  forallb (fun h => forallb (fun m => forallb (time_text_ok h m) (zrange 0 59))
                            (zrange 0 59))
          (zrange 0 23) = true.
Proof. vm_compute. reflexivity. Qed.

Lemma time_text_parsed (h m s : Z) :
  0 <= h <= 23 -> 0 <= m <= 59 -> 0 <= s <= 59 ->
  parse_isoformat_time (time_text h m s ++ list_ascii_of_string "+00:00")
  = Some (h, m, s, 0, Some 0).
Proof.
  intros Hh Hm Hs. pose proof time_texts as H.
  rewrite forallb_forall in H. specialize (H h (proj2 (zrange_In 0 23 h) Hh)).
  rewrite forallb_forall in H. specialize (H m (proj2 (zrange_In 0 59 m) Hm)).
  rewrite forallb_forall in H. specialize (H s (proj2 (zrange_In 0 59 s) Hs)).
  unfold time_text_ok in H.
  destruct (parse_isoformat_time _) as [[[[[h' m'] s'] us] [o|]]|]; try discriminate.
  repeat (apply andb_prop in H; destruct H as [H ?]).
  repeat match goal with E : (_ =? _) = true |- _ => apply Z.eqb_eq in E end.
  now subst.
Qed.

Lemma replace_Z_time_text (h m s : Z) :
  replace_Z (time_text h m s) = time_text h m s.
Proof.
  unfold time_text. rewrite !replace_Z_app, !replace_Z_digits. reflexivity.
Qed.

(** X22: a timestamp of the GitHub API, [YYYY-MM-DDTHH:MM:SSZ], is read
    by [_parse_datetime] as that second of that day with the UTC offset
    zero, whatever the clock. *)
Theorem parse_github_timestamp (now : clock) (n hour minute second : Z) :
  1 <= n <= MAXORDINAL ->
  0 <= hour <= 23 -> 0 <= minute <= 59 -> 0 <= second <= 59 ->
  _parse_datetime now (VStr (github_timestamp n hour minute second))
  = Ok (mkdatetime n ((hour * 3600 + minute * 60 + second) * US_PER_SECOND) (Some 0)).
Proof.
  intros Hn Hh Hm Hs.
  pose proof (ord2ymd_roundtrip _ Hn) as R.
  pose proof (ord2ymd_day_of_month _ Hn) as M.
  unfold _parse_datetime, github_timestamp.
  destruct (_ord2ymd n) as [[y mo] d].
  destruct R as (E & Hy & Hmo & Hd).
  rewrite list_ascii_of_string_of_list_ascii.
  rewrite !replace_Z_app, !replace_Z_digits, replace_Z_time_text.
  change (replace_Z ["-"%char]) with ["-"%char].
  change (replace_Z ["T"%char]) with ["T"%char].
  change (replace_Z ["Z"%char]) with (list_ascii_of_string "+00:00").
  unfold fromisoformat, parse_isoformat_date.
  rewrite parse_digits_text by (cbn; lia).
  cbn [app expect]. rewrite Ascii.eqb_refl.
  rewrite parse_digits_text by (cbn; lia).
  cbn [app expect]. rewrite Ascii.eqb_refl.
  rewrite parse_digits_text by (cbn; lia).
  cbn [app]. change (skip_separator ("T"%char :: ?t)) with t.
  rewrite time_text_parsed by assumption.
  unfold new_datetime.
  repeat match goal with
         | |- context [?a <=? ?b] =>
           let L := fresh in
           assert (L : (a <=? b) = true) by (apply Z.leb_le; first [lia | reflexivity]);
           rewrite L; clear L
         end.
  cbn [andb]. change ((- US_PER_DAY <? 0) && (0 <? US_PER_DAY)) with true.
  cbn [andb]. rewrite E. do 2 f_equal. lia.
Qed.

Lemma parse_github_timestamp_witness :
  _parse_datetime sample_clock (VStr "2024-01-15T10:30:00Z")
  = Ok (mkdatetime (_ymd2ord 2024 1 15) ((10 * 3600 + 30 * 60 + 0) * US_PER_SECOND)
          (Some 0)).
Proof.
  apply (parse_github_timestamp sample_clock (_ymd2ord 2024 1 15) 10 30 0);
    vm_compute; split; discriminate.
Defined.

End Timestamps.

(** ** Priorities *)

Section Priorities.
Local Open Scope Q_scope.

Lemma improvement_of_priority (weights : dict Q) (metric_name : string) (score : Q) :
  let i := improvement_of weights metric_name score in
  (priority i = "Yüksek"%string -> 15 <= potential_gain i) /\
  (priority i = "Orta"%string -> 8 <= potential_gain i <= 15) /\
  (priority i = "Düşük"%string -> potential_gain i <= 8).
Proof.
  unfold improvement_of. cbv zeta. cbn [priority potential_gain].
  set (weight := match dict_get weights metric_name with Some w => w | None => 0.25 end).
  unfold _get_priority. cbv zeta.
  set (impact := (100 - score) * weight).
  pose proof (py_round_Z 15 2) as R15. pose proof (py_round_Z 8 2) as R8.
  change (inject_Z 15) with 15 in R15. change (inject_Z 8) with 8 in R8.
  destruct (Qltb 15 impact) eqn:E15.
  - apply Qltb_true in E15.
    pose proof (py_round_mono 15 impact 2 ltac:(lra)).
    repeat split; intros; try discriminate; lra.
  - apply Qltb_false in E15. pose proof (py_round_mono impact 15 2 E15).
    destruct (Qltb 8 impact) eqn:E8.
    + apply Qltb_true in E8. pose proof (py_round_mono 8 impact 2 ltac:(lra)).
      repeat split; intros; try discriminate; lra.
    + apply Qltb_false in E8. pose proof (py_round_mono impact 8 2 E8).
      repeat split; intros; try discriminate; lra.
Qed.

Lemma sorted_split {A : Type} (R : A -> A -> Prop) (l1 l2 l3 : list A) (a b : A) :
  StronglySorted R (l1 ++ a :: l2 ++ b :: l3) -> R a b.
Proof.
  induction l1 as [|x l1 IH]; cbn [app]; intros S.
  - inversion S as [|? ? _ F]; subst. rewrite Forall_forall in F.
    apply F. apply in_or_app. right. now left.
  - inversion S; subst. now apply IH.
Qed.

(** X23: in the result of [calculate_improvement_potential] a metric of
    priority "Yüksek" can gain at least 15 points, one of priority
    "Orta" between 8 and 15, one of priority "Düşük" at most 8; so no
    metric of high priority is listed after one of low priority. *)
Theorem improvement_priority_order (scores : dict Q) (weights : option (dict Q)) :
  NoDup (map fst scores) ->
  let result := calculate_improvement_potential scores weights in
  (forall k i, In (k, i) result ->
     (priority i = "Yüksek"%string -> 15 <= potential_gain i) /\
     (priority i = "Orta"%string -> 8 <= potential_gain i <= 15) /\
     (priority i = "Düşük"%string -> potential_gain i <= 8)) /\
  (forall l1 a l2 b l3, result = l1 ++ a :: l2 ++ b :: l3 ->
     priority (snd a) = "Düşük"%string -> priority (snd b) <> "Yüksek"%string).
Proof.
  intros N result.
  assert (Hall : forall k i, In (k, i) result ->
            exists s, i = improvement_of (weights_or_default weights) k s).
  { intros k i Hin. unfold result, calculate_improvement_potential in Hin.
    fold (weights_or_default weights) in Hin.
    apply (Permutation_in _ (sort_desc_perm _ _)) in Hin.
    rewrite (improvements_of_distinct _ _ N) in Hin.
    apply in_map_iff in Hin. destruct Hin as ([k' s] & E & _).
    injection E as <- <-. now exists s. }
  assert (Hp : forall k i, In (k, i) result ->
            (priority i = "Yüksek"%string -> 15 <= potential_gain i) /\
            (priority i = "Orta"%string -> 8 <= potential_gain i <= 15) /\
            (priority i = "Düşük"%string -> potential_gain i <= 8)).
  { intros k i Hin. destruct (Hall k i Hin) as [s ->]. apply improvement_of_priority. }
  split; [exact Hp|].
  intros l1 a l2 b l3 E Ha Hb.
  pose proof (sort_desc_sorted (fun item => potential_gain (snd item))
                (improvements_of (weights_or_default weights) scores)) as S.
  fold (weights_or_default weights) in result.
  change (sort_desc _ _) with result in S. rewrite E in S.
  apply sorted_split in S. cbn beta in S.
  destruct a as [ka ia], b as [kb ib]. cbn [snd] in *.
  assert (Ia : In (ka, ia) result) by (rewrite E; apply in_or_app; right; now left).
  assert (Ib : In (kb, ib) result).
  { rewrite E. apply in_or_app. right. right. apply in_or_app. right. now left. }
  destruct (Hp ka ia Ia) as (_ & _ & La). destruct (Hp kb ib Ib) as (Hb' & _ & _).
  specialize (La Ha). specialize (Hb' Hb). lra.
Qed.

Lemma improvement_priority_order_witness :
  map (fun item => (fst item, priority (snd item)))
      (calculate_improvement_potential scores_far_and_near None)
  = [("commit_frequency", "Yüksek"); ("test_ratio", "Düşük")]%string /\
  exists i, In ("commit_frequency"%string, i)
               (calculate_improvement_potential scores_far_and_near None) /\
            15 <= potential_gain i.
Proof.
  split; [vm_compute; reflexivity|].
  destruct (improvement_priority_order scores_far_and_near None) as [H _].
  - repeat constructor; cbn; intuition discriminate.
  - exists (improvement_of DEFAULT_WEIGHTS "commit_frequency" 10).
    assert (Hin : In ("commit_frequency"%string,
                      improvement_of DEFAULT_WEIGHTS "commit_frequency" 10)
                     (calculate_improvement_potential scores_far_and_near None))
      by (vm_compute; left; reflexivity).
    split; [exact Hin|]. destruct (H _ _ Hin) as [Hy _]. apply Hy. reflexivity.
Defined.

End Priorities.
